(** * dclab.rtdc_dataset.config: the RT-DC dataset configuration store

    A shallow embedding of [dclab/rtdc_dataset/config.py] and the properties
    of its two-level, case-insensitive, schema-checked dictionaries, of its
    text-file parser and of its value formatter.

    - Python [str] values are sequences of Unicode code points ([list N]).
    - Python [float] values are IEEE 754 binary64 numbers ([spec_float]).
    - Python [dict] objects are insertion-ordered association lists.
    - Warnings and exceptions are threaded through a writer/error monad.
    - The [dclab.definitions] module ([dfn]) is an injected dependency,
      a value of the record [Definitions]. *)

From Stdlib Require Import List ZArith NArith Bool Lia String Ascii.
From Stdlib Require Import Floats.SpecFloat.
From Stdlib Require Import Sorting.Permutation Sorting.Sorted.
Import ListNotations.

Set Implicit Arguments.
Set Warnings "-register-all".

(** ** Python strings *)

(** A string is the list of its code points. *)
Definition str := list N.

Module Str.

(** Literals of the source are written as Rocq strings. *)
Definition lit (s : string) : str :=
  map N_of_ascii (list_ascii_of_string s).

Definition eqb (a b : str) : bool :=
  if list_eq_dec N.eq_dec a b then true else false.

Definition between (lo hi c : N) : bool := ((lo <=? c) && (c <=? hi))%N.

(** [str.lower] and [str.upper], character by character.  The tables are
    those of Unicode for U+0000..U+00FF and for the three code points
    that upper-casing reaches from there (U+0178, U+039C, U+03BC); other
    code points are left as they are. *)
Definition lower_cp (c : N) : N :=
  if between 65 90 c then (c + 32)%N
  else if between 192 214 c || between 216 222 c then (c + 32)%N
  else if (c =? 376)%N then 255%N
  else if (c =? 924)%N then 956%N
  else c.

Definition upper_cp (c : N) : list N :=
  if between 97 122 c then [(c - 32)%N]
  else if (c =? 181)%N then [924%N]
  else if (c =? 223)%N then [83%N; 83%N]
  else if between 224 246 c || between 248 254 c then [(c - 32)%N]
  else if (c =? 255)%N then [376%N]
  else if (c =? 956)%N then [924%N]
  else [c].

Definition lower (s : str) : str := map lower_cp s.
Definition upper (s : str) : str := flat_map upper_cp s.

Definition is_ascii (s : str) : bool := forallb (fun c => (c <? 128)%N) s.

(** [str.isspace] on one character (the white-space code points of
    CPython's [_PyUnicode_IsWhitespace]). *)
Definition isspace (c : N) : bool :=
  between 9 13 c || between 28 32 c || (c =? 133)%N || (c =? 160)%N
  || (c =? 5760)%N || between 8192 8202 c || (c =? 8232)%N
  || (c =? 8233)%N || (c =? 8239)%N || (c =? 8287)%N || (c =? 12288)%N.

Fixpoint dropwhile (p : N -> bool) (s : str) : str :=
  match s with
  | [] => []
  | c :: r => if p c then dropwhile p r else s
  end.

Definition strip_by (p : N -> bool) (s : str) : str :=
  rev (dropwhile p (rev (dropwhile p s))).

(** [s.strip()] *)
Definition strip (s : str) : str := strip_by isspace s.

Definition mem (c : N) (chars : str) : bool := existsb (N.eqb c) chars.

(** [s.strip(chars)] *)
Definition strip_chars (chars : str) (s : str) : str :=
  strip_by (fun c => mem c chars) s.

Fixpoint startswith (pre s : str) : bool :=
  match pre, s with
  | [], _ => true
  | _ :: _, [] => false
  | a :: pre', b :: s' => (a =? b)%N && startswith pre' s'
  end.

Definition endswith (suf s : str) : bool := startswith (rev suf) (rev s).

(** [s.count(sep)] for a one-character [sep]. *)
Definition count (sep : N) (s : str) : nat :=
  List.length (filter (N.eqb sep) s).

(** [s.split(sep)] for a one-character [sep]. *)
Fixpoint split (sep : N) (s : str) : list str :=
  match s with
  | [] => [[]]
  | c :: r =>
      if (c =? sep)%N then [] :: split sep r
      else match split sep r with
           | [] => [[c]]
           | w :: ws => (c :: w) :: ws
           end
  end.

(** [s.split(sep, 1)] for a one-character [sep]. *)
Fixpoint split1 (sep : N) (s : str) : list str :=
  match s with
  | [] => [[]]
  | c :: r =>
      if (c =? sep)%N then [[]; r]
      else match split1 sep r with
           | [] => [[c]]
           | w :: ws => (c :: w) :: ws
           end
  end.

(** [s.replace(a, b)] for one-character [a] and [b]. *)
Definition replace (a b : N) (s : str) : str :=
  map (fun c => if (c =? a)%N then b else c) s.

(** [s[a:-b]] for [a >= 0] and [b > 0]. *)
Definition slice (a b : nat) (s : str) : str :=
  firstn (List.length s - a - b) (skipn a s).

(** [sep.join(parts)] *)
Fixpoint join (sep : str) (parts : list str) : str :=
  match parts with
  | [] => []
  | [p] => p
  | p :: rest => p ++ sep ++ join sep rest
  end.

End Str.

Notation "` s" := (Str.lit s) (at level 1, format "` s").

(** ** Python numbers *)

Module Num.

(** [str(n)] of a non-negative integer: its decimal digits. *)
Fixpoint digits_aux (fuel : nat) (n : N) (acc : str) : str :=
  match fuel with
  | O => acc
  | S fuel' =>
      let acc' := (48 + n mod 10)%N :: acc in
      if (n / 10 =? 0)%N then acc' else digits_aux fuel' (n / 10)%N acc'
  end.

Definition decimal (n : N) : str := digits_aux (S (N.size_nat n)) n [].

(** [str(z)] of an integer. *)
Definition format_int (z : Z) : str :=
  if (z <? 0)%Z then `"-" ++ decimal (Z.abs_N z) else decimal (Z.to_N z).

(** binary64 *)
Definition prec : Z := 53.
Definition emax : Z := 1024.

Definition float := spec_float.

(** The float nearest to [(-1)^s * m * 10^e10] (ties to even). *)
Definition of_decimal (s : bool) (m : N) (e10 : Z) : float :=
  match m with
  | N0 => S754_zero s
  | Npos p =>
      match e10 with
      | Zneg d =>
          let '(q, e, l) :=
            SFdiv_core_binary prec emax (Zpos p) 0 (Z.pow_pos 10 d) 0 in
          binary_round_aux prec emax s q e l
      | _ =>
          match (Zpos p * 10 ^ e10)%Z with
          | Zpos n => binary_round prec emax s n 0
          | _ => S754_zero s
          end
      end
  end.

(** [float(z)] of an integer within the range of binary64. *)
Definition of_Z (z : Z) : float :=
  binary_normalize prec emax z 0 false.

(** [int(x)]: truncation towards zero; [None] for infinities and NaN. *)
Definition trunc (x : float) : option Z :=
  match x with
  | S754_zero _ => Some 0%Z
  | S754_finite s m e =>
      let a := match e with
               | Zneg p => (Zpos m / Z.pow_pos 2 p)%Z
               | _ => (Zpos m * 2 ^ e)%Z
               end in
      Some (if s then (- a)%Z else a)
  | _ => None
  end.

(** The integer nearest to [m * 2^e] (ties to even), for [m >= 0]. *)
Definition round_half_even (m e : Z) : Z :=
  match e with
  | Zneg p =>
      let d := Z.pow_pos 2 p in
      let q := (m / d)%Z in
      let r := (m mod d)%Z in
      match (2 * r ?= d)%Z with
      | Lt => q
      | Gt => (q + 1)%Z
      | Eq => if Z.even q then q else (q + 1)%Z
      end
  | _ => (m * 2 ^ e)%Z
  end.

Definition sign_str (s : bool) : str := if s then `"-" else [].

Definition zfill (width : nat) (s : str) : str :=
  repeat 48%N (width - List.length s) ++ s.

(** The fractional part: nothing when no digit is asked for. *)
Definition fraction (digits : nat) (n : N) : str :=
  match digits with
  | O => []
  | S _ => `"." ++ zfill digits (decimal n)
  end.

(** ["{:.<digits>f}".format(x)] *)
Definition format_fixed (digits : nat) (x : float) : str :=
  match x with
  | S754_nan => `"nan"
  | S754_infinity s => sign_str s ++ `"inf"
  | S754_zero s => sign_str s ++ `"0" ++ fraction digits 0
  | S754_finite s m e =>
      let scale := (10 ^ Z.of_nat digits)%Z in
      let n := round_half_even (Zpos m * scale) e in
      sign_str s ++ decimal (Z.to_N (n / scale))
        ++ fraction digits (Z.to_N (n mod scale))
  end.

(** *** [float(s)] of a string

    The grammar is that of the Python reference for [float]:
    [[sign] (floatnumber | infinity | nan)] between optional white space,
    where a [digitpart] is [digit (["_"] digit)*].  Digits are the ASCII
    digits. *)

Definition is_digit (c : N) : bool := Str.between 48 57 c.

(** The digits read so far: their value and how many they are. *)
Definition push (acc : N * nat) (c : N) : N * nat :=
  ((fst acc * 10 + (c - 48))%N, S (snd acc)).

Fixpoint digitpart_rest (s : str) (acc : N * nat) : (N * nat) * str :=
  match s with
  | c :: r =>
      if is_digit c then digitpart_rest r (push acc c)
      else if (c =? 95)%N then
        match r with
        | d :: r' =>
            if is_digit d then digitpart_rest r' (push acc d) else (acc, s)
        | [] => (acc, s)
        end
      else (acc, s)
  | [] => (acc, s)
  end.

Definition digitpart (s : str) (acc : N * nat) : option ((N * nat) * str) :=
  match s with
  | c :: r => if is_digit c then Some (digitpart_rest r (push acc c)) else None
  | [] => None
  end.

(** [number]: the digits of the mantissa as one integer, and the number
    of them that follow the point. *)
Definition number (s : str) : option ((N * nat) * str) :=
  match digitpart s (0%N, O) with
  | Some (ip, r) =>
      match r with
      | 46%N :: r' =>
          match digitpart r' (fst ip, O) with
          | Some (fp, r'') => Some (fp, r'')
          | None => Some ((fst ip, O), r')
          end
      | _ => Some ((fst ip, O), r)
      end
  | None =>
      match s with
      | 46%N :: r' => digitpart r' (0%N, O)
      | _ => None
      end
  end.

Definition take_sign (s : str) : bool * str :=
  match s with
  | 43%N :: r => (false, r)
  | 45%N :: r => (true, r)
  | _ => (false, s)
  end.

(** [exponent]: absent, or [e] with a signed [digitpart]. *)
Definition exponent (s : str) : option (Z * str) :=
  match s with
  | 101%N :: r | 69%N :: r =>
      let '(neg, r1) := take_sign r in
      match digitpart r1 (0%N, O) with
      | Some (d, r2) =>
          Some ((if neg then - Z.of_N (fst d) else Z.of_N (fst d))%Z, r2)
      | None => None
      end
  | _ => Some (0%Z, s)
  end.

Definition ascii_lower (s : str) : str :=
  map (fun c => if Str.between 65 90 c then (c + 32)%N else c) s.

(** [float(s)]; [None] stands for the [ValueError] of a string that is
    not a number. *)
Definition of_str (s : str) : option float :=
  let '(neg, body) := take_sign (Str.strip s) in
  let name := ascii_lower body in
  if Str.eqb name `"inf" || Str.eqb name `"infinity" then
    Some (S754_infinity neg)
  else if Str.eqb name `"nan" then Some S754_nan
  else
    match number body with
    | Some (m, r) =>
        match exponent r with
        | Some (e, []) => Some (of_decimal neg (fst m) (e - Z.of_nat (snd m)))
        | _ => None
        end
    | None => None
    end.

End Num.

(** ** Python objects of the configuration *)

(** Dictionary keys: strings, and keys that are not strings (integers). *)
Inductive key :=
| KStr (s : str)
| KInt (z : Z).

Definition key_eqb (a b : key) : bool :=
  match a, b with
  | KStr s, KStr t => Str.eqb s t
  | KInt x, KInt y => (x =? y)%Z
  | _, _ => false
  end.

(** Configuration values. *)
Inductive value :=
| VNone
| VBool (b : bool)
| VInt (z : Z)
| VFloat (x : Num.float)
| VStr (s : str)
| VList (l : list value).

(** The types that [dfn.get_config_value_type] hands to [isinstance]. *)
Inductive pytype :=
| T_str | T_bool | T_int | T_float | T_list
| T_Integral                       (* numbers.Integral *)
| T_Number                         (* numbers.Number *)
| T_tuple (ts : list pytype).      (* a tuple of types *)

Fixpoint isinstance (v : value) (t : pytype) : bool :=
  match t, v with
  | T_str, VStr _ => true
  | T_bool, VBool _ => true
  | T_int, (VInt _ | VBool _) => true
  | T_float, VFloat _ => true
  | T_list, VList _ => true
  | T_Integral, (VInt _ | VBool _) => true
  | T_Number, (VInt _ | VBool _ | VFloat _) => true
  | T_tuple ts, _ => existsb (isinstance v) ts
  | _, _ => false
  end.

(** ** Exceptions and warnings *)

Inductive key_error :=
| MissingKey (k : key)              (* a failed dictionary lookup *)
| NoDefaultValue (item : str).      (* no default value set for the item *)

Inductive exn :=
| KeyError (a : key_error)
| AttributeError
| TypeError
| ValueError
| UnboundLocalError.

Inductive category :=
| UserWarning
| WrongConfigurationTypeWarning
| EmptyConfigurationKeyWarning
| UnknownConfigurationKeyWarning
| BadUserConfigurationKeyWarning
| BadUserConfigurationValueWarning.

(** One constructor per [warnings.warn] call of the module. *)
Inductive warning :=
| EmptyValue (section key : key)
| BadValue (section : option key) (key : key)
| WrongType (section key : key) (typ : pytype) (v : value)
| DeprecatedSection (section : key)
| UnknownRangeFeature (feat : str)
| DeprecatedLimitEventsAuto
| UnknownFilteringKey (key : key)
| UserKeyNotString (key : key)
| UserKeyBlank
| UnknownSection (section : key)
| UnknownKey (key section : key).

Definition category_of (w : warning) : category :=
  match w with
  | EmptyValue _ _ => EmptyConfigurationKeyWarning
  | BadValue _ _ => BadUserConfigurationValueWarning
  | WrongType _ _ _ _ => WrongConfigurationTypeWarning
  | DeprecatedSection _ => UnknownConfigurationKeyWarning
  | UnknownRangeFeature _ => UnknownConfigurationKeyWarning
  | DeprecatedLimitEventsAuto => UserWarning
  | UnknownFilteringKey _ => UnknownConfigurationKeyWarning
  | UserKeyNotString _ => BadUserConfigurationKeyWarning
  | UserKeyBlank => BadUserConfigurationKeyWarning
  | UnknownSection _ => UnknownConfigurationKeyWarning
  | UnknownKey _ _ => UnknownConfigurationKeyWarning
  end.

(** A computation emits warnings, in order, and then returns or raises. *)
Definition M (A : Type) : Type := (list warning * (exn + A))%type.

Definition ret {A} (a : A) : M A := ([], inr a).
Definition raise {A} (e : exn) : M A := ([], inl e).
Definition warn (w : warning) : M unit := ([w], inr tt).

Definition bind {A B} (m : M A) (f : A -> M B) : M B :=
  match m with
  | (ws, inl e) => (ws, inl e)
  | (ws, inr a) => let '(ws', r) := f a in (ws ++ ws', r)
  end.

Definition lift {A} (r : exn + A) : M A := ([], r).

Declare Scope py_scope.
Delimit Scope py_scope with py.
Notation "x <- m ;; k" := (bind m (fun x => k))
  (at level 61, m at next level, right associativity) : py_scope.
Notation "' p <- m ;; k" := (bind m (fun x => let p := x in k))
  (at level 61, p pattern, m at next level, right associativity) : py_scope.
Notation "m ;;; k" := (bind m (fun _ => k))
  (at level 61, right associativity) : py_scope.
Open Scope py_scope.

Definition warnings {A} (m : M A) : list warning := fst m.

(** [for x in xs: body], threading the state [s]. *)
Fixpoint for_each {A S} (xs : list A) (body : S -> A -> M S) (s : S) : M S :=
  match xs with
  | [] => ret s
  | x :: r => s' <- body s x ;; for_each r body s'
  end.

(** ** Python dictionaries *)

Section Dict.
Variable V : Type.

(** The entries, oldest first; no key occurs twice. *)
Definition pydict := list (key * V).

Fixpoint dict_get (k : key) (d : pydict) : option V :=
  match d with
  | [] => None
  | (k', v) :: r => if key_eqb k' k then Some v else dict_get k r
  end.

Definition dict_contains (k : key) (d : pydict) : bool :=
  match dict_get k d with Some _ => true | None => false end.

(** [d[k] = v]: an entry keeps its place, a new one goes last. *)
Fixpoint dict_set (k : key) (v : V) (d : pydict) : pydict :=
  match d with
  | [] => [(k, v)]
  | (k', v') :: r =>
      if key_eqb k' k then (k', v) :: r else (k', v') :: dict_set k v r
  end.

(** [del d[k]], for a key that is there. *)
Fixpoint dict_remove (k : key) (d : pydict) : pydict :=
  match d with
  | [] => []
  | (k', v') :: r =>
      if key_eqb k' k then r else (k', v') :: dict_remove k r
  end.

Definition dict_keys (d : pydict) : list key := map fst d.

Definition dict_getitem (k : key) (d : pydict) : exn + V :=
  match dict_get k d with
  | Some v => inr v
  | None => inl (KeyError (MissingKey k))
  end.

Definition dict_delitem (k : key) (d : pydict) : exn + pydict :=
  if dict_contains k d then inr (dict_remove k d)
  else inl (KeyError (MissingKey k)).

End Dict.

Arguments dict_get {V}.
Arguments dict_contains {V}.
Arguments dict_set {V}.
Arguments dict_remove {V}.
Arguments dict_keys {V}.
Arguments dict_getitem {V}.
Arguments dict_delitem {V}.

(** What [Configuration.update] and [ConfigurationDict.update] ask of their
    argument: iteration over the keys, and item access. *)
Class Mapping (D V : Type) := {
  keys : D -> list key;
  getitem : D -> key -> exn + V
}.

#[export] Instance dict_Mapping (V : Type) : Mapping (pydict V) V := {
  keys := dict_keys;
  getitem d k := dict_getitem k d
}.

(** ** The schema registry [dclab.definitions]

    The module is not part of this file's source: what [config.py] uses of
    it is taken as a parameter. *)
Record Definitions := {
  (** [dfn.config_key_exists(section, key)] *)
  config_key_exists : key -> key -> bool;
  (** [dfn.scalar_feature_exists(feat)] *)
  scalar_feature_exists : str -> bool;
  (** [dfn.get_config_value_type(section, key)] *)
  get_config_value_type : key -> key -> option pytype;
  (** [dfn.get_config_value_func(section, key)], a function that may raise *)
  get_config_value_func : key -> key -> value -> exn + value;
  (** the section names of [dfn.config_keys] *)
  config_keys : list str;
  (** [item[0]] for each [item] of [dfn.CFG_ANALYSIS["filtering"]] *)
  CFG_ANALYSIS_filtering : list str
}.

(** [sys.version_info[0]]: the module uses f-strings, it only loads under
    Python 3. *)
Definition sys_version_info_0 : Z := 3.

Definition key_is (k : key) (s : string) : bool := key_eqb k (KStr `s).

(** [sec in dfn.config_keys] *)
Definition in_config_keys (dfn : Definitions) (sec : key) : bool :=
  match sec with
  | KStr s => existsb (Str.eqb s) (config_keys dfn)
  | KInt _ => false
  end.

(** *** [verify_section_key] *)

Section Validation.
Variable dfn : Definitions.

(** [verify_section_key] (lines 335-388), up to its [return]: the
    warnings, and the count [wcount]. *)
Definition verify_section_key_wcount (section key : key) : M nat :=
  let wcount := O in
  if config_key_exists dfn section key then ret wcount
  else if key_is section "plotting" || key_is section "analysis" then
    warn (DeprecatedSection section) ;;; ret (wcount + 1)%nat
  else if key_is section "filtering" then
    match key with
    | KInt _ =>
        (* [key.endswith]: only strings have the method *)
        raise AttributeError
    | KStr s =>
        if Str.endswith `" min" s || Str.endswith `" max" s then
          let feat := Str.slice 0 4 s in
          if negb (scalar_feature_exists dfn feat) then
            warn (UnknownRangeFeature feat) ;;; ret (wcount + 1)%nat
          else ret wcount
        else if Str.eqb s `"limit events auto" then
          if negb (sys_version_info_0 =? 2)%Z then
            warn DeprecatedLimitEventsAuto ;;; ret (wcount + 1)%nat
          else ret wcount
        else
          warn (UnknownFilteringKey key) ;;; ret (wcount + 1)%nat
    end
  else if key_is section "user" then
    match key with
    | KInt _ => warn (UserKeyNotString key) ;;; ret (wcount + 1)%nat
    | KStr s =>
        if (List.length (Str.strip s) =? 0)%nat then
          warn UserKeyBlank ;;; ret (wcount + 1)%nat
        else ret wcount
    end
  else if negb (in_config_keys dfn section) then
    warn (UnknownSection section) ;;; ret (wcount + 1)%nat
  else
    warn (UnknownKey key section) ;;; ret (wcount + 1)%nat.

(** [verify_section_key(section, key)]: [wcount == 0]. *)
Definition verify_section_key (section key : key) : M bool :=
  wcount <- verify_section_key_wcount section key ;;
  ret (wcount =? 0)%nat.

End Validation.

(** *** The order of keys *)

(** [a < b] on strings: by code points, a proper prefix first. *)
Fixpoint str_ltb (a b : str) : bool :=
  match a, b with
  | [], [] => false
  | [], _ :: _ => true
  | _ :: _, [] => false
  | x :: a', y :: b' =>
      if (x <? y)%N then true
      else if (y <? x)%N then false
      else str_ltb a' b'
  end.

(** [a < b] on keys; [None] is the [TypeError] of a string compared with an
    integer. *)
Definition key_ltb (a b : key) : option bool :=
  match a, b with
  | KStr s, KStr t => Some (str_ltb s t)
  | KInt x, KInt y => Some (x <? y)%Z
  | _, _ => None
  end.

(** [keys.sort()], as an insertion sort from the right.  The keys of a
    dictionary are distinct, so the result is the one of any sort; and a
    list that mixes strings and integers raises [TypeError] in any sort. *)
Fixpoint sort_insert (k : key) (l : list key) : exn + list key :=
  match l with
  | [] => inr [k]
  | h :: t =>
      match key_ltb k h with
      | None => inl TypeError
      | Some true => inr (k :: l)
      | Some false =>
          match sort_insert k t with
          | inr r => inr (h :: r)
          | inl e => inl e
          end
      end
  end.

Fixpoint sort (l : list key) : exn + list key :=
  match l with
  | [] => inr []
  | k :: t =>
      match sort t with
      | inr r => sort_insert k r
      | inl e => inl e
      end
  end.

(** *** [ConfigurationDict] *)

Record ConfigurationDict := {
  section : option key;
  data : pydict value
}.

(** The section under which [self] checks: [self.section] when it is
    true ([if self.section:]), that is neither [None], nor empty, nor 0. *)
Definition checked_section (self : ConfigurationDict) : option key :=
  match section self with
  | Some (KStr []) => None
  | Some (KInt 0) => None
  | o => o
  end.

Definition with_data (self : ConfigurationDict) (d : pydict value)
  : ConfigurationDict :=
  {| section := section self; data := d |}.

Definition is_empty_str (v : value) : bool :=
  match v with
  | VStr [] => true
  | _ => false
  end.

Definition is_None (v : value) : bool :=
  match v with
  | VNone => true
  | _ => false
  end.

Module ConfigurationDict.

(** [ConfigurationDict(section=section)] (lines 36-46), without initial
    entries. *)
Definition __init__ (section : option key) : ConfigurationDict :=
  {| section := section; data := [] |}.

(** [ConfigurationDict._k] (lines 95-98) *)
Definition _k (k : key) : key :=
  match k with
  | KStr s => KStr (Str.lower s)
  | KInt _ => k
  end.

(** [self[k]] (lines 48-50) *)
Definition __getitem__ (self : ConfigurationDict) (k : key) : exn + value :=
  dict_getitem (_k k) (data self).

Section Checked.
Variable dfn : Definitions.

(** [self[key] = value] (lines 52-85) *)
Definition __setitem__ (self : ConfigurationDict) (key : key) (value : value)
  : M ConfigurationDict :=
  let key := _k key in
  valid <- match checked_section self with
           | Some sec =>
               valid <- verify_section_key dfn sec key ;;
               if valid && is_empty_str value then
                 warn (EmptyValue sec key) ;;; ret false
               else ret valid
           | None => ret true
           end ;;
  valid <- (if is_None value then
              warn (BadValue (section self) key) ;;; ret false
            else ret valid) ;;
  if valid : bool then
    value <- match checked_section self with
             | Some sec =>
                 match get_config_value_type dfn sec key with
                 | Some typ =>
                     if negb (isinstance value typ) then
                       warn (WrongType sec key typ value)
                     else ret tt
                 | None => ret tt
                 end ;;;
                 lift (get_config_value_func dfn sec key value)
             | None => ret value
             end ;;
    ret (with_data self (dict_set key value (data self)))
  else ret self.

(** [self.update(E)] (lines 123-129); the keyword arguments [F], which the
    module never passes, are left out. *)
Definition update {D} `{Mapping D value}
    (self : ConfigurationDict) (E : D) : M ConfigurationDict :=
  for_each (keys E)
    (fun self key => v <- lift (getitem E key) ;; __setitem__ self key v)
    self.

End Checked.

(** [del self[k]] (lines 87-89) *)
Definition __delitem__ (self : ConfigurationDict) (k : key)
  : exn + ConfigurationDict :=
  match dict_delitem (_k k) (data self) with
  | inr d => inr (with_data self d)
  | inl e => inl e
  end.

(** [key in self] (lines 91-93) *)
Definition __contains__ (self : ConfigurationDict) (key : key) : bool :=
  dict_contains (_k key) (data self).

(** [self.get(key)] (lines 105-107), without a default. *)
Definition get (self : ConfigurationDict) (k : key) : value :=
  match dict_get (_k k) (data self) with
  | Some v => v
  | None => VNone
  end.

(** [[(k, self[k]) for k in keys]] *)
Fixpoint lookup_all (self : ConfigurationDict) (keys : list key)
  : exn + list (key * value) :=
  match keys with
  | [] => inr []
  | k :: r =>
      match __getitem__ self k with
      | inl e => inl e
      | inr v =>
          match lookup_all self r with
          | inr out => inr ((k, v) :: out)
          | inl e => inl e
          end
      end
  end.

(** [self.items()] (lines 109-113) *)
Definition items (self : ConfigurationDict) : exn + list (key * value) :=
  match sort (dict_keys (data self)) with
  | inr keys => lookup_all self keys
  | inl e => inl e
  end.

(** [self.pop(key)] and [self.pop(key, default)] (lines 115-117), through
    [MutableMapping.pop]: [self[key]], then [del self[key]]. *)
Definition pop (self : ConfigurationDict) (k : key) (default : option value)
  : exn + (ConfigurationDict * value) :=
  let k := _k k in
  match __getitem__ self k with
  | inr v =>
      match __delitem__ self k with
      | inr self' => inr (self', v)
      | inl e => inl e
      end
  | inl e =>
      match default with
      | Some d => inr (self, d)
      | None => inl e
      end
  end.

Section More.
Variable dfn : Definitions.

(** [self.setdefault(key, default)] (lines 119-121), through
    [MutableMapping.setdefault]: [self[key]], and on [KeyError]
    [self[key] = default]. *)
Definition setdefault (self : ConfigurationDict) (k : key) (default : value)
  : M (ConfigurationDict * value) :=
  let k := _k k in
  match __getitem__ self k with
  | inr v => ret (self, v)
  | inl _ =>
      self <- __setitem__ dfn self k default ;;
      ret (self, default)
  end.

(** [self._convert_keys()] (lines 100-103); [super().pop(k)] is
    [MutableMapping.pop]: [self[k]], then [del self[k]]. *)
Definition _convert_keys (self : ConfigurationDict) : M ConfigurationDict :=
  for_each (dict_keys (data self))
    (fun self k =>
       v <- lift (__getitem__ self k) ;;
       self <- lift (__delitem__ self k) ;;
       __setitem__ dfn self k v)
    self.

(** [ConfigurationDict(section, E)] (lines 36-46): [UserDict.__init__]
    starts from no entry and calls [self.update(E)]. *)
Definition __init__with {D} `{Mapping D value}
    (section : option key) (E : D) : M ConfigurationDict :=
  self <- update dfn (__init__ section) E ;;
  _convert_keys self.

End More.

End ConfigurationDict.

Import ConfigurationDict(_k).

#[export] Instance ConfigurationDict_Mapping
  : Mapping ConfigurationDict value := {
  keys self := dict_keys (data self);
  getitem := ConfigurationDict.__getitem__
}.

(** *** The section map

    [Configuration._cfg] and the result of [load_from_file]: a
    [ConfigurationDict] without section whose values are the
    [ConfigurationDict]s of the sections.  Without a section, and for a
    value that is not [None], [__setitem__] stores under the lower-cased
    key and neither warns nor raises. *)
Record SectionMap := { sections : pydict ConfigurationDict }.

Definition sm_contains (m : SectionMap) (sec : key) : bool :=
  dict_contains (_k sec) (sections m).

Definition sm_getitem (m : SectionMap) (sec : key)
  : exn + ConfigurationDict :=
  dict_getitem (_k sec) (sections m).

Definition sm_setitem (m : SectionMap) (sec : key)
    (item : ConfigurationDict) : SectionMap :=
  {| sections := dict_set (_k sec) item (sections m) |}.

#[export] Instance SectionMap_Mapping
  : Mapping SectionMap ConfigurationDict := {
  keys m := dict_keys (sections m);
  getitem := sm_getitem
}.

(** *** The text format *)

(** The single quote and the double quote. *)
Definition quote : N := 39.

Definition dquote : N := 34.

Section TextFormat.
Variable dfn : Definitions.

(** [[float(v) for v in values]] *)
Fixpoint floats (values : list str) : exn + list value :=
  match values with
  | [] => inr []
  | v :: r =>
      match Num.of_str v with
      | None => inl ValueError
      | Some x =>
          match floats r with
          | inr xs => inr (VFloat x :: xs)
          | inl e => inl e
          end
      end
  end.

Definition is_quote (c : option N) : bool :=
  match c with
  | Some c => (c =? quote)%N || (c =? dquote)%N
  | None => false
  end.

(** [keyval_str2typ(var, val)] (lines 441-495); the result [None] is the
    [None] that the function returns when it falls off its end. *)
Definition keyval_str2typ (var : str) (val : value)
  : exn + option (str * value) :=
  match val with
  | VStr val =>
      let var := Str.lower (Str.strip var) in
      let val := Str.strip val in
      if negb (List.length var =? 0)%nat && negb (List.length val =? 0)%nat
      then
        if Str.startswith `"[" val && Str.endswith `"]" val then
          if (List.length (Str.strip_chars `"[]," val) =? 0)%nat then
            inr (Some (var, VList []))
          else
            match floats (Str.split 44 (Str.strip_chars `"[]," val)) with
            | inr values => inr (Some (var, VList values))
            | inl e => inl e
            end
        else if existsb (Str.eqb (Str.lower val)) [`"true"; `"y"] then
          inr (Some (var, VBool true))
        else if existsb (Str.eqb (Str.lower val)) [`"false"; `"n"] then
          inr (Some (var, VBool false))
        else if is_quote (hd_error val) && is_quote (hd_error (rev val)) then
          inr (Some (var,
                     VStr (Str.strip (Str.strip_chars [dquote]
                                        (Str.strip_chars [quote] val)))))
        else if scalar_feature_exists dfn val then
          inr (Some (var, VStr val))
        else
          match Num.of_str (Str.replace 44 46 val) with
          | Some x => inr (Some (var, VFloat x))
          | None => inr (Some (var, VStr val))
          end
      else inr None
  | _ =>
      (* already a type *)
      inr (Some (Str.strip var, val))
  end.

(** ["{}".format(val)] for a value that is neither a list nor a float. *)
Definition format_plain (val : value) : str :=
  match val with
  | VNone => `"None"
  | VBool true => `"True"
  | VBool false => `"False"
  | VInt z => Num.format_int z
  | VStr s => s
  | _ => []
  end.

(** [keyval_typ2str(var, val)] (lines 498-527) *)
Fixpoint keyval_typ2str (var : str) (val : value) : str * str :=
  let varout := Str.strip var in
  let valout :=
    match val with
    | VList l =>
        let data :=
          Str.join `", " (map (fun it => snd (keyval_typ2str var it)) l) in
        `"[" ++ data ++ `"]"
    | VFloat x => Num.format_fixed 12 x
    | _ => format_plain val
    end in
  (varout, valout).

(** [len(str(val)) != 0]: only the empty string has an empty [str]; the
    [str] of a number, of a truth value, of [None] and of a list has at
    least one character. *)
Definition str_nonempty (val : value) : bool :=
  match val with
  | VStr s => negb (List.length s =? 0)%nat
  | _ => true
  end.

(** The variables of the loop of [load_from_file]: the section map, and
    [sec], unbound until the first section header. *)
Definition loader : Type := (SectionMap * option str)%type.

(** One turn of [for line in code] (lines 409-437). *)
Definition load_line (st : loader) (line : str) : M loader :=
  let '(cfg, sec) := st in
  let line := Str.strip (hd [] (Str.split 35 line)) in
  if negb (List.length line =? 0)%nat then
    if Str.startswith `"[" line && Str.endswith `"]" line then
      let sec := Str.lower (Str.slice 1 1 line) in
      let cfg :=
        if negb (sm_contains cfg (KStr sec))
        then sm_setitem cfg (KStr sec) (ConfigurationDict.__init__ None)
        else cfg in
      ret (cfg, Some sec)
    else if (Str.count 61 line =? 0)%nat then
      (* ignore invalid lines *)
      ret st
    else
      match Str.split1 61 line with
      | [var; val] =>
          let var := Str.lower (Str.strip var) in
          let val :=
            Str.strip (Str.strip_chars [dquote; 32%N]
                         (Str.strip_chars [quote; 32%N] val)) in
          if (List.length val =? 0)%nat then
            (* skip invalid values *)
            ret st
          else
            match sec with
            | None => raise UnboundLocalError
            | Some sec =>
                '(var, val) <-
                  (if config_key_exists dfn (KStr sec) (KStr var) then
                     val <- lift (get_config_value_func dfn (KStr sec)
                                    (KStr var) (VStr val)) ;;
                     ret (var, val)
                   else
                     r <- lift (keyval_str2typ var (VStr val)) ;;
                     match r with
                     | Some vv => ret vv
                     | None =>
                         (* [var, val = None] *)
                         raise TypeError
                     end) ;;
                if negb (List.length var =? 0)%nat && str_nonempty val then
                  item <- lift (sm_getitem cfg (KStr sec)) ;;
                  item <- ConfigurationDict.__setitem__ dfn item
                            (KStr var) val ;;
                  ret (sm_setitem cfg (KStr sec) item, Some sec)
                else ret (cfg, Some sec)
            end
      | _ => raise ValueError
      end
  else ret st.

(** [load_from_file(cfg_file)] (lines 391-438), for a file whose lines
    ([f.readlines()]) are [code]. *)
Definition load_from_file (code : list str) : M SectionMap :=
  st <- for_each code load_line ({| sections := [] |}, None) ;;
  ret (fst st).

End TextFormat.

(** [f.readlines()] on a file whose content is [text]: the lines, each with
    the line feed that ends it; [cur] is the line being read, from its end.
    The content holds no carriage return, which the universal newlines of
    the text mode would turn into a line feed. *)
Fixpoint readlines_from (cur text : str) : list str :=
  match text with
  | [] =>
      match cur with
      | [] => []
      | _ :: _ => [rev cur]
      end
  | c :: r =>
      if (c =? 10)%N then rev (c :: cur) :: readlines_from [] r
      else readlines_from (c :: cur) r
  end.

Definition readlines (text : str) : list str := readlines_from [] text.

(** *** [Configuration] *)

Record Configuration := {
  disable_checks : bool;
  _cfg : SectionMap
}.

Definition with_cfg (self : Configuration) (m : SectionMap)
  : Configuration :=
  {| disable_checks := disable_checks self; _cfg := m |}.

Module Configuration.

(** [k in self] (lines 178-179) *)
Definition __contains__ (self : Configuration) (k : key) : bool :=
  sm_contains (_cfg self) k.

(** [ConfigurationDict(section=None if self.disable_checks else sec)] *)
Definition new_section (self : Configuration) (sec : key)
  : ConfigurationDict :=
  ConfigurationDict.__init__ (if disable_checks self then None else Some sec).

Section Checked.
Variable dfn : Definitions.

(** The first statement of [__getitem__] (lines 182-185): an empty section
    is made for user-convenience. *)
Definition provision (self : Configuration) (sec : key) : Configuration :=
  if negb (__contains__ self sec)
     && (in_config_keys dfn sec || key_is sec "user")
  then with_cfg self (sm_setitem (_cfg self) sec (new_section self sec))
  else self.

(** [self[sec]] (lines 181-187): the configuration afterwards, and the
    section. *)
Definition __getitem__ (self : Configuration) (sec : key)
  : exn + (Configuration * ConfigurationDict) :=
  let self := provision self sec in
  match sm_getitem (_cfg self) sec with
  | inr item => inr (self, item)
  | inl e => inl e
  end.

(** [self[sec][k] = v]: the section object, which [self[sec]] returns, is
    changed in place. *)
Definition assign (self : Configuration) (sec k : key)
    (v : value) : M Configuration :=
  '(self, item) <- lift (__getitem__ self sec) ;;
  item <- ConfigurationDict.__setitem__ dfn item k v ;;
  ret (with_cfg self (sm_setitem (_cfg self) sec item)).

(** [self._init_default_filter_values()] (lines 208-230) *)
Definition _init_default_filter_values (self : Configuration)
  : M Configuration :=
  let filtering := KStr `"filtering" in
  self <- assign self filtering
            (KStr `"remove invalid events") (VBool false) ;;
  self <- assign self filtering
            (KStr `"enable filters") (VBool true) ;;
  self <- assign self filtering
            (KStr `"limit events") (VInt 0) ;;
  self <- assign self filtering
            (KStr `"polygon filters") (VList []) ;;
  self <- assign self filtering
            (KStr `"hierarchy parent") (VStr `"none") ;;
  for_each (CFG_ANALYSIS_filtering dfn)
    (fun self item0 =>
       '(self, item) <- lift (__getitem__ self filtering) ;;
       if negb (ConfigurationDict.__contains__ item (KStr item0)) then
         raise (KeyError (NoDefaultValue item0))
       else ret self)
    self.

(** One turn of the loop of [update] (lines 306-309). *)
Definition update_section {D2 D1} `{Mapping D2 D1} `{Mapping D1 value}
    (newcfg : D2) (self : Configuration) (sec : key) : M Configuration :=
  let self :=
    if negb (sm_contains (_cfg self) sec)
    then with_cfg self (sm_setitem (_cfg self) sec (new_section self sec))
    else self in
  item <- lift (sm_getitem (_cfg self) sec) ;;
  E <- lift (getitem newcfg sec) ;;
  item <- ConfigurationDict.update dfn item E ;;
  ret (with_cfg self (sm_setitem (_cfg self) sec item)).

(** [self.update(newcfg)] (lines 303-309) *)
Definition update {D2 D1}
    `{Mapping D2 D1} `{Mapping D1 value}
    (self : Configuration) (newcfg : D2) : M Configuration :=
  for_each (keys newcfg) (update_section newcfg) self.

Definition load_files (self : Configuration) (files : list (list str))
  : M Configuration :=
  for_each files
    (fun self f =>
       newcfg <- load_from_file dfn f ;;
       update self newcfg)
    self.

(** [Configuration(files=files, cfg=cfg, disable_checks=disable_checks)]
    (lines 133-176);
    a file is given by its lines, and an omitted [cfg] is the empty
    dictionary. *)
Definition __init__ {D2 D1} `{Mapping D2 D1} `{Mapping D1 value}
    (files : list (list str)) (cfg : D2) (disable_checks : bool)
  : M Configuration :=
  let self :=
    {| disable_checks := disable_checks; _cfg := {| sections := [] |} |} in
  self <- _init_default_filter_values self ;;
  self <- update self cfg ;;
  load_files self files.

(** [self.copy()] (lines 232-234); the deep copy of a value is the value. *)
Definition copy (self : Configuration) : M Configuration :=
  __init__ [] (_cfg self) false.

(** [self.get(key, other)] (lines 236-245): the configuration afterwards,
    and the section or [other]. *)
Definition get {A} (self : Configuration) (k : key) (other : A)
  : exn + (Configuration * (ConfigurationDict + A)) :=
  if __contains__ self k then
    match __getitem__ self k with
    | inr (self, item) => inr (self, inl item)
    | inl e => inl e
    end
  else inr (self, inr other).

End Checked.

(** [len(self)] (lines 192-193) *)
Definition __len__ (self : Configuration) : nat :=
  List.length (sections (_cfg self)).

(** [self.keys()] (lines 262-264), as a list. *)
Definition keys (self : Configuration) : list key :=
  dict_keys (sections (_cfg self)).

(** ["{}".format(key)] *)
Definition format_key (k : key) : str :=
  match k with
  | KStr s => s
  | KInt z => Num.format_int z
  end.

(** The lines of the keys [ikeys] of a section (lines 294-296 of
    [tostring]). *)
Fixpoint item_lines (section : ConfigurationDict) (ikeys : list key)
  : exn + list str :=
  match ikeys with
  | [] => inr []
  | ikey :: r =>
      match ConfigurationDict.__getitem__ section ikey with
      | inl e => inl e
      | inr v =>
          match ikey with
          | KInt _ =>
              (* [var.strip()]: only strings have the method *)
              inl AttributeError
          | KStr s =>
              let '(var, val) := keyval_typ2str s v in
              match item_lines section r with
              | inr out => inr ((var ++ `" = " ++ val) :: out)
              | inl e => inl e
              end
          end
      end
  end.

Section Text.
Variable dfn : Definitions.

(** The lines of the sections [keys] (lines 289-297 of [tostring]), and
    the configuration afterwards. *)
Fixpoint sections_lines (self : Configuration) (keys : list key)
  : exn + (Configuration * list str) :=
  match keys with
  | [] => inr (self, [])
  | key :: r =>
      match __getitem__ dfn self key with
      | inl e => inl e
      | inr (self, section) =>
          match sort (dict_keys (data section)) with
          | inl e => inl e
          | inr ikeys =>
              match item_lines section ikeys with
              | inl e => inl e
              | inr ls =>
                  match sections_lines self r with
                  | inl e => inl e
                  | inr (self, out) =>
                      inr (self,
                           (`"[" ++ format_key key ++ `"]")
                             :: ls ++ [] :: out)
                  end
              end
          end
      end
  end.

(** [self.tostring(sections)] (lines 273-301); [None] stands for the
    omitted argument. *)
Definition tostring (self : Configuration) (sections : option (list key))
  : exn + (Configuration * str) :=
  match sort (match sections with
              | None => keys self
              | Some ks => filter (__contains__ self) ks
              end) with
  | inl e => inl e
  | inr keys =>
      match sections_lines self keys with
      | inl e => inl e
      | inr (self, out) => inr (self, flat_map (fun l => l ++ [10%N]) out)
      end
  end.

End Text.

End Configuration.

(** [{}] *)
Definition no_cfg : pydict (pydict value) := [].

Arguments section _ : clear implicits.

(** ** A sample registry *)

Module Sample.

#[local] Open Scope string_scope.

Inductive func := f_str | f_float | f_fbool | f_fint | f_fintlist.

Definition CFG : list (string * list (string * func)) :=
  [ ("filtering",
     [ ("hierarchy parent", f_str);
       ("remove invalid events", f_fbool);
       ("enable filters", f_fbool);
       ("limit events", f_fint);
       ("polygon filters", f_fintlist) ]);
    ("setup",
     [ ("channel width", f_float);
       ("flow rate", f_float);
       ("medium", f_str) ]);
    ("experiment",
     [ ("event count", f_fint);
       ("sample", f_str) ]) ].

Definition features : list string := ["area_um"; "deform"; "aspect"].

Definition find_func (section k : key) : option func :=
  match section, k with
  | KStr sec, KStr name =>
      match find (fun e => Str.eqb (Str.lit (fst e)) sec) CFG with
      | Some (_, items) =>
          match find (fun it => Str.eqb (Str.lit (fst it)) name) items with
          | Some (_, f) => Some f
          | None => None
          end
      | None => None
      end
  | _, _ => None
  end.

(** [float(v)] *)
Definition to_float (v : value) : exn + Num.float :=
  match v with
  | VFloat x => inr x
  | VInt z => inr (Num.of_Z z)
  | VBool b => inr (Num.of_Z (if b then 1 else 0))
  | VStr s => match Num.of_str s with
              | Some x => inr x
              | None => inl ValueError
              end
  | _ => inl TypeError
  end.

(** [int(float(v))] *)
Definition fint (v : value) : exn + value :=
  match to_float v with
  | inr x => match Num.trunc x with
             | Some z => inr (VInt z)
             | None => inl ValueError
             end
  | inl e => inl e
  end.

(** A truth value, from a truth value, an integer or its name. *)
Definition fbool (v : value) : exn + value :=
  match v with
  | VBool b => inr v
  | VStr s =>
      if Str.eqb (Str.lower s) `"true" then inr (VBool true)
      else if Str.eqb (Str.lower s) `"false" then inr (VBool false)
      else inl ValueError
  | VInt z => inr (VBool (negb (z =? 0)%Z))
  | _ => inl ValueError
  end.

(** [[fint(v) for v in l]] *)
Fixpoint fints (l : list value) : exn + list value :=
  match l with
  | [] => inr []
  | v :: r =>
      match fint v, fints r with
      | inr z, inr zs => inr (z :: zs)
      | inl e, _ => inl e
      | _, inl e => inl e
      end
  end.

(** The coercion function of a key.  A key that is not in the table is
    left as it is; the text of a float or of a list is not modelled. *)
Definition coerce (f : option func) (v : value) : exn + value :=
  match f with
  | Some f_str =>
      match v with
      | VStr _ => inr v
      | VList _ | VFloat _ => inl TypeError
      | _ => inr (VStr (format_plain v))
      end
  | Some f_float =>
      match to_float v with
      | inr x => inr (VFloat x)
      | inl e => inl e
      end
  | Some f_fbool => fbool v
  | Some f_fint => fint v
  | Some f_fintlist =>
      match v with
      | VList l => match fints l with
                   | inr zs => inr (VList zs)
                   | inl e => inl e
                   end
      | _ => inl TypeError
      end
  | None => inr v
  end.

Definition type_of (f : func) : pytype :=
  match f with
  | f_str => T_str
  | f_float => T_Number
  | f_fbool => T_tuple [T_bool]
  | f_fint => T_Integral
  | f_fintlist => T_tuple [T_list]
  end.

(** Modelled from the spec: the schema registry [dclab.definitions] is not
    part of the source.  This sample of it has the sections and keys that
    the spec names: "filtering" with its five defaults, "setup" with
    "channel width" and "flow rate"; each key has a type and a coercion
    function in the manner of the registry.  The theorems hold of every
    registry; the sample is where they and the counterexamples are run. *)
Definition dfn : Definitions := {|
  config_key_exists section k :=
    match find_func section k with Some _ => true | None => false end;
  scalar_feature_exists feat :=
    existsb (fun f => Str.eqb (Str.lit f) feat) features;
  get_config_value_type section k := option_map type_of (find_func section k);
  get_config_value_func section k := coerce (find_func section k);
  config_keys := map (fun e => Str.lit (fst e)) CFG;
  CFG_ANALYSIS_filtering :=
    [ `"hierarchy parent"; `"remove invalid events"; `"enable filters";
      `"limit events"; `"polygon filters" ]
|}.

End Sample.

(** * The vocabulary of the properties *)

(** ** Sample objects *)

(** [ConfigurationDict(section="setup")] *)
Definition setup_dict : ConfigurationDict :=
  ConfigurationDict.__init__ (Some (KStr `"setup")).

(** A [Configuration] without sections. *)
Definition empty_Configuration : Configuration :=
  {| disable_checks := false; _cfg := {| sections := [] |} |}.

(** A line of a file, as [readlines] gives it. *)
Definition line (s : string) : str := `s ++ [10%N].

(** The floats 1.0 and 2.0. *)
Definition float_1 : Num.float := S754_finite false 4503599627370496 (-52).
Definition float_2 : Num.float := S754_finite false 4503599627370496 (-51).

Definition filtering : key := KStr `"filtering".
Definition setup : key := KStr `"setup".

(** The float 0.16. *)
Definition float_016 : Num.float := S754_finite false 5764607523034235 (-55).

(** [{"setup": {"channel width": 20}}] and [{"setup": {"flow rate": 0.16}}] *)
Definition channel_width_20 : pydict (pydict value) :=
  [(setup, [(KStr `"channel width", VInt 20)])].
Definition flow_rate_016 : pydict (pydict value) :=
  [(setup, [(KStr `"flow rate", VFloat float_016)])].

(** [{"setup": {"channel width": "abc"}}] *)
Definition channel_width_abc : pydict (pydict value) :=
  [(setup, [(KStr `"channel width", VStr `"abc")])].

(** The letter sharp s, U+00DF: lower case, with the upper case "SS". *)
Definition sharp_s : str := [223%N].

(** A configuration with a section that the schema does not know. *)
Definition shape_out : Configuration :=
  {| disable_checks := true;
     _cfg :=
       {| sections :=
            [(KStr `"shape-out",
              {| section := None;
                 data := [(KStr `"zoom", VInt 20);
                          (KStr `"alpha", VFloat float_016);
                          (KStr `"dark", VBool true)] |})] |} |}.

(** ** Keys *)

(** The three spellings of a string key: as written, upper-cased and
    lower-cased. *)
Definition casings (k : str) : list key :=
  [KStr k; KStr (Str.upper k); KStr (Str.lower k)].

(** ** The defaults of the section "filtering" *)

(** The hard-coded defaults of [Configuration._init_default_filter_values]. *)
Definition default_filter_values : pydict value :=
  [ (KStr `"remove invalid events", VBool false);
    (KStr `"enable filters", VBool true);
    (KStr `"limit events", VInt 0);
    (KStr `"polygon filters", VList []);
    (KStr `"hierarchy parent", VStr `"none") ].

(** The schema knows the keys of the defaults under "filtering", and its
    coercion functions leave the default values as they are. *)
Definition schema_takes_defaults (dfn : Definitions) : Prop :=
  Forall (fun kv =>
            config_key_exists dfn filtering (fst kv) = true
            /\ get_config_value_func dfn filtering (fst kv) (snd kv)
               = inr (snd kv))
         default_filter_values.

(** A key of [dfn.CFG_ANALYSIS["filtering"]] that has no default. *)
Definition without_default (item0 : str) : bool :=
  negb (dict_contains (_k (KStr item0)) default_filter_values).

(** The configuration whose one section is "filtering", with entries [d]. *)
Definition only_filtering (flag : bool) (d : pydict value) : Configuration :=
  {| disable_checks := flag;
     _cfg := {| sections :=
                  [(filtering,
                    {| section := if flag then None else Some filtering;
                       data := d |})] |} |}.

(** ** What an update keeps *)

(** What an update keeps of a section: its name, its keys, and the
    values of the keys that the update does not mention. *)
Definition section_kept (mentioned : key -> Prop)
    (item item' : ConfigurationDict) : Prop :=
  section item' = section item
  /\ (forall k, ConfigurationDict.__contains__ item k = true ->
                ConfigurationDict.__contains__ item' k = true)
  /\ (forall k, ~ mentioned (_k k) ->
                ConfigurationDict.__getitem__ item' k
                = ConfigurationDict.__getitem__ item k).

(** The normalized key [n] is mentioned, for the section [sec], by the part
    of the update [newcfg] that is under the section names [secs]. *)
Definition mentions {D2 D1 : Type} `{Mapping D2 D1} `{Mapping D1 value}
    (newcfg : D2) (secs : list key) (sec n : key) : Prop :=
  exists sec' E k',
    In sec' secs /\ _k sec' = _k sec /\ getitem newcfg sec' = inr E
    /\ In k' (keys E) /\ n = _k k'.

(** What an update keeps of a configuration: its flag, and every section. *)
Definition configuration_kept {D2 D1 : Type}
    `{Mapping D2 D1} `{Mapping D1 value} (newcfg : D2) (secs : list key)
    (self self' : Configuration) : Prop :=
  disable_checks self' = disable_checks self
  /\ forall sec item,
       sm_getitem (_cfg self) sec = inr item ->
       exists item',
         sm_getitem (_cfg self') sec = inr item'
         /\ section_kept (mentions newcfg secs sec) item item'.

(** The section name under which an assignment to the section [sec] of
    [self] is checked; [None] when it is not checked. *)
Definition checks_of (self : Configuration) (sec : key) : option key :=
  match sm_getitem (_cfg self) sec with
  | inr item => checked_section item
  | inl _ => checked_section (Configuration.new_section self sec)
  end.

(** Under the check [check], the schema knows the key and coerces the
    value. *)
Definition takes (dfn : Definitions) (check : option key) (k : key)
    (v : value) : Prop :=
  match check with
  | None => True
  | Some sec =>
      config_key_exists dfn sec (_k k) = true
      /\ exists v', get_config_value_func dfn sec (_k k) v = inr v'
  end.

(** ** Configurations that check *)

(** Every section of [self] carries a section name, the one it is stored
    under up to case. *)
Definition sections_named (self : Configuration) : Prop :=
  forall sec item,
    sm_getitem (_cfg self) sec = inr item ->
    exists name, section item = Some name /\ _k name = _k sec.

(** A configuration that checks: the flag is off and the sections are
    named. *)
Definition checking (self : Configuration) : Prop :=
  disable_checks self = false /\ sections_named self.

(** ** Well-formed dictionaries *)

(** The keys of the entries are in normal form: [_k] leaves them as they
    are. *)
Definition normal_keys {V : Type} (d : pydict V) : Prop :=
  Forall (fun kv => _k (fst kv) = fst kv) d.

(** A [ConfigurationDict] as the methods make it: no key occurs twice, and
    the keys are in normal form. *)
Definition well_formed (self : ConfigurationDict) : Prop :=
  NoDup (dict_keys (data self)) /\ normal_keys (data self).

(** [a <= b] on keys: [b < a] is false. *)
Definition key_le (a b : key) : Prop := key_ltb b a = Some false.

(** What an assignment without checks does to a dictionary: an entry with
    the value [None] is left out, any other goes under the lower-cased
    key. *)
Definition stored (self : ConfigurationDict) (kv : key * value)
  : ConfigurationDict :=
  if is_None (snd kv) then self
  else with_data self (dict_set (_k (fst kv)) (snd kv) (data self)).

(** The warnings of these assignments. *)
Definition bad_values (sec : option key) (E : pydict value) : list warning :=
  flat_map (fun kv => if is_None (snd kv)
                      then [BadValue sec (_k (fst kv))] else []) E.

Definition is_str (k : key) : bool :=
  match k with
  | KStr _ => true
  | KInt _ => false
  end.

(** The keys are all strings, or all integers. *)
Definition one_kind (ks : list key) : Prop :=
  forall a b, In a ks -> In b ks -> is_str a = is_str b.

(** A string key beside an integer key. *)
Definition mixed (ks : list key) : Prop :=
  exists s z, In (KStr s) ks /\ In (KInt z) ks.

(** ** Well-formed configurations *)

Definition every_section (P : ConfigurationDict -> Prop)
    (self : Configuration) : Prop :=
  Forall (fun kv => P (snd kv)) (sections (_cfg self)).

(** The flag of [self] is one of [flags], the names of the sections are
    lower-cased and distinct, and every section is a [P]. *)
Definition sections_are (flags : bool -> Prop)
    (P : ConfigurationDict -> Prop) (self : Configuration) : Prop :=
  flags (disable_checks self)
  /\ NoDup (Configuration.keys self)
  /\ normal_keys (sections (_cfg self))
  /\ every_section P self.

Definition well_formed_Configuration (self : Configuration) : Prop :=
  sections_are (fun _ => True) well_formed self.

(** A configuration that does not check: the flag is on and no section
    carries a section name. *)
Definition unchecked (self : Configuration) : Prop :=
  sections_are (fun flag => flag = true)
    (fun item => section item = None) self.

(** ** What is read from a file *)

Definition is_float (v : value) : bool :=
  match v with
  | VFloat _ => true
  | _ => false
  end.

(** The values that [keyval_str2typ] makes of a string: a truth value, a
    float, a string, or a list of floats. *)
Definition text_value (v : value) : Prop :=
  match v with
  | VBool _ | VFloat _ | VStr _ => True
  | VList l => forallb is_float l = true
  | VInt _ | VNone => False
  end.

(** A section as [load_from_file] fills it: it does not check, its keys
    are lower-cased and distinct, and no value is [None] or the empty
    string. *)
Definition loaded_section (item : ConfigurationDict) : Prop :=
  section item = None
  /\ well_formed item
  /\ Forall (fun kv => is_None (snd kv) = false
                       /\ is_empty_str (snd kv) = false) (data item).

(** A section map as [load_from_file] returns it. *)
Definition loaded (m : SectionMap) : Prop :=
  NoDup (dict_keys (sections m))
  /\ normal_keys (sections m)
  /\ Forall (fun kv => loaded_section (snd kv)) (sections m).

(** The exception [e] is raised by a coercion function of the schema,
    called for a key that the schema knows. *)
Definition raised_by_coercion (dfn : Definitions) (e : exn) : Prop :=
  exists sec k v,
    config_key_exists dfn sec k = true
    /\ get_config_value_func dfn sec k v = inl e.

(** The exceptions of [load_from_file]. *)
Definition read_error (dfn : Definitions) (e : exn) : Prop :=
  e = UnboundLocalError \/ e = TypeError \/ e = ValueError
  \/ raised_by_coercion dfn e.

(** The section of the last header is in the section map. *)
Definition headed (st : loader) : Prop :=
  forall s, snd st = Some s -> sm_contains (fst st) (KStr s) = true.

(** ** The text of a float *)

(** The float that is read from the text of [x]: the float nearest to [x]
    rounded to twelve digits after the point. *)
Definition reread (x : Num.float) : Num.float :=
  match x with
  | S754_finite s m e =>
      Num.of_decimal s
        (Z.to_N (Num.round_half_even (Zpos m * 10 ^ 12) e)) (-12)
  | _ => x
  end.

(** ** Writing a configuration and reading it back *)

(** The value that is read back from the text of a value: numbers come
    back as floats. *)
Definition read_back (v : value) : value :=
  match v with
  | VInt z => VFloat (Num.of_Z z)
  | VFloat x => VFloat (reread x)
  | VList l =>
      VList (map (fun it => match it with
                            | VFloat x => VFloat (reread x)
                            | _ => it
                            end) l)
  | _ => v
  end.

(** The values considered: truth values, integers and floats whose text is
    not the name of a scalar feature, and lists of floats.  An integer has
    at most 4300 digits, the most that the interpreter converts to text. *)
Definition written (dfn : Definitions) (v : value) : Prop :=
  match v with
  | VBool _ => True
  | VInt z =>
      (Z.abs z < 10 ^ 4300)%Z
      /\ scalar_feature_exists dfn (Num.format_int z) = false
  | VFloat x => scalar_feature_exists dfn (Num.format_fixed 12 x) = false
  | VList l => forallb is_float l = true
  | VNone | VStr _ => False
  end.

(** A character that does not end a line or start a comment: no line
    feed, no carriage return, no hash sign. *)
Definition in_line (c : N) : Prop := c <> 10%N /\ c <> 13%N /\ c <> 35%N.

(** The first and the last character of [s] are not in [p]. *)
Definition ends (p : N -> bool) (s : str) : Prop :=
  match s with
  | [] => False
  | c :: _ => p c = false
  end
  /\ match rev s with
     | [] => False
     | c :: _ => p c = false
     end.

(** The characters that [load_from_file] strips from a value. *)
Definition edge (c : N) : bool :=
  Str.isspace c || (c =? quote)%N || (c =? dquote)%N.

(** A section name that a header line gives back. *)
Definition clean_name (s : str) : Prop :=
  Str.lower s = s /\ Forall in_line s.

(** A key that a line gives back: lower-cased, without an equals sign,
    with visible ends, and not opening with a square bracket. *)
Definition clean_key (s : str) : Prop :=
  Str.lower s = s
  /\ Forall (fun c => in_line c /\ c <> 61%N) s
  /\ ends Str.isspace s
  /\ hd_error s <> Some 91%N.

(** A configuration that is written and read back: the names of its
    sections and its keys are clean strings, the schema does not know the
    keys, and the values are [written]. *)
Definition writable_entry (dfn : Definitions) (name : str)
    (kv : key * value) : Prop :=
  exists var,
    fst kv = KStr var
    /\ clean_key var
    /\ config_key_exists dfn (KStr name) (KStr var) = false
    /\ written dfn (snd kv).

Definition writable_section (dfn : Definitions) (name : str)
    (item : ConfigurationDict) : Prop :=
  Forall (writable_entry dfn name) (data item).

Definition writable (dfn : Definitions) (self : Configuration) : Prop :=
  Forall (fun kv =>
            exists name,
              fst kv = KStr name
              /\ clean_name name
              /\ writable_section dfn name (snd kv))
    (sections (_cfg self)).

(** The entries of a section in the order of [items()], and the sections
    of a configuration in the order of their names. *)
Definition sorted_entries (item : ConfigurationDict) : list (key * value) :=
  match ConfigurationDict.items item with
  | inr es => es
  | inl _ => []
  end.

Definition sorted_sections (self : Configuration)
  : list (key * ConfigurationDict) :=
  match sort (Configuration.keys self) with
  | inr names =>
      map (fun n => (n, match sm_getitem (_cfg self) n with
                        | inr item => item
                        | inl _ => ConfigurationDict.__init__ None
                        end))
        names
  | inl _ => []
  end.

(** The entry [kv] read back. *)
Definition read_back_entry (kv : key * value) : key * value :=
  (fst kv, read_back (snd kv)).

(** What is read back of a section: its entries in the order of
    [items()], without a section name. *)
Definition read_back_section (item : ConfigurationDict)
  : ConfigurationDict :=
  {| section := None; data := map read_back_entry (sorted_entries item) |}.

(** What is read back of a configuration: its sections in the order of
    their names. *)
Definition read_back_Configuration (self : Configuration) : SectionMap :=
  {| sections :=
       map (fun kv => (fst kv, read_back_section (snd kv)))
         (sorted_sections self) |}.

(** The line that [tostring] writes for an entry, and the lines that it
    writes for a section with the entries [es]. *)
Definition entry_line (kv : key * value) : str :=
  match fst kv with
  | KStr s => let '(var, val) := keyval_typ2str s (snd kv) in
              var ++ `" = " ++ val
  | KInt _ => []
  end.

Definition section_text (name : key) (es : list (key * value))
  : list str :=
  (`"[" ++ Configuration.format_key name ++ `"]")
    :: map entry_line es ++ [[]].

(** The lines that [tostring] writes for a configuration. *)
Definition written_lines (self : Configuration) : list str :=
  flat_map (fun kv => section_text (fst kv) (sorted_entries (snd kv)))
    (sorted_sections self).

(** * Properties *)

Unset Implicit Arguments.

(** ** Equality of strings and keys *)

Lemma Str_eqb_eq (a b : str) : Str.eqb a b = true <-> a = b.
Proof.
  unfold Str.eqb. destruct (list_eq_dec N.eq_dec a b); split; congruence.
Qed.

Lemma Str_eqb_refl (a : str) : Str.eqb a a = true.
Proof. now apply Str_eqb_eq. Qed.

Lemma key_eqb_eq (a b : key) : key_eqb a b = true <-> a = b.
Proof.
  destruct a, b; simpl; try (split; congruence).
  - rewrite Str_eqb_eq. split; congruence.
  - rewrite Z.eqb_eq. split; congruence.
Qed.

Lemma key_eqb_refl (a : key) : key_eqb a a = true.
Proof. now apply key_eqb_eq. Qed.

Lemma key_eqb_neq (a b : key) : key_eqb a b = false <-> a <> b.
Proof.
  rewrite <- key_eqb_eq. destruct (key_eqb a b); split; congruence.
Qed.

Lemma key_eqb_sym (a b : key) : key_eqb a b = key_eqb b a.
Proof.
  destruct (key_eqb b a) eqn:E.
  - apply key_eqb_eq in E. subst. apply key_eqb_refl.
  - apply key_eqb_neq. apply key_eqb_neq in E. congruence.
Qed.

(** ** Dictionaries *)

Section DictFacts.
Variable V : Type.
Implicit Types (d : pydict V) (k : key) (v : V).

Lemma dict_get_set_same d k v : dict_get k (dict_set k v d) = Some v.
Proof.
  induction d as [|[k' v'] d IH]; simpl.
  - now rewrite key_eqb_refl.
  - destruct (key_eqb k' k) eqn:E; simpl; rewrite E; auto.
Qed.

Lemma dict_get_set_other d k k' v :
  k <> k' -> dict_get k' (dict_set k v d) = dict_get k' d.
Proof.
  intros Hne. induction d as [|[k0 v0] d IH]; simpl.
  - apply key_eqb_neq in Hne. now rewrite Hne.
  - destruct (key_eqb k0 k) eqn:E; simpl.
    + apply key_eqb_eq in E. subst k0.
      apply key_eqb_neq in Hne. now rewrite Hne.
    + destruct (key_eqb k0 k'); auto.
Qed.

Lemma dict_contains_set d k k' v :
  dict_contains k' d = true -> dict_contains k' (dict_set k v d) = true.
Proof.
  unfold dict_contains. destruct (key_eqb k k') eqn:E.
  - apply key_eqb_eq in E. subst. now rewrite dict_get_set_same.
  - apply key_eqb_neq in E. now rewrite dict_get_set_other.
Qed.

End DictFacts.

(** ** The monad *)

Lemma bind_ret {A B} (a : A) (f : A -> M B) : bind (ret a) f = f a.
Proof. unfold bind, ret. destruct (f a) as [ws r]. reflexivity. Qed.

Lemma bind_raise {A B} (e : exn) (f : A -> M B) : bind (raise e) f = raise e.
Proof. reflexivity. Qed.

Lemma bind_value {A B} (ws : list warning) (a : A) (f : A -> M B) :
  bind (ws, inr a) f = (ws ++ fst (f a), snd (f a)).
Proof. unfold bind. destruct (f a). reflexivity. Qed.

Lemma bind_returns {A B} (m : M A) (f : A -> M B)
    (ws ws' : list warning) (a : A) (r : exn + B) :
  m = (ws, inr a) -> f a = (ws', r) -> bind m f = (ws ++ ws', r).
Proof. intros -> H. unfold bind. now rewrite H. Qed.

Lemma bind_inv {A B} (m : M A) (f : A -> M B) (ws : list warning) (b : B) :
  bind m f = (ws, inr b) ->
  exists ws1 a ws2,
    m = (ws1, inr a) /\ f a = (ws2, inr b) /\ ws = ws1 ++ ws2.
Proof.
  destruct m as [ws1 [e|a]]; simpl; [discriminate|].
  destruct (f a) as [ws2 r] eqn:E. intros H. injection H as <- ->.
  now exists ws1, a, ws2.
Qed.

Lemma lift_inv {A} (r : exn + A) (ws : list warning) (a : A) :
  lift r = (ws, inr a) -> r = inr a /\ ws = [].
Proof. unfold lift. intros H. injection H as <- ->. now split. Qed.

(** A relation between the states before and after a loop, read off its
    turns. *)
Lemma for_each_rel {A S} (body : S -> A -> M S)
    (R : list A -> S -> S -> Prop) :
  (forall s, R [] s s) ->
  (forall x xs s s1 s2 ws,
      body s x = (ws, inr s1) -> R xs s1 s2 -> R (x :: xs) s s2) ->
  forall xs s ws s', for_each xs body s = (ws, inr s') -> R xs s s'.
Proof.
  intros Hnil Hcons. induction xs as [|x xs IH]; intros s ws s' H.
  - injection H as _ <-. apply Hnil.
  - cbn [for_each] in H.
    apply bind_inv in H as (ws1 & s1 & ws2 & H1 & H2 & _).
    eapply Hcons; eauto.
Qed.

Lemma bind_error {A B} (ws : list warning) (e : exn) (f : A -> M B) :
  bind (ws, inl e) f = (ws, inl e).
Proof. reflexivity. Qed.

(** ** Key validation *)

Section Verify.
Variable dfn : Definitions.

(** On a string key the validation returns, and it warns exactly when it
    finds the key invalid. *)
Lemma verify_section_key_str (sec : key) (s : str) :
  exists ws valid,
    verify_section_key dfn sec (KStr s) = (ws, inr valid)
    /\ (valid = true -> ws = [])
    /\ (valid = false -> ws <> []).
Proof.
  unfold verify_section_key, verify_section_key_wcount.
  repeat match goal with
         | |- context [if ?c then _ else _] => destruct c
         end;
    simpl; eexists; eexists; (split; [reflexivity | split; congruence]).
Qed.

End Verify.

(** ** Assignment to a [ConfigurationDict] *)

Section SetItem.
Variable dfn : Definitions.

(** Without a section to check under, any value but [None] is stored as it
    is, silently. *)
Lemma cd_setitem_unchecked (self : ConfigurationDict) (k : key) (v : value) :
  checked_section self = None ->
  is_None v = false ->
  ConfigurationDict.__setitem__ dfn self k v
  = ([], inr (with_data self (dict_set (_k k) v (data self)))).
Proof.
  intros Hsec Hv. unfold ConfigurationDict.__setitem__.
  rewrite Hsec, Hv. reflexivity.
Qed.

(** A checked assignment that passes validation: the coercion decides. *)
Lemma cd_setitem_valid (self : ConfigurationDict) (sec k : key) (v : value)
    (ws : list warning) :
  checked_section self = Some sec ->
  verify_section_key dfn sec (_k k) = (ws, inr true) ->
  is_empty_str v = false ->
  is_None v = false ->
  ConfigurationDict.__setitem__ dfn self k v
  = (ws ++ match get_config_value_type dfn sec (_k k) with
           | Some typ =>
               if isinstance v typ then [] else [WrongType sec (_k k) typ v]
           | None => []
           end,
     match get_config_value_func dfn sec (_k k) v with
     | inr v' => inr (with_data self (dict_set (_k k) v' (data self)))
     | inl e => inl e
     end).
Proof.
  intros Hsec Hver Hempty Hnone. unfold ConfigurationDict.__setitem__.
  rewrite Hsec, Hver, Hempty, Hnone. simpl.
  destruct (get_config_value_type dfn sec (_k k)) as [typ|];
    [destruct (isinstance v typ)|];
    destruct (get_config_value_func dfn sec (_k k) v);
    simpl; rewrite ?app_nil_r; reflexivity.
Qed.

(** Whatever is assigned, the result is the dictionary itself or the
    dictionary with one entry set, under the same section. *)
Lemma cd_setitem_inv (self self' : ConfigurationDict) (k : key) (v : value)
    (ws : list warning) :
  ConfigurationDict.__setitem__ dfn self k v = (ws, inr self') ->
  self' = self
  \/ exists v', self' = with_data self (dict_set (_k k) v' (data self)).
Proof.
  unfold ConfigurationDict.__setitem__.
  destruct (checked_section self) as [sec|].
  - destruct (verify_section_key dfn sec (_k k)) as [ws1 [e|valid]];
      [discriminate|].
    destruct valid, (is_empty_str v), (is_None v); simpl;
      try (intros H; injection H as _ <-; now left).
    destruct (get_config_value_type dfn sec (_k k)) as [typ|];
      [destruct (isinstance v typ)|];
      destruct (get_config_value_func dfn sec (_k k) v) as [e|v'];
      simpl; try discriminate;
      intros H; injection H as _ <-; right; now exists v'.
  - destruct (is_None v); simpl; intros H; injection H as _ <-.
    + now left.
    + right. now exists v.
Qed.

End SetItem.

(** C1, as amended.  In a dictionary that checks under a section, and for a
    string key: assigning [None] or the empty string returns, without an
    exception, the dictionary as it was (no entry made, none changed, the
    length kept).  [None] is answered by the bad-value warning, after the
    warnings of the key's validation.  The empty string is answered by the
    empty-value warning when the key passes validation, and by the
    validation's own warning, at least one, when it does not. *)
Theorem None_and_empty_string_are_not_stored
    (dfn : Definitions) (self : ConfigurationDict) (sec : key) (s : str) :
  checked_section self = Some sec ->
  exists ws valid,
    verify_section_key dfn sec (KStr (Str.lower s)) = (ws, inr valid)
    /\ (valid = false -> ws <> [])
    /\ ConfigurationDict.__setitem__ dfn self (KStr s) VNone
       = (ws ++ [BadValue (section self) (KStr (Str.lower s))], inr self)
    /\ ConfigurationDict.__setitem__ dfn self (KStr s) (VStr [])
       = (ws ++ (if valid then [EmptyValue sec (KStr (Str.lower s))] else []),
          inr self).
Proof.
  intros Hsec.
  destruct (verify_section_key_str dfn sec (Str.lower s))
    as (ws & valid & Hver & _ & Hwarned).
  exists ws, valid. repeat split; trivial.
  - unfold ConfigurationDict.__setitem__. simpl _k. rewrite Hsec, Hver.
    destruct valid; simpl; rewrite ?app_nil_r; reflexivity.
  - unfold ConfigurationDict.__setitem__. simpl _k. rewrite Hsec, Hver.
    destruct valid; simpl; rewrite ?app_nil_r; reflexivity.
Qed.

(** C1 at the key "Channel Width" of a dictionary of the section "setup". *)
Lemma None_and_empty_string_are_not_stored_witness :
  exists ws valid,
    verify_section_key Sample.dfn (KStr `"setup")
      (KStr (Str.lower `"Channel Width")) = (ws, inr valid)
    /\ (valid = false -> ws <> [])
    /\ ConfigurationDict.__setitem__ Sample.dfn setup_dict
         (KStr `"Channel Width") VNone
       = (ws ++ [BadValue (section setup_dict)
                   (KStr (Str.lower `"Channel Width"))], inr setup_dict)
    /\ ConfigurationDict.__setitem__ Sample.dfn setup_dict
         (KStr `"Channel Width") (VStr [])
       = (ws ++ (if valid
                 then [EmptyValue (KStr `"setup")
                         (KStr (Str.lower `"Channel Width"))]
                 else []),
          inr setup_dict).
Proof.
  exact (None_and_empty_string_are_not_stored Sample.dfn setup_dict
           (KStr `"setup") `"Channel Width" eq_refl).
Defined.

(** C1, as stated, fails: the empty string assigned to a key that the
    section does not know draws the unknown-key warning and no
    empty-value warning; and the validation of a key that is not a string
    raises in the section "filtering". *)
Lemma empty_string_for_unknown_key_draws_no_empty_warning :
  ConfigurationDict.__setitem__ Sample.dfn setup_dict (KStr `"bogus") (VStr [])
  = ([UnknownKey (KStr `"bogus") (KStr `"setup")], inr setup_dict)
  /\ map category_of
       (warnings (ConfigurationDict.__setitem__ Sample.dfn setup_dict
                    (KStr `"bogus") (VStr [])))
     = [UnknownConfigurationKeyWarning]
  /\ ConfigurationDict.__setitem__ Sample.dfn
       (ConfigurationDict.__init__ (Some (KStr `"filtering")))
       (KInt 5) VNone
     = ([], inl AttributeError).
Proof. repeat split. Qed.

(** ** Validation of the keys of the section "filtering" *)

Lemma startswith_app (p r : str) : Str.startswith p (p ++ r) = true.
Proof.
  induction p as [|c p IH]; simpl; [reflexivity|].
  now rewrite N.eqb_refl, IH.
Qed.

Lemma endswith_app (feat suffix : str) :
  Str.endswith suffix (feat ++ suffix) = true.
Proof.
  unfold Str.endswith. rewrite rev_app_distr. apply startswith_app.
Qed.





(** ** Access to the sections of a [Configuration] *)

(** C9.  Reading a section under a name that is absent, that is no section
    name of the schema and that is not "user" makes no section and raises
    the [KeyError] of the failed lookup; and whenever reading a section
    changes the configuration, the name was absent and is a section name of
    the schema or "user", and what was made is an empty section. *)
Theorem absent_unknown_section_raises_KeyError
    (dfn : Definitions) (self : Configuration) (sec : key) :
  (Configuration.__contains__ self sec = false ->
   in_config_keys dfn sec = false ->
   key_is sec "user" = false ->
   Configuration.provision dfn self sec = self
   /\ Configuration.__getitem__ dfn self sec
      = inl (KeyError (MissingKey (_k sec))))
  /\ (Configuration.provision dfn self sec <> self ->
      Configuration.__contains__ self sec = false
      /\ (in_config_keys dfn sec = true \/ key_is sec "user" = true)
      /\ Configuration.__getitem__ dfn self sec
         = inr (Configuration.provision dfn self sec,
                Configuration.new_section self sec)
      /\ data (Configuration.new_section self sec) = []).
Proof.
  split.
  - intros Habsent Hschema Huser.
    assert (Hp : Configuration.provision dfn self sec = self).
    { unfold Configuration.provision.
      now rewrite Hschema, Huser, andb_false_r. }
    split; [exact Hp|].
    unfold Configuration.__getitem__. rewrite Hp.
    unfold Configuration.__contains__, sm_contains, dict_contains in Habsent.
    unfold sm_getitem, dict_getitem.
    destruct (dict_get (_k sec) (sections (_cfg self)));
      [discriminate | reflexivity].
  - intros Hchanged. unfold Configuration.__getitem__.
    unfold Configuration.provision in *.
    destruct (Configuration.__contains__ self sec) eqn:Hc; simpl in *;
      [contradiction|].
    destruct (in_config_keys dfn sec || key_is sec "user") eqn:Hk;
      [|contradiction].
    split; [reflexivity|]. split; [now apply orb_true_iff|].
    split; [|reflexivity].
    unfold sm_getitem, dict_getitem, sm_setitem. simpl.
    now rewrite dict_get_set_same.
Qed.

(** C9 at the name "Bogus", in a configuration without sections. *)
Lemma absent_unknown_section_raises_KeyError_witness :
  Configuration.provision Sample.dfn empty_Configuration (KStr `"Bogus")
  = empty_Configuration
  /\ Configuration.__getitem__ Sample.dfn empty_Configuration (KStr `"Bogus")
     = inl (KeyError (MissingKey (_k (KStr `"Bogus")))).
Proof.
  exact (proj1 (absent_unknown_section_raises_KeyError Sample.dfn
                  empty_Configuration (KStr `"Bogus"))
           eq_refl eq_refl eq_refl).
Defined.

(** ** Case-insensitive keys *)

Ltac no_if t :=
  lazymatch t with
  | context [if _ then _ else _] => fail
  | _ => idtac
  end.

Ltac case_step :=
  match goal with
  | |- context [(?a <=? ?b)%N] =>
      no_if a; no_if b; destruct (N.leb_spec a b)
  | |- context [(?a =? ?b)%N] =>
      no_if a; no_if b; destruct (N.eqb_spec a b)
  | |- context [(?a <? ?b)%N] =>
      no_if a; no_if b; destruct (N.ltb_spec a b)
  end.

Ltac case_table :=
  unfold Str.lower_cp, Str.upper_cp, Str.between;
  repeat (case_step; simpl; try (exfalso; lia));
  try reflexivity.

Lemma lower_cp_idempotent (c : N) :
  Str.lower_cp (Str.lower_cp c) = Str.lower_cp c.
Proof. case_table. Qed.

Lemma lower_idempotent (s : str) : Str.lower (Str.lower s) = Str.lower s.
Proof.
  unfold Str.lower. rewrite map_map. apply map_ext.
  apply lower_cp_idempotent.
Qed.

Lemma lower_upper_cp_ascii (c : N) :
  (c <? 128)%N = true ->
  map Str.lower_cp (Str.upper_cp c) = [Str.lower_cp c].
Proof.
  intros Hc. apply N.ltb_lt in Hc. case_table.
  all: f_equal; lia.
Qed.

(** On ASCII strings, upper-casing is undone by lower-casing. *)
Lemma lower_upper_ascii (s : str) :
  Str.is_ascii s = true -> Str.lower (Str.upper s) = Str.lower s.
Proof.
  unfold Str.is_ascii, Str.lower, Str.upper.
  induction s as [|c s IH]; simpl; [reflexivity|].
  intros H. apply andb_true_iff in H as [Hc Hs].
  now rewrite map_app, lower_upper_cp_ascii, IH.
Qed.

Lemma casings_normalize (k : str) (k1 : key) :
  Str.lower (Str.upper k) = Str.lower k ->
  In k1 (casings k) -> _k k1 = KStr (Str.lower k).
Proof.
  intros Hround [<- | [<- | [<- | []]]]; simpl.
  - reflexivity.
  - now rewrite Hround.
  - now rewrite lower_idempotent.
Qed.

(** C3, as amended.  For a string key [k] whose upper-casing lower-cases to
    [k.lower()], as every ASCII key does: lookup, membership test, deletion
    and assignment through [k], [k.upper()] and [k.lower()] do the same; a
    value assigned through one spelling is read back through any other;
    two string keys with the same lower case are looked up and assigned
    alike; and a key that is not a string is used as it is. *)
Theorem keys_differing_by_case_are_one_entry
    (dfn : Definitions) (self : ConfigurationDict) (k : str) (k1 k2 : key) :
  Str.lower (Str.upper k) = Str.lower k ->
  In k1 (casings k) ->
  In k2 (casings k) ->
  ConfigurationDict.__getitem__ self k1 = ConfigurationDict.__getitem__ self k2
  /\ ConfigurationDict.__contains__ self k1
     = ConfigurationDict.__contains__ self k2
  /\ ConfigurationDict.__delitem__ self k1
     = ConfigurationDict.__delitem__ self k2
  /\ (forall v, ConfigurationDict.__setitem__ dfn self k1 v
                = ConfigurationDict.__setitem__ dfn self k2 v)
  /\ (forall v ws self',
         ConfigurationDict.__setitem__ dfn self k1 v = (ws, inr self') ->
         self' = self
         \/ exists v', ConfigurationDict.__getitem__ self' k1 = inr v'
                       /\ ConfigurationDict.__getitem__ self' k2 = inr v')
  /\ (forall v,
         checked_section self = None ->
         is_None v = false ->
         exists self',
           ConfigurationDict.__setitem__ dfn self k1 v = ([], inr self')
           /\ ConfigurationDict.__getitem__ self' k2 = inr v)
  /\ (forall a b v,
         Str.lower a = Str.lower b ->
         ConfigurationDict.__getitem__ self (KStr a)
         = ConfigurationDict.__getitem__ self (KStr b)
         /\ ConfigurationDict.__setitem__ dfn self (KStr a) v
            = ConfigurationDict.__setitem__ dfn self (KStr b) v)
  /\ (forall z, _k (KInt z) = KInt z).
Proof.
  intros Hround H1 H2.
  pose proof (casings_normalize k k1 Hround H1) as E1.
  pose proof (casings_normalize k k2 Hround H2) as E2.
  unfold ConfigurationDict.__getitem__, ConfigurationDict.__contains__,
    ConfigurationDict.__delitem__, ConfigurationDict.__setitem__.
  rewrite E1, E2.
  repeat split; trivial.
  - intros v ws self' Hset.
    assert (Hset' : ConfigurationDict.__setitem__ dfn self k1 v
                    = (ws, inr self')).
    { unfold ConfigurationDict.__setitem__. now rewrite E1. }
    destruct (cd_setitem_inv dfn self self' k1 v ws Hset') as [-> | [v' ->]];
      [now left | right].
    exists v'. rewrite E1. simpl.
    unfold dict_getitem. now rewrite dict_get_set_same.
  - intros v Hsec Hv. rewrite Hsec, Hv. simpl.
    eexists. split; [reflexivity|]. simpl.
    unfold dict_getitem. now rewrite dict_get_set_same.
  - simpl. now rewrite H.
  - simpl. now rewrite H.
Qed.

(** C3 at the ASCII key "Channel Width" and its upper case. *)
Lemma keys_differing_by_case_are_one_entry_witness :
  ConfigurationDict.__getitem__ setup_dict (KStr (Str.upper `"Channel Width"))
  = ConfigurationDict.__getitem__ setup_dict (KStr `"Channel Width")
  /\ forall v,
       ConfigurationDict.__setitem__ Sample.dfn setup_dict
         (KStr (Str.upper `"Channel Width")) v
       = ConfigurationDict.__setitem__ Sample.dfn setup_dict
           (KStr `"Channel Width") v.
Proof.
  pose proof (keys_differing_by_case_are_one_entry Sample.dfn setup_dict
                `"Channel Width"
                (KStr (Str.upper `"Channel Width")) (KStr `"Channel Width")
                (lower_upper_ascii `"Channel Width" eq_refl)
                (or_intror (or_introl eq_refl)) (or_introl eq_refl))
    as (Hget & _ & _ & Hset & _).
  exact (conj Hget Hset).
Defined.

(** C3, as stated, fails: a value assigned under the key [sharp_s] is not
    found under the upper-cased key, which names another entry, "ss". *)
Lemma upper_cased_sharp_s_is_another_key :
  Str.upper sharp_s = `"SS"
  /\ exists self',
       ConfigurationDict.__setitem__ Sample.dfn
         (ConfigurationDict.__init__ None) (KStr sharp_s) (VInt 1)
       = ([], inr self')
       /\ ConfigurationDict.__getitem__ self' (KStr sharp_s) = inr (VInt 1)
       /\ ConfigurationDict.__getitem__ self' (KStr (Str.lower sharp_s))
          = inr (VInt 1)
       /\ ConfigurationDict.__getitem__ self' (KStr (Str.upper sharp_s))
          = inl (KeyError (MissingKey (KStr `"ss")))
       /\ ConfigurationDict.__contains__ self' (KStr (Str.upper sharp_s))
          = false.
Proof.
  split; [reflexivity|].
  eexists. split; [reflexivity|]. repeat split.
Qed.

(** ** Assignment of a value of the wrong type *)

(** C7, as amended.  In a checked assignment whose key passes validation
    and whose value is neither [None] nor the empty string, a value that is
    no instance of the type of the schema draws the wrong-type warning and
    is then handed to the coercion function of the section: what the
    function returns is stored under the normalized key, and when the
    function raises, its exception leaves the assignment and nothing is
    stored. *)
Theorem wrong_type_warns_and_coerces
    (dfn : Definitions) (self : ConfigurationDict) (sec k : key) (v : value)
    (typ : pytype) (ws : list warning) :
  checked_section self = Some sec ->
  verify_section_key dfn sec (_k k) = (ws, inr true) ->
  is_empty_str v = false ->
  is_None v = false ->
  get_config_value_type dfn sec (_k k) = Some typ ->
  isinstance v typ = false ->
  ConfigurationDict.__setitem__ dfn self k v
  = (ws ++ [WrongType sec (_k k) typ v],
     match get_config_value_func dfn sec (_k k) v with
     | inr v' => inr (with_data self (dict_set (_k k) v' (data self)))
     | inl e => inl e
     end).
Proof.
  intros Hsec Hver Hempty Hnone Htyp Hinst.
  rewrite (cd_setitem_valid dfn self sec k v ws Hsec Hver Hempty Hnone).
  now rewrite Htyp, Hinst.
Qed.

(** The string "20.5" for the number "channel width": warned, and stored
    as the number. *)
Lemma wrong_type_warns_and_coerces_witness :
  ConfigurationDict.__setitem__ Sample.dfn setup_dict
    (KStr `"Channel Width") (VStr `"20.5")
  = ([WrongType (KStr `"setup") (KStr `"channel width") T_Number
        (VStr `"20.5")],
     inr (with_data setup_dict
            [(KStr `"channel width",
              VFloat (S754_finite false 5770237022568448 (-48)))])).
Proof.
  exact (wrong_type_warns_and_coerces Sample.dfn setup_dict
           (KStr `"setup") (KStr `"Channel Width") (VStr `"20.5") T_Number []
           eq_refl eq_refl eq_refl eq_refl eq_refl eq_refl).
Defined.

(** C7, as stated, fails: the string "abc" for the number "channel width"
    is warned about, and the coercion then raises; nothing is written. *)
Lemma wrong_type_that_cannot_be_coerced_is_not_stored :
  ConfigurationDict.__setitem__ Sample.dfn setup_dict
    (KStr `"channel width") (VStr `"abc")
  = ([WrongType (KStr `"setup") (KStr `"channel width") T_Number
        (VStr `"abc")],
     inl ValueError).
Proof. reflexivity. Qed.

(** ** The text format *)

(** The floats of the examples are those that Python reads from their
    literals. *)
Example float_literals :
  Num.of_str `"1.0" = Some float_1
  /\ Num.of_str `"2.0" = Some float_2
  /\ Num.of_str `"0.16" = Some float_016
  /\ Num.of_Z 1 = float_1
  /\ Num.format_fixed 12 float_016 = `"0.160000000000".
Proof. repeat split. Qed.

(** C6.  The list [[1.0, 2.0]] is written as
    "[1.000000000000, 2.000000000000]", and the heuristic parser reads that
    string back as the list [[1.0, 2.0]]; in general a list is written as
    its elements, each written as a value is, between brackets and joined
    by ", ", and a float is written with twelve digits after the point. *)
Theorem list_round_trip (dfn : Definitions) :
  Num.of_str `"1.0" = Some float_1
  /\ Num.of_str `"2.0" = Some float_2
  /\ keyval_typ2str `"x" (VList [VFloat float_1; VFloat float_2])
     = (`"x", `"[1.000000000000, 2.000000000000]")
  /\ keyval_str2typ dfn `"x" (VStr `"[1.000000000000, 2.000000000000]")
     = inr (Some (`"x", VList [VFloat float_1; VFloat float_2]))
  /\ (forall var l,
         snd (keyval_typ2str var (VList l))
         = `"[" ++ Str.join `", "
                     (map (fun it => snd (keyval_typ2str var it)) l) ++ `"]")
  /\ (forall var x,
         snd (keyval_typ2str var (VFloat x)) = Num.format_fixed 12 x).
Proof.
  split; [|split; [|split; [|split; [|split]]]].
  - vm_compute. reflexivity.
  - vm_compute. reflexivity.
  - vm_compute. reflexivity.
  - vm_compute. reflexivity.
  - intros var l. reflexivity.
  - intros var x. reflexivity.
Qed.

(** C5 does not hold of the code.  A line with an empty key before the
    "=" makes [keyval_str2typ] return [None], and unpacking it raises
    [TypeError]; a bracketed value whose elements are no numbers raises the
    [ValueError] of [float]; a key line before the first section header
    raises [UnboundLocalError].  Lines without "=" and lines with an empty
    value are dropped, as the claim says. *)
Theorem load_from_file_raises_on_malformed_lines :
  load_from_file Sample.dfn [line "[bogus]"; line "= 1"]
  = ([], inl TypeError)
  /\ load_from_file Sample.dfn [line "[bogus]"; line "x = [a, b]"]
     = ([], inl ValueError)
  /\ (forall dfn, load_from_file dfn [line "x = 1"]
                  = ([], inl UnboundLocalError))
  /\ load_from_file Sample.dfn
       [line "[bogus]"; line "junk"; line "x ="; line "foo = 1 # one"]
     = ([], inr {| sections :=
                     [(KStr `"bogus",
                       {| section := None;
                          data := [(KStr `"foo", VFloat float_1)] |})] |}).
Proof.
  split; [|split; [|split]].
  - vm_compute. reflexivity.
  - vm_compute. reflexivity.
  - intros dfn. vm_compute. reflexivity.
  - vm_compute. reflexivity.
Qed.

(** ** Construction: the default values of the section "filtering" *)

Section Defaults.
Variable dfn : Definitions.
Hypothesis filtering_is_a_section : in_config_keys dfn filtering = true.

Lemma verify_section_key_known (sec k : key) :
  config_key_exists dfn sec k = true ->
  verify_section_key dfn sec k = ([], inr true).
Proof.
  intros H. unfold verify_section_key, verify_section_key_wcount.
  now rewrite H.
Qed.

Lemma Configuration_set_first (flag : bool) (k : key) (v : value) :
  Configuration.assign dfn (only_filtering flag []) filtering k v
  = Configuration.assign dfn
      {| disable_checks := flag; _cfg := {| sections := [] |} |}
      filtering k v.
Proof.
  unfold Configuration.assign, Configuration.__getitem__,
    Configuration.provision.
  rewrite filtering_is_a_section. reflexivity.
Qed.

Lemma Configuration_set_default (flag : bool) (d : pydict value)
    (k : str) (v : value) :
  (flag = false ->
   config_key_exists dfn filtering (KStr (Str.lower k)) = true
   /\ get_config_value_func dfn filtering (KStr (Str.lower k)) v = inr v) ->
  is_None v = false ->
  is_empty_str v = false ->
  exists ws,
    Configuration.assign dfn (only_filtering flag d) filtering (KStr k) v
    = (ws, inr (only_filtering flag (dict_set (KStr (Str.lower k)) v d))).
Proof.
  intros Hschema Hnone Hempty.
  unfold Configuration.assign, Configuration.__getitem__,
    Configuration.provision. simpl.
  destruct flag.
  - rewrite cd_setitem_unchecked by easy. simpl. now exists [].
  - destruct (Hschema eq_refl) as [Hknown Hconv].
    rewrite (cd_setitem_valid dfn _ filtering (KStr k) v []) by
      (try apply verify_section_key_known; easy).
    simpl _k. rewrite Hconv. simpl. eexists. reflexivity.
Qed.

Lemma defaults_loop (flag : bool) (d : pydict value) (items : list str) :
  for_each items
    (fun self item0 =>
       '(self, item) <- lift (Configuration.__getitem__ dfn self filtering) ;;
       if negb (ConfigurationDict.__contains__ item (KStr item0)) then
         raise (KeyError (NoDefaultValue item0))
       else ret self)
    (only_filtering flag d)
  = ([], match find (fun item0 =>
                       negb (dict_contains (_k (KStr item0)) d)) items with
         | Some item0 => inl (KeyError (NoDefaultValue item0))
         | None => inr (only_filtering flag d)
         end).
Proof.
  set (body := fun (self : Configuration) (item0 : str) => _).
  assert (Hbody : forall item0,
             body (only_filtering flag d) item0
             = if negb (dict_contains (_k (KStr item0)) d)
               then raise (KeyError (NoDefaultValue item0))
               else ret (only_filtering flag d)).
  { intros item0.
    unfold body, Configuration.__getitem__, Configuration.provision. simpl.
    unfold ConfigurationDict.__contains__. simpl.
    now destruct (dict_contains (KStr (Str.lower item0)) d). }
  induction items as [|item0 items IH]; [reflexivity|].
  cbn [for_each find]. rewrite Hbody.
  destruct (negb (dict_contains (_k (KStr item0)) d)).
  - reflexivity.
  - rewrite bind_ret. exact IH.
Qed.

End Defaults.

Lemma init_default_filter_values (dfn : Definitions) (flag : bool) :
  in_config_keys dfn filtering = true ->
  (flag = false -> schema_takes_defaults dfn) ->
  exists ws,
    Configuration._init_default_filter_values dfn
      {| disable_checks := flag; _cfg := {| sections := [] |} |}
    = (ws,
       match find without_default (CFG_ANALYSIS_filtering dfn) with
       | Some item0 => inl (KeyError (NoDefaultValue item0))
       | None => inr (only_filtering flag default_filter_values)
       end).
Proof.
  intros Hsection Hschema.
  assert (Hkv : forall k v,
             In (KStr (Str.lower k), v) default_filter_values ->
             flag = false ->
             config_key_exists dfn filtering (KStr (Str.lower k)) = true
             /\ get_config_value_func dfn filtering (KStr (Str.lower k)) v
                = inr v).
  { intros k v Hin Hflag. specialize (Hschema Hflag).
    unfold schema_takes_defaults in Hschema.
    rewrite Forall_forall in Hschema. exact (Hschema _ Hin). }
  destruct (Configuration_set_default dfn flag []
              `"remove invalid events" (VBool false)) as [ws1 E1];
    [apply Hkv; simpl; tauto | easy | easy |].
  rewrite (Configuration_set_first dfn Hsection) in E1.
  destruct (Configuration_set_default dfn flag
              [(KStr `"remove invalid events", VBool false)]
              `"enable filters" (VBool true)) as [ws2 E2];
    [apply Hkv; simpl; tauto | easy | easy |].
  destruct (Configuration_set_default dfn flag
              [(KStr `"remove invalid events", VBool false);
               (KStr `"enable filters", VBool true)]
              `"limit events" (VInt 0)) as [ws3 E3];
    [apply Hkv; simpl; tauto | easy | easy |].
  destruct (Configuration_set_default dfn flag
              [(KStr `"remove invalid events", VBool false);
               (KStr `"enable filters", VBool true);
               (KStr `"limit events", VInt 0)]
              `"polygon filters" (VList [])) as [ws4 E4];
    [apply Hkv; simpl; tauto | easy | easy |].
  destruct (Configuration_set_default dfn flag
              [(KStr `"remove invalid events", VBool false);
               (KStr `"enable filters", VBool true);
               (KStr `"limit events", VInt 0);
               (KStr `"polygon filters", VList [])]
              `"hierarchy parent" (VStr `"none")) as [ws5 E5];
    [apply Hkv; simpl; tauto | easy | easy |].
  eexists. unfold Configuration._init_default_filter_values.
  eapply bind_returns; [exact E1|].
  eapply bind_returns; [exact E2|].
  eapply bind_returns; [exact E3|].
  eapply bind_returns; [exact E4|].
  eapply bind_returns; [exact E5|].
  exact (defaults_loop dfn flag default_filter_values
           (CFG_ANALYSIS_filtering dfn)).
Qed.

(** C2.  For a schema that has the section "filtering" and, where checks
    are enabled, takes the defaults: constructing a [Configuration] from no
    file and no dictionary raises the [KeyError] of the missing default for
    the first key of the filtering-analysis list that is not among the
    defaults, and when there is no such key it returns the configuration
    whose section "filtering" holds the five defaults. *)
Theorem Configuration_bootstraps_filter_defaults
    (dfn : Definitions) (flag : bool) :
  in_config_keys dfn filtering = true ->
  (flag = false -> schema_takes_defaults dfn) ->
  exists ws,
    Configuration.__init__ dfn [] no_cfg flag
    = (ws,
       match find without_default (CFG_ANALYSIS_filtering dfn) with
       | Some item0 => inl (KeyError (NoDefaultValue item0))
       | None => inr (only_filtering flag default_filter_values)
       end).
Proof.
  intros Hsection Hschema.
  destruct (init_default_filter_values dfn flag Hsection Hschema) as [ws E].
  unfold Configuration.__init__. cbv zeta. rewrite E.
  destruct (find without_default (CFG_ANALYSIS_filtering dfn)) as [item0|].
  - exists ws. reflexivity.
  - exists (ws ++ []). reflexivity.
Qed.

(** C2 at the sample registry, with checks enabled. *)
Lemma Configuration_bootstraps_filter_defaults_witness :
  exists ws,
    Configuration.__init__ Sample.dfn [] no_cfg false
    = (ws, inr (only_filtering false default_filter_values)).
Proof.
  apply (Configuration_bootstraps_filter_defaults Sample.dfn false).
  - reflexivity.
  - intros _. repeat constructor.
Defined.

(** ** Update *)

Lemma sm_getitem_setitem (m : SectionMap) (x sec : key)
    (item : ConfigurationDict) :
  sm_getitem (sm_setitem m x item) sec
  = if key_eqb (_k x) (_k sec) then inr item else sm_getitem m sec.
Proof.
  unfold sm_getitem, sm_setitem, dict_getitem. simpl.
  destruct (key_eqb (_k x) (_k sec)) eqn:E.
  - apply key_eqb_eq in E. rewrite <- E. now rewrite dict_get_set_same.
  - apply key_eqb_neq in E. now rewrite dict_get_set_other.
Qed.

Lemma section_kept_refl (mentioned : key -> Prop) (item : ConfigurationDict) :
  section_kept mentioned item item.
Proof. repeat split; auto. Qed.

Lemma section_kept_trans (m1 m2 m3 : key -> Prop)
    (a b c : ConfigurationDict) :
  (forall k, m1 k -> m3 k) ->
  (forall k, m2 k -> m3 k) ->
  section_kept m1 a b -> section_kept m2 b c -> section_kept m3 a c.
Proof.
  intros H1 H2 (Sab & Cab & Gab) (Sbc & Cbc & Gbc).
  repeat split.
  - congruence.
  - auto.
  - intros k Hk. rewrite Gbc, Gab; auto.
Qed.

Section Update.
Variable dfn : Definitions.

Lemma cd_setitem_kept (self self' : ConfigurationDict) (k : key) (v : value)
    (ws : list warning) :
  ConfigurationDict.__setitem__ dfn self k v = (ws, inr self') ->
  section_kept (fun n => n = _k k) self self'.
Proof.
  intros H.
  destruct (cd_setitem_inv dfn self self' k v ws H) as [-> | [v' ->]].
  - apply section_kept_refl.
  - repeat split.
    + intros k0. unfold ConfigurationDict.__contains__. simpl.
      apply dict_contains_set.
    + intros k0 Hk0. unfold ConfigurationDict.__getitem__, dict_getitem. simpl.
      rewrite dict_get_set_other; [reflexivity | congruence].
Qed.

Context {D1 : Type} `{Mapping D1 value}.

(** [ConfigurationDict.update] touches the keys of its argument only. *)
Lemma cd_update_kept (E : D1) (self self' : ConfigurationDict)
    (ws : list warning) :
  ConfigurationDict.update dfn self E = (ws, inr self') ->
  section_kept (fun n => exists k', In k' (keys E) /\ n = _k k') self self'.
Proof.
  unfold ConfigurationDict.update.
  apply (for_each_rel
           (fun self key =>
              v <- lift (getitem E key) ;;
              ConfigurationDict.__setitem__ dfn self key v)
           (fun xs a b =>
              section_kept (fun n => exists k', In k' xs /\ n = _k k') a b)).
  - intros s. apply section_kept_refl.
  - intros x xs s s1 s2 ws0 Hbody Hrest.
    apply bind_inv in Hbody as (ws1 & v & ws2 & _ & Hset & _).
    apply cd_setitem_kept in Hset.
    eapply section_kept_trans; [| |exact Hset|exact Hrest].
    + intros k ->. exists x. split; [now left | reflexivity].
    + intros k (k' & Hin & ->). exists k'. split; [now right | reflexivity].
Qed.

End Update.

Section ConfigurationUpdate.
Variable dfn : Definitions.
Context {D2 D1 : Type} `{Mapping D2 D1} `{Mapping D1 value}.

Lemma update_section_kept (newcfg : D2) (self self' : Configuration)
    (x : key) (ws : list warning) :
  Configuration.update_section dfn newcfg self x = (ws, inr self') ->
  configuration_kept newcfg [x] self self'.
Proof.
  unfold Configuration.update_section. intros Hturn.
  apply bind_inv in Hturn as (ws1 & item & ws2 & Hitem & Hturn & _).
  apply lift_inv in Hitem as [Hitem _].
  apply bind_inv in Hturn as (ws3 & E & ws4 & HE & Hturn & _).
  apply lift_inv in HE as [HE _].
  apply bind_inv in Hturn as (ws5 & item2 & ws6 & Hupd & Hret & _).
  injection Hret as _ <-.
  apply cd_update_kept in Hupd.
  split.
  { now destruct (negb (sm_contains (_cfg self) x)). }
  intros sec item0 Hsec.
  destruct (key_eqb (_k x) (_k sec)) eqn:Hx.
  - (* the section that this turn updates *)
    apply key_eqb_eq in Hx.
    assert (Hthere : sm_contains (_cfg self) x = true).
    { unfold sm_contains, dict_contains. rewrite Hx.
      unfold sm_getitem, dict_getitem in Hsec.
      now destruct (dict_get (_k sec) (sections (_cfg self))). }
    rewrite Hthere in *. simpl negb in *. cbv iota in *.
    assert (item = item0).
    { unfold sm_getitem in *. rewrite Hx in Hitem. congruence. }
    subst item0. exists item2. split.
    + simpl. rewrite sm_getitem_setitem, Hx. now rewrite key_eqb_refl.
    + eapply section_kept_trans;
        [| |exact Hupd|exact (section_kept_refl (fun _ => False) item2)].
      * intros n (k' & Hin & ->). exists x, E, k'.
        repeat split; auto. now left.
      * intros n [].
  - (* another section *)
    exists item0. split; [|apply section_kept_refl].
    simpl. rewrite sm_getitem_setitem, Hx.
    destruct (negb (sm_contains (_cfg self) x)); [|exact Hsec].
    simpl. now rewrite sm_getitem_setitem, Hx.
Qed.

Lemma configuration_kept_trans (newcfg : D2) (x : key) (xs : list key)
    (a b c : Configuration) :
  configuration_kept newcfg [x] a b ->
  configuration_kept newcfg xs b c ->
  configuration_kept newcfg (x :: xs) a c.
Proof.
  intros [Fab Kab] [Fbc Kbc]. split; [congruence|].
  intros sec item Hsec.
  destruct (Kab sec item Hsec) as (item1 & H1 & K1).
  destruct (Kbc sec item1 H1) as (item2 & H2 & K2).
  exists item2. split; [exact H2|].
  eapply section_kept_trans; [| |exact K1|exact K2].
  - intros n (sec' & E & k' & [<- | []] & Hrest).
    exists x, E, k'. split; [now left | exact Hrest].
  - intros n (sec' & E & k' & Hin & Hrest).
    exists sec', E, k'. split; [now right | exact Hrest].
Qed.

(** [Configuration.update] keeps the flag and every section, and in every
    section the keys, and the values of the keys that it does not
    mention. *)
Lemma Configuration_update_kept (newcfg : D2) (self self' : Configuration)
    (ws : list warning) :
  Configuration.update dfn self newcfg = (ws, inr self') ->
  configuration_kept newcfg (keys newcfg) self self'.
Proof.
  unfold Configuration.update.
  apply (for_each_rel (Configuration.update_section dfn newcfg)
           (configuration_kept newcfg)).
  - intros s. split; [reflexivity|]. intros sec item Hsec.
    exists item. split; [exact Hsec | apply section_kept_refl].
  - intros x xs s s1 s2 ws0 Hturn Hrest.
    eapply configuration_kept_trans; [|exact Hrest].
    eapply update_section_kept; eauto.
Qed.

End ConfigurationUpdate.

Section UpdateOne.
Variable dfn : Definitions.

Lemma cd_setitem_takes (self : ConfigurationDict) (k : key) (v : value) :
  takes dfn (checked_section self) k v ->
  is_None v = false ->
  is_empty_str v = false ->
  exists ws v',
    ConfigurationDict.__setitem__ dfn self k v
    = (ws, inr (with_data self (dict_set (_k k) v' (data self)))).
Proof.
  intros Htakes Hnone Hempty.
  destruct (checked_section self) as [sec|] eqn:Hsec.
  - destruct Htakes as (Hknown & v' & Hconv).
    rewrite (cd_setitem_valid dfn self sec k v []) by
      (try apply verify_section_key_known; easy).
    rewrite Hconv. eexists. now exists v'.
  - rewrite cd_setitem_unchecked by easy. now exists [], v.
Qed.

Lemma dict_getitem_one {V} (k : key) (v : V) :
  dict_getitem k [(k, v)] = inr v.
Proof. unfold dict_getitem. simpl. now rewrite key_eqb_refl. Qed.

Lemma cd_update_one (self : ConfigurationDict) (k : key) (v : value) :
  ConfigurationDict.update dfn self [(k, v)]
  = (item <- ConfigurationDict.__setitem__ dfn self k v ;; ret item).
Proof.
  unfold ConfigurationDict.update.
  cbn [keys dict_Mapping dict_keys map fst for_each].
  cbn [getitem dict_Mapping]. rewrite dict_getitem_one.
  unfold lift. rewrite bind_value.
  now destruct (ConfigurationDict.__setitem__ dfn self k v).
Qed.

(** An update by one key of one section. *)
Lemma Configuration_update_one (self : Configuration) (sec k : key)
    (v : value) :
  takes dfn (checks_of self sec) k v ->
  is_None v = false ->
  is_empty_str v = false ->
  exists ws self' item,
    Configuration.update dfn self [(sec, [(k, v)])] = (ws, inr self')
    /\ sm_getitem (_cfg self') sec = inr item
    /\ ConfigurationDict.__contains__ item k = true
    /\ checks_of self' sec = checks_of self sec.
Proof.
  intros Htakes Hnone Hempty.
  unfold Configuration.update. cbn [keys dict_Mapping dict_keys map fst].
  cbn [for_each]. unfold Configuration.update_section.
  cbn [getitem dict_Mapping]. rewrite dict_getitem_one.
  set (self1 := if negb (sm_contains (_cfg self) sec) then _ else self).
  assert (Htarget : exists item,
             sm_getitem (_cfg self1) sec = inr item
             /\ checked_section item = checks_of self sec).
  { unfold self1, checks_of, sm_contains, sm_getitem, dict_contains,
      dict_getitem.
    destruct (dict_get (_k sec) (sections (_cfg self))) as [item|] eqn:E;
      simpl.
    - exists item. now rewrite E.
    - exists (Configuration.new_section self sec).
      now rewrite dict_get_set_same. }
  destruct Htarget as (item & Hitem & Hcheck).
  rewrite Hitem. rewrite <- Hcheck in Htakes.
  destruct (cd_setitem_takes item k v Htakes Hnone Hempty)
    as (ws & v' & Hset).
  eexists. eexists. eexists. split.
  { eapply bind_returns; [|reflexivity].
    eapply bind_returns; [reflexivity|].
    eapply bind_returns; [reflexivity|].
    eapply bind_returns; [|reflexivity].
    rewrite cd_update_one. eapply bind_returns; [exact Hset | reflexivity]. }
  cbn [_cfg with_cfg]. rewrite sm_getitem_setitem, key_eqb_refl.
  split; [reflexivity|]. split.
  - unfold ConfigurationDict.__contains__, dict_contains. simpl.
    now rewrite dict_get_set_same.
  - unfold checks_of. cbn [_cfg with_cfg].
    rewrite sm_getitem_setitem, key_eqb_refl. exact Hcheck.
Qed.

End UpdateOne.

(** C4, as amended.  An update that returns keeps every section of the
    configuration: the section is there afterwards, under the same checks,
    with every key that it had, and with the value it had for every key
    that the update does not mention for this section.  And where the
    section "setup" is unchecked, or is checked under a name for which the
    schema knows "channel width" and "flow rate" and coerces 20 and 0.16,
    the update by [{"setup": {"channel width": 20}}] followed by the update
    by [{"setup": {"flow rate": 0.16}}] returns, with both keys in the
    section "setup". *)
Theorem update_merges_at_the_key_level
    (dfn : Definitions) (self : Configuration) :
  (forall (newcfg : pydict (pydict value)) ws self',
      Configuration.update dfn self newcfg = (ws, inr self') ->
      forall sec item,
        sm_getitem (_cfg self) sec = inr item ->
        exists item',
          sm_getitem (_cfg self') sec = inr item'
          /\ section item' = section item
          /\ (forall k, ConfigurationDict.__contains__ item k = true ->
                        ConfigurationDict.__contains__ item' k = true)
          /\ (forall k, ~ mentions newcfg (keys newcfg) sec (_k k) ->
                        ConfigurationDict.__getitem__ item' k
                        = ConfigurationDict.__getitem__ item k))
  /\ (takes dfn (checks_of self setup) (KStr `"channel width") (VInt 20) ->
      takes dfn (checks_of self setup) (KStr `"flow rate")
        (VFloat float_016) ->
      exists ws self2 item,
        (self1 <- Configuration.update dfn self channel_width_20 ;;
         Configuration.update dfn self1 flow_rate_016)
        = (ws, inr self2)
        /\ sm_getitem (_cfg self2) setup = inr item
        /\ ConfigurationDict.__contains__ item (KStr `"channel width") = true
        /\ ConfigurationDict.__contains__ item (KStr `"flow rate") = true).
Proof.
  split.
  - intros newcfg ws self' Hupd sec item Hsec.
    destruct (Configuration_update_kept dfn newcfg self self' ws Hupd)
      as [_ Hkept].
    destruct (Hkept sec item Hsec) as (item' & Hsec' & Hs & Hc & Hg).
    exists item'. auto.
  - intros Hwidth Hrate.
    destruct (Configuration_update_one dfn self setup
                (KStr `"channel width") (VInt 20) Hwidth eq_refl eq_refl)
      as (ws1 & self1 & item1 & Hupd1 & Hsec1 & Hin1 & Hchecks).
    rewrite <- Hchecks in Hrate.
    destruct (Configuration_update_one dfn self1 setup
                (KStr `"flow rate") (VFloat float_016) Hrate eq_refl eq_refl)
      as (ws2 & self2 & item2 & Hupd2 & Hsec2 & Hin2 & _).
    exists (ws1 ++ ws2), self2, item2.
    split; [|split; [exact Hsec2|split; [|exact Hin2]]].
    + eapply bind_returns; [exact Hupd1 | exact Hupd2].
    + destruct (Configuration_update_kept dfn flow_rate_016 self1 self2 ws2
                  Hupd2) as [_ Hkept].
      destruct (Hkept setup item1 Hsec1) as (item' & Hsec' & _ & Hc & _).
      rewrite Hsec2 in Hsec'. injection Hsec' as <-. now apply Hc.
Qed.

(** C4 at the sample registry, from the configuration of the defaults. *)
Lemma update_merges_at_the_key_level_witness :
  exists ws self2 item,
    (self1 <- Configuration.update Sample.dfn
                (only_filtering false default_filter_values)
                channel_width_20 ;;
     Configuration.update Sample.dfn self1 flow_rate_016)
    = (ws, inr self2)
    /\ sm_getitem (_cfg self2) setup = inr item
    /\ ConfigurationDict.__contains__ item (KStr `"channel width") = true
    /\ ConfigurationDict.__contains__ item (KStr `"flow rate") = true.
Proof.
  apply (update_merges_at_the_key_level Sample.dfn
           (only_filtering false default_filter_values)).
  - split; [reflexivity|]. eexists. reflexivity.
  - split; [reflexivity|]. eexists. reflexivity.
Defined.

(** C4, as stated, fails: in a configuration whose section "setup" was
    made under the name "Setup", the section checks under that name, which
    the schema does not know; both assignments are dropped, each with the
    unknown-section warning, and the section stays empty. *)
Lemma section_made_as_Setup_takes_neither_key :
  exists self self2 item,
    Configuration.__init__ Sample.dfn []
      [(KStr `"Setup", ([] : pydict value))] false
    = ([], inr self)
    /\ (self1 <- Configuration.update Sample.dfn self channel_width_20 ;;
        Configuration.update Sample.dfn self1 flow_rate_016)
       = ([UnknownSection (KStr `"Setup"); UnknownSection (KStr `"Setup")],
          inr self2)
    /\ sm_getitem (_cfg self2) setup = inr item
    /\ section item = Some (KStr `"Setup")
    /\ data item = []
    /\ ConfigurationDict.__contains__ item (KStr `"channel width") = false
    /\ ConfigurationDict.__contains__ item (KStr `"flow rate") = false.
Proof.
  eexists. eexists. eexists.
  split; [vm_compute; reflexivity|].
  split; [vm_compute; reflexivity|].
  split; [vm_compute; reflexivity|].
  repeat split.
Qed.

(** ** Copy *)

Lemma for_each_inv {A S} (body : S -> A -> M S) (P : S -> Prop) :
  (forall s x ws s', P s -> body s x = (ws, inr s') -> P s') ->
  forall xs s ws s', P s -> for_each xs body s = (ws, inr s') -> P s'.
Proof.
  intros Hstep xs s ws s' Hs Hloop. revert Hs.
  apply (for_each_rel body (fun _ a b => P a -> P b)) with (xs := xs)
                                                           (ws := ws).
  - auto.
  - intros x xs0 a b c ws0 Hbody Hrest Ha. eauto.
  - exact Hloop.
Qed.

Section Checking.
Variable dfn : Definitions.

Lemma checking_new_section (self : Configuration) (x : key) :
  checking self ->
  checking (with_cfg self (sm_setitem (_cfg self) x
                             (Configuration.new_section self x))).
Proof.
  intros [Hflag Hnamed]. split; [exact Hflag|].
  intros sec item. simpl. rewrite sm_getitem_setitem.
  destruct (key_eqb (_k x) (_k sec)) eqn:E.
  - intros Hitem. injection Hitem as <-. exists x.
    unfold Configuration.new_section. rewrite Hflag. split; [reflexivity|].
    now apply key_eqb_eq.
  - apply Hnamed.
Qed.

Lemma checking_write_back (self : Configuration) (x : key)
    (item item' : ConfigurationDict) :
  checking self ->
  sm_getitem (_cfg self) x = inr item ->
  section item' = section item ->
  checking (with_cfg self (sm_setitem (_cfg self) x item')).
Proof.
  intros [Hflag Hnamed] Hitem Hsection. split; [exact Hflag|].
  intros sec item0. simpl. rewrite sm_getitem_setitem.
  destruct (key_eqb (_k x) (_k sec)) eqn:E.
  - intros H0. injection H0 as <-. apply key_eqb_eq in E.
    destruct (Hnamed x item Hitem) as (name & Hname & Hk).
    exists name. split; congruence.
  - apply Hnamed.
Qed.

Lemma checking_provision (self : Configuration) (sec : key) :
  checking self -> checking (Configuration.provision dfn self sec).
Proof.
  intros Hself. unfold Configuration.provision.
  destruct (negb (Configuration.__contains__ self sec)
            && (in_config_keys dfn sec || key_is sec "user"));
    [now apply checking_new_section | exact Hself].
Qed.

Lemma checking_Configuration_set (self self' : Configuration) (sec k : key)
    (v : value) (ws : list warning) :
  checking self ->
  Configuration.assign dfn self sec k v = (ws, inr self') ->
  checking self'.
Proof.
  intros Hself Hset. unfold Configuration.assign in Hset.
  apply bind_inv in Hset as (ws1 & [self1 item] & ws2 & Hget & Hset & _).
  apply lift_inv in Hget as [Hget _].
  apply bind_inv in Hset as (ws3 & item' & ws4 & Hitem & Hret & _).
  injection Hret as _ <-.
  unfold Configuration.__getitem__ in Hget.
  destruct (sm_getitem (_cfg (Configuration.provision dfn self sec)) sec)
    as [e|item0] eqn:Hsec; [discriminate|].
  injection Hget as <- <-.
  apply cd_setitem_kept in Hitem. destruct Hitem as [Hsection _].
  eapply checking_write_back; eauto using checking_provision.
Qed.

Lemma checking_init_default_filter_values (self self' : Configuration)
    (ws : list warning) :
  checking self ->
  Configuration._init_default_filter_values dfn self = (ws, inr self') ->
  checking self'.
Proof.
  intros Hself Hinit. unfold Configuration._init_default_filter_values in Hinit.
  repeat match type of Hinit with
         | bind (Configuration.assign _ _ _ _ _) _ = _ =>
             let ws1 := fresh "ws" in
             let s1 := fresh "self" in
             let ws2 := fresh "ws" in
             let Hset := fresh "Hset" in
             apply bind_inv in Hinit as (ws1 & s1 & ws2 & Hset & Hinit & _);
             apply checking_Configuration_set in Hset; [|assumption]
         end.
  revert Hinit. apply for_each_inv; [|assumption].
  clear. intros s item0 wsb s' Hs Hbody.
  apply bind_inv in Hbody as (wsg & [s1 item] & wsr & Hget & Hbody & _).
  apply lift_inv in Hget as [Hget _].
  unfold Configuration.__getitem__ in Hget.
  destruct (sm_getitem _ _) as [e|it]; [discriminate|].
  injection Hget as <- <-.
  destruct (negb (ConfigurationDict.__contains__ it (KStr item0)));
    [discriminate|].
  injection Hbody as _ <-. now apply checking_provision.
Qed.

Context {D2 D1 : Type} `{Mapping D2 D1} `{Mapping D1 value}.

Lemma checking_Configuration_update (newcfg : D2)
    (self self' : Configuration) (ws : list warning) :
  checking self ->
  Configuration.update dfn self newcfg = (ws, inr self') ->
  checking self'.
Proof.
  intros Hself. unfold Configuration.update.
  apply for_each_inv; [|exact Hself].
  clear. intros s x ws s' Hs Hturn.
  unfold Configuration.update_section in Hturn.
  set (s1 := if negb (sm_contains (_cfg s) x) then _ else s) in Hturn.
  assert (Hs1 : checking s1).
  { unfold s1. destruct (negb (sm_contains (_cfg s) x));
      [now apply checking_new_section | exact Hs]. }
  apply bind_inv in Hturn as (ws1 & item & ws2 & Hitem & Hturn & _).
  apply lift_inv in Hitem as [Hitem _].
  apply bind_inv in Hturn as (ws3 & E & ws4 & _ & Hturn & _).
  apply bind_inv in Hturn as (ws5 & item2 & ws6 & Hupd & Hret & _).
  injection Hret as _ <-.
  apply cd_update_kept in Hupd. destruct Hupd as [Hsection _].
  eapply checking_write_back; eauto.
Qed.

End Checking.

(** C10, as amended.  Whenever [copy] returns, the flag [disable_checks] of
    the configuration that it returns is off, whatever the flag of the
    original is; and every section of the copy carries a section name, the
    one it is stored under up to case: the sections of the copy are checked
    again. *)
Theorem copy_returns_a_checking_Configuration
    (dfn : Definitions) (self self' : Configuration) (ws : list warning) :
  Configuration.copy dfn self = (ws, inr self') ->
  disable_checks self' = false
  /\ forall sec item,
       sm_getitem (_cfg self') sec = inr item ->
       exists name, section item = Some name /\ _k name = _k sec.
Proof.
  unfold Configuration.copy, Configuration.__init__. intros Hcopy.
  apply bind_inv in Hcopy as (ws1 & self1 & ws2 & Hinit & Hcopy & _).
  apply bind_inv in Hcopy as (ws3 & self2 & ws4 & Hupd & Hret & _).
  injection Hret as _ <-.
  apply checking_init_default_filter_values in Hinit.
  - exact (checking_Configuration_update dfn (_cfg self) self1 self2 ws3
             Hinit Hupd).
  - split; [reflexivity|]. intros sec item H. discriminate H.
Qed.

(** C10 at the configuration of the defaults, made without checks. *)
Lemma copy_returns_a_checking_Configuration_witness :
  Configuration.copy Sample.dfn (only_filtering true default_filter_values)
  = ([], inr (only_filtering false default_filter_values))
  /\ disable_checks (only_filtering false default_filter_values) = false
  /\ forall sec item,
       sm_getitem (_cfg (only_filtering false default_filter_values)) sec
       = inr item ->
       exists name, section item = Some name /\ _k name = _k sec.
Proof.
  split; [reflexivity|].
  exact (copy_returns_a_checking_Configuration Sample.dfn
           (only_filtering true default_filter_values)
           (only_filtering false default_filter_values) [] eq_refl).
Defined.

(** C10, as stated, fails: a configuration made without checks holds the
    string "abc" for the number "channel width"; its copy checks the value
    again, and the coercion raises: [copy] returns nothing. *)
Lemma copy_of_an_unchecked_Configuration_raises :
  exists self,
    Configuration.__init__ Sample.dfn [] channel_width_abc true = ([], inr self)
    /\ disable_checks self = true
    /\ Configuration.copy Sample.dfn self
       = ([WrongType setup (KStr `"channel width") T_Number (VStr `"abc")],
          inl ValueError).
Proof.
  eexists. split; [vm_compute; reflexivity|]. split; reflexivity.
Qed.

(** * Further properties *)

(** ** Dictionaries: keys and lengths *)

Section DictKeys.
Variable V : Type.
Implicit Types (d : pydict V) (k : key) (v : V).

Lemma dict_contains_In d k : dict_contains k d = true <-> In k (dict_keys d).
Proof.
  unfold dict_contains. induction d as [|[k' v'] d IH]; simpl.
  - split; [discriminate | tauto].
  - destruct (key_eqb k' k) eqn:E.
    + apply key_eqb_eq in E. subst. split; auto.
    + apply key_eqb_neq in E. rewrite IH. split; [auto | intros [H|H]; tauto].
Qed.

Lemma dict_get_None d k : dict_get k d = None <-> ~ In k (dict_keys d).
Proof.
  rewrite <- dict_contains_In. unfold dict_contains.
  destruct (dict_get k d); split; congruence.
Qed.

Lemma dict_keys_set d k v :
  dict_keys (dict_set k v d)
  = if dict_contains k d then dict_keys d else dict_keys d ++ [k].
Proof.
  unfold dict_contains. induction d as [|[k' v'] d IH]; simpl; [reflexivity|].
  destruct (key_eqb k' k) eqn:E; simpl; [reflexivity|].
  rewrite IH. now destruct (dict_get k d).
Qed.

Lemma dict_get_remove_other d k k' :
  k <> k' -> dict_get k' (dict_remove k d) = dict_get k' d.
Proof.
  intros Hne. induction d as [|[k0 v0] d IH]; simpl; [reflexivity|].
  destruct (key_eqb k0 k) eqn:E; simpl.
  - apply key_eqb_eq in E. subst k0. apply key_eqb_neq in Hne.
    now rewrite Hne.
  - now rewrite IH.
Qed.

Lemma dict_keys_remove_incl d k k' :
  In k' (dict_keys (dict_remove k d)) -> In k' (dict_keys d).
Proof.
  induction d as [|[k0 v0] d IH]; simpl; [tauto|].
  destruct (key_eqb k0 k); simpl; tauto.
Qed.

Lemma dict_remove_NoDup d k :
  NoDup (dict_keys d) ->
  NoDup (dict_keys (dict_remove k d)) /\ ~ In k (dict_keys (dict_remove k d)).
Proof.
  induction d as [|[k0 v0] d IH]; simpl; intros Hnd.
  - split; [constructor | tauto].
  - inversion Hnd as [|? ? Hnotin Hnd']; subst.
    destruct (key_eqb k0 k) eqn:E; simpl.
    + apply key_eqb_eq in E. subst. now split.
    + apply key_eqb_neq in E. destruct (IH Hnd') as [IH1 IH2].
      split.
      * constructor; [|exact IH1].
        intros Hin. apply Hnotin. eapply dict_keys_remove_incl; eauto.
      * intros [H|H]; [congruence | tauto].
Qed.

Lemma dict_remove_length d k :
  dict_contains k d = true ->
  S (List.length (dict_remove k d)) = List.length d.
Proof.
  unfold dict_contains. induction d as [|[k0 v0] d IH]; simpl.
  - discriminate.
  - destruct (key_eqb k0 k); simpl; [reflexivity|].
    intros H. now rewrite IH.
Qed.

Lemma dict_set_length d k v :
  List.length (dict_set k v d)
  = if dict_contains k d then List.length d else S (List.length d).
Proof.
  unfold dict_contains. induction d as [|[k0 v0] d IH]; simpl; [reflexivity|].
  destruct (key_eqb k0 k); simpl; [reflexivity|].
  rewrite IH. now destruct (dict_get k d).
Qed.

Lemma dict_set_NoDup d k v :
  NoDup (dict_keys d) -> NoDup (dict_keys (dict_set k v d)).
Proof.
  intros Hnd. rewrite dict_keys_set.
  destruct (dict_contains k d) eqn:E; [exact Hnd|].
  apply NoDup_app; [exact Hnd | repeat constructor; simpl; tauto |].
  intros x Hx [<- | []].
  apply dict_contains_In in Hx. congruence.
Qed.

Lemma dict_set_normal d k v :
  _k k = k -> normal_keys d -> normal_keys (dict_set k v d).
Proof.
  intros Hk. unfold normal_keys.
  induction d as [|[k0 v0] d IH]; simpl; intros Hd.
  - now repeat constructor.
  - inversion Hd; subst.
    destruct (key_eqb k0 k); constructor; auto.
Qed.

Lemma dict_remove_normal d k : normal_keys d -> normal_keys (dict_remove k d).
Proof.
  unfold normal_keys.
  induction d as [|[k0 v0] d IH]; simpl; intros Hd; [constructor|].
  inversion Hd; subst. destruct (key_eqb k0 k); [assumption|].
  constructor; auto.
Qed.

End DictKeys.

Lemma _k_idempotent (k : key) : _k (_k k) = _k k.
Proof. destruct k; simpl; [now rewrite lower_idempotent | reflexivity]. Qed.

(** ** The invariant of a [ConfigurationDict] *)

Lemma well_formed_set (self : ConfigurationDict) (k : key) (v : value) :
  well_formed self ->
  well_formed (with_data self (dict_set (_k k) v (data self))).
Proof.
  intros [Hnd Hnorm]. split; simpl.
  - now apply dict_set_NoDup.
  - apply dict_set_normal; [apply _k_idempotent | exact Hnorm].
Qed.

Lemma well_formed_setitem (dfn : Definitions)
    (self self' : ConfigurationDict) (k : key) (v : value)
    (ws : list warning) :
  well_formed self ->
  ConfigurationDict.__setitem__ dfn self k v = (ws, inr self') ->
  well_formed self'.
Proof.
  intros Hwf H. apply cd_setitem_inv in H as [-> | [v' ->]];
    [exact Hwf | now apply well_formed_set].
Qed.

Lemma well_formed_delitem (self self' : ConfigurationDict) (k : key) :
  well_formed self ->
  ConfigurationDict.__delitem__ self k = inr self' ->
  well_formed self'.
Proof.
  intros [Hnd Hnorm]. unfold ConfigurationDict.__delitem__, dict_delitem.
  destruct (dict_contains (_k k) (data self)); [|discriminate].
  intros H. injection H as <-. split; simpl.
  - now apply dict_remove_NoDup.
  - now apply dict_remove_normal.
Qed.

Lemma well_formed_update (dfn : Definitions) (D : Type) (MD : Mapping D value)
    (E : D) (self self' : ConfigurationDict) (ws : list warning) :
  well_formed self ->
  ConfigurationDict.update dfn self E = (ws, inr self') ->
  well_formed self'.
Proof.
  intros Hwf H. unfold ConfigurationDict.update in H. revert Hwf.
  revert H. generalize (keys E). intros ks H.
  refine (for_each_rel _ (fun _ s s' => well_formed s -> well_formed s')
            _ _ ks self ws self' H).
  - auto.
  - intros x xs s s1 s2 ws0 Hbody IH Hs. apply IH.
    apply bind_inv in Hbody as (ws1 & v & ws2 & _ & Hset & _).
    eapply well_formed_setitem; eauto.
Qed.

(** The methods of a [ConfigurationDict] keep it well formed: a dictionary
    made by the constructor has no entries, and assignment, update,
    deletion, [pop] and [setdefault] leave a dictionary whose keys are
    lower-cased and distinct as one. *)
Theorem ConfigurationDict_stays_well_formed
    (dfn : Definitions) (self : ConfigurationDict) :
  well_formed self ->
  (forall k v ws self',
      ConfigurationDict.__setitem__ dfn self k v = (ws, inr self') ->
      well_formed self')
  /\ (forall (D : Type) (MD : Mapping D value) (E : D) ws self',
         ConfigurationDict.update dfn self E = (ws, inr self') ->
         well_formed self')
  /\ (forall k self',
         ConfigurationDict.__delitem__ self k = inr self' ->
         well_formed self')
  /\ (forall k default self' v,
         ConfigurationDict.pop self k default = inr (self', v) ->
         well_formed self')
  /\ (forall k default ws self' v,
         ConfigurationDict.setdefault dfn self k default
         = (ws, inr (self', v)) ->
         well_formed self').
Proof.
  intros Hwf. split; [|split; [|split; [|split]]].
  - intros k v ws self' H. eapply well_formed_setitem; eauto.
  - intros D MD E ws self' H. eapply well_formed_update; eauto.
  - intros k self' H. eapply well_formed_delitem; eauto.
  - intros k default self' v. unfold ConfigurationDict.pop.
    destruct (ConfigurationDict.__getitem__ self (_k k)) as [e|v0].
    + destruct default; [|discriminate]. intros H. injection H as <- _.
      apply Hwf.
    + destruct (ConfigurationDict.__delitem__ self (_k k)) as [e|s] eqn:E;
        [discriminate|].
      intros H. injection H as <- _. eapply well_formed_delitem; eauto.
  - intros k default ws self' v. unfold ConfigurationDict.setdefault.
    destruct (ConfigurationDict.__getitem__ self (_k k)) as [e|v0].
    + intros H. apply bind_inv in H as (ws1 & s1 & ws2 & H1 & H2 & _).
      injection H2 as _ <- _. eapply well_formed_setitem; eauto.
    + intros H. injection H as _ <- _. apply Hwf.
Qed.

(** The invariant, from the empty dictionary of the section "setup". *)
Lemma ConfigurationDict_stays_well_formed_witness :
  well_formed setup_dict
  /\ forall k v ws self',
       ConfigurationDict.__setitem__ Sample.dfn setup_dict k v
       = (ws, inr self') ->
       well_formed self'.
Proof.
  assert (Hwf : well_formed setup_dict)
    by (split; [constructor | constructor]).
  split; [exact Hwf|].
  exact (proj1 (ConfigurationDict_stays_well_formed Sample.dfn setup_dict
                  Hwf)).
Defined.

(** ** Deletion *)

Lemma dict_delitem_spec {V : Type} (d : pydict V) (k : key) :
  NoDup (dict_keys d) ->
  match dict_delitem k d with
  | inr d' =>
      dict_contains k d = true
      /\ dict_contains k d' = false
      /\ S (List.length d') = List.length d
      /\ forall k', k' <> k -> dict_get k' d' = dict_get k' d
  | inl e => e = KeyError (MissingKey k) /\ dict_contains k d = false
  end.
Proof.
  intros Hnd. unfold dict_delitem.
  destruct (dict_contains k d) eqn:E; [|now split].
  split; [reflexivity|]. split; [|split].
  - destruct (dict_remove_NoDup V d k Hnd) as [_ Hout].
    destruct (dict_contains k (dict_remove k d)) eqn:E'; [|reflexivity].
    apply dict_contains_In in E'. contradiction.
  - now apply dict_remove_length.
  - intros k' Hne. apply dict_get_remove_other. congruence.
Qed.

(** [del self[k]] on a well-formed dictionary.  When the key, in any
    casing, is there, the entry goes: the key is no longer contained, the
    length drops by one, and every other key reads as before.  When it is
    not there, [KeyError] is raised with the lower-cased key. *)
Theorem delitem_removes_one_entry (self : ConfigurationDict) (k : key) :
  well_formed self ->
  match ConfigurationDict.__delitem__ self k with
  | inr self' =>
      ConfigurationDict.__contains__ self k = true
      /\ ConfigurationDict.__contains__ self' k = false
      /\ S (List.length (data self')) = List.length (data self)
      /\ section self' = section self
      /\ forall k', _k k' <> _k k ->
           ConfigurationDict.__getitem__ self' k'
           = ConfigurationDict.__getitem__ self k'
  | inl e =>
      e = KeyError (MissingKey (_k k))
      /\ ConfigurationDict.__contains__ self k = false
  end.
Proof.
  intros [Hnd _]. pose proof (dict_delitem_spec (data self) (_k k) Hnd) as H.
  unfold ConfigurationDict.__delitem__, ConfigurationDict.__contains__,
    ConfigurationDict.__getitem__, dict_getitem.
  destruct (dict_delitem (_k k) (data self)) as [e|d']; [exact H|].
  destruct H as (Hin & Hout & Hlen & Hother). simpl.
  repeat split; trivial.
  intros k' Hne. now rewrite Hother.
Qed.

Lemma delitem_removes_one_entry_witness :
  well_formed (with_data setup_dict [(KStr `"channel width", VInt 20)])
  /\ match ConfigurationDict.__delitem__
             (with_data setup_dict [(KStr `"channel width", VInt 20)])
             (KStr `"Channel Width") with
     | inr self' => ConfigurationDict.__contains__ self'
                      (KStr `"Channel Width") = false
     | inl _ => False
     end.
Proof.
  assert (Hwf : well_formed
                  (with_data setup_dict [(KStr `"channel width", VInt 20)])).
  { split; simpl.
    - constructor; [simpl; tauto | constructor].
    - repeat constructor. }
  split; [exact Hwf|].
  pose proof (delitem_removes_one_entry
                (with_data setup_dict [(KStr `"channel width", VInt 20)])
                (KStr `"Channel Width") Hwf) as H.
  destruct (ConfigurationDict.__delitem__ _ _) as [e|self'].
  - destruct H as [_ H]. vm_compute in H. discriminate.
  - apply H.
Defined.

(** ** The sorted entries *)

Lemma str_ltb_asym (a b : str) : str_ltb a b = true -> str_ltb b a = false.
Proof.
  revert b. induction a as [|x a IH]; intros [|y b]; simpl; try congruence.
  destruct (x <? y)%N eqn:E1, (y <? x)%N eqn:E2; try congruence.
  - apply N.ltb_lt in E1. apply N.ltb_lt in E2. lia.
  - apply IH.
Qed.

Lemma key_ltb_asym (a b : key) : key_ltb a b = Some true -> key_le a b.
Proof.
  unfold key_le. destruct a, b; simpl; try discriminate; intros H; f_equal.
  - apply str_ltb_asym. congruence.
  - injection H as H. apply Z.ltb_lt in H. apply Z.ltb_ge. lia.
Qed.

Lemma key_ltb_kind (a b : key) :
  match key_ltb a b with
  | Some _ => is_str a = is_str b
  | None => is_str a <> is_str b
  end.
Proof. destruct a, b; simpl; congruence. Qed.

Lemma not_one_kind_mixed (a b : key) (ks : list key) :
  In a ks -> In b ks -> is_str a <> is_str b -> mixed ks.
Proof.
  intros Ha Hb Hne. destruct a as [s|z], b as [s'|z']; simpl in Hne;
    try congruence.
  - now exists s, z'.
  - now exists s', z.
Qed.

Lemma sort_insert_spec (k : key) (l : list key) :
  Sorted key_le l -> one_kind l ->
  match sort_insert k l with
  | inr r =>
      one_kind (k :: l) /\ Permutation r (k :: l) /\ Sorted key_le r
      /\ forall x, key_le x k -> HdRel key_le x l -> HdRel key_le x r
  | inl e => e = TypeError /\ mixed (k :: l)
  end.
Proof.
  induction l as [|h t IH]; intros Hs Hk; simpl.
  - repeat split; auto.
    intros a b [<-|[]] [<-|[]]. reflexivity.
  - pose proof (key_ltb_kind k h) as Hkind.
    destruct (key_ltb k h) as [[|]|] eqn:E.
    + repeat split; auto.
      * intros a b [<-|Ha] [<-|Hb]; auto.
        -- rewrite Hkind. apply Hk; simpl; auto.
        -- rewrite Hkind. symmetry. apply Hk; simpl; auto.
      * constructor; [exact Hs|]. constructor. now apply key_ltb_asym.
    + inversion Hs as [|? ? Hs' Hhd]; subst.
      assert (Hk' : one_kind t)
        by (intros a b Ha Hb; apply Hk; simpl; auto).
      specialize (IH Hs' Hk').
      destruct (sort_insert k t) as [e|r].
      * destruct IH as [-> (s & z & Hs1 & Hz1)]. split; [reflexivity|].
        exists s, z. simpl in *. tauto.
      * destruct IH as (Hone & Hperm & Hsorted & Hhead).
        repeat split.
        -- intros a b [<-|[<-|Ha]] [<-|[<-|Hb]]; auto.
           ++ apply Hone; simpl; auto.
           ++ rewrite <- Hkind. apply Hone; simpl; auto.
           ++ apply Hone; simpl; auto.
           ++ apply Hk; simpl; auto.
        -- rewrite Hperm. apply perm_swap.
        -- constructor; [exact Hsorted|]. apply Hhead; [exact E | exact Hhd].
        -- intros x Hx Hxl. inversion Hxl; subst. now constructor.
    + split; [reflexivity|].
      apply (not_one_kind_mixed k h); simpl; auto.
Qed.

Lemma sort_spec (l : list key) :
  match sort l with
  | inr r => one_kind l /\ Permutation r l /\ Sorted key_le r
  | inl e => e = TypeError /\ mixed l
  end.
Proof.
  induction l as [|k t IH]; simpl.
  - repeat split; auto. intros a b [].
  - destruct (sort t) as [e|r].
    + destruct IH as [-> (s & z & Hs & Hz)]. split; [reflexivity|].
      exists s, z. simpl. tauto.
    + destruct IH as (Hone & Hperm & Hsorted).
      assert (Hone' : one_kind r).
      { intros a b Ha Hb.
        apply Hone; eapply Permutation_in; eauto. }
      pose proof (sort_insert_spec k r Hsorted Hone') as H.
      destruct (sort_insert k r) as [e|r'].
      * destruct H as [-> (s & z & Hs & Hz)]. split; [reflexivity|].
        exists s, z. split.
        -- destruct Hs as [Hs|Hs]; [now left | right].
           eapply Permutation_in; eauto.
        -- destruct Hz as [Hz|Hz]; [now left | right].
           eapply Permutation_in; eauto.
      * destruct H as (Hone2 & Hperm2 & Hsorted2 & _).
        repeat split.
        -- intros a b Ha Hb. apply Hone2.
           ++ destruct Ha as [Ha|Ha]; [now left | right].
              eapply Permutation_in; [symmetry|]; eauto.
           ++ destruct Hb as [Hb|Hb]; [now left | right].
              eapply Permutation_in; [symmetry|]; eauto.
        -- rewrite Hperm2. now constructor.
        -- exact Hsorted2.
Qed.

(** The entry under a key of the dictionary. *)
Lemma lookup_all_entries (self : ConfigurationDict) (ks : list key) :
  (forall k, In k ks -> In k (dict_keys (data self))) ->
  normal_keys (data self) ->
  ConfigurationDict.lookup_all self ks
  = inr (map (fun k => (k, ConfigurationDict.get self k)) ks).
Proof.
  intros Hin Hnorm. induction ks as [|k r IH]; simpl; [reflexivity|].
  assert (Hk : _k k = k).
  { specialize (Hin k (or_introl eq_refl)). unfold dict_keys in Hin.
    apply in_map_iff in Hin as ([k0 v0] & <- & Hin).
    unfold normal_keys in Hnorm. rewrite Forall_forall in Hnorm.
    apply (Hnorm _ Hin). }
  unfold ConfigurationDict.__getitem__, ConfigurationDict.get, dict_getitem.
  rewrite Hk.
  destruct (dict_get k (data self)) as [v|] eqn:E.
  - rewrite IH; [reflexivity|]. intros k' Hk'. apply Hin. now right.
  - apply dict_get_None in E. exfalso. apply E. apply Hin. now left.
Qed.

Lemma entries_of_keys (self : ConfigurationDict) :
  well_formed self ->
  map (fun k => (k, ConfigurationDict.get self k)) (dict_keys (data self))
  = data self.
Proof.
  intros [Hnd Hnorm]. unfold ConfigurationDict.get.
  destruct self as [sec d]. simpl in *.
  unfold normal_keys in Hnorm.
  induction d as [|[k v] d IH]; simpl; [reflexivity|].
  inversion Hnd as [|? ? Hout Hnd']; subst.
  inversion Hnorm as [|? ? Hk Hnorm']; subst. simpl in Hk.
  rewrite Hk, key_eqb_refl. f_equal.
  rewrite <- (IH Hnd' Hnorm') at 2.
  apply map_ext_in. intros k' Hk'. f_equal.
  assert (Hk'n : _k k' = k').
  { unfold dict_keys in Hk'. apply in_map_iff in Hk' as ([k0 v0] & <- & Hin).
    rewrite Forall_forall in Hnorm'. apply (Hnorm' _ Hin). }
  rewrite Hk'n.
  destruct (key_eqb k k') eqn:E; [|reflexivity].
  apply key_eqb_eq in E. subst. contradiction.
Qed.

(** [self.items()] on a well-formed dictionary whose keys are all strings,
    or all integers, returns every entry once, in the order of the keys;
    when a string key stands beside an integer key, the sort raises
    [TypeError]. *)
Theorem items_are_the_entries_sorted_by_key (self : ConfigurationDict) :
  well_formed self ->
  match ConfigurationDict.items self with
  | inr out =>
      one_kind (dict_keys (data self))
      /\ Permutation out (data self)
      /\ Sorted key_le (map fst out)
  | inl e => e = TypeError /\ mixed (dict_keys (data self))
  end.
Proof.
  intros Hwf. unfold ConfigurationDict.items.
  pose proof (sort_spec (dict_keys (data self))) as H.
  destruct (sort (dict_keys (data self))) as [e|ks]; [exact H|].
  destruct H as (Hone & Hperm & Hsorted).
  rewrite lookup_all_entries.
  - split; [exact Hone|]. split.
    + rewrite <- (entries_of_keys self Hwf) at 1. now apply Permutation_map.
    + rewrite map_map. simpl. now rewrite map_id.
  - intros k Hk. eapply Permutation_in; eauto.
  - apply Hwf.
Qed.

Lemma items_are_the_entries_sorted_by_key_witness :
  well_formed (with_data setup_dict
                 [(KStr `"flow rate", VInt 1); (KStr `"channel width", VInt 2)])
  /\ ConfigurationDict.items
       (with_data setup_dict
          [(KStr `"flow rate", VInt 1); (KStr `"channel width", VInt 2)])
     = inr [(KStr `"channel width", VInt 2); (KStr `"flow rate", VInt 1)]
  /\ match ConfigurationDict.items
             (with_data setup_dict
                [(KStr `"flow rate", VInt 1);
                 (KStr `"channel width", VInt 2)]) with
     | inr out => Sorted key_le (map fst out)
     | inl _ => False
     end.
Proof.
  assert (Hwf : well_formed
                  (with_data setup_dict
                     [(KStr `"flow rate", VInt 1);
                      (KStr `"channel width", VInt 2)])).
  { split; simpl.
    - repeat constructor; simpl; intuition discriminate.
    - repeat constructor. }
  split; [exact Hwf|]. split; [reflexivity|].
  pose proof (items_are_the_entries_sorted_by_key _ Hwf) as H.
  destruct (ConfigurationDict.items _) as [e|out].
  - destruct H as [_ (s & z & _ & [Hz|[Hz|[]]])]; discriminate.
  - apply H.
Defined.

(** ** What an assignment raises *)

(** An assignment raises in two cases only, both under checks: when the
    validation of the key raises, and when the key is valid, the value is
    neither [None] nor the empty string, and the coercion function of the
    schema raises; the exception is theirs.  A dictionary that does not
    check never raises on assignment. *)
Theorem setitem_raises_what_validation_or_coercion_raise
    (dfn : Definitions) (self : ConfigurationDict) (k : key) (v : value)
    (e : exn) :
  (exists ws, ConfigurationDict.__setitem__ dfn self k v = (ws, inl e))
  <-> exists sec ws,
        checked_section self = Some sec
        /\ (verify_section_key dfn sec (_k k) = (ws, inl e)
            \/ (verify_section_key dfn sec (_k k) = (ws, inr true)
                /\ is_empty_str v = false
                /\ is_None v = false
                /\ get_config_value_func dfn sec (_k k) v = inl e)).
Proof.
  unfold ConfigurationDict.__setitem__.
  destruct (checked_section self) as [sec|].
  - destruct (verify_section_key dfn sec (_k k)) as [ws1 [e1|valid]] eqn:Hver.
    + simpl. split.
      * intros [ws H]. injection H as <- <-. exists sec, ws1. auto.
      * intros (sec' & ws & Hsec & H). injection Hsec as <-.
        rewrite Hver in H. destruct H as [H | [H _]]; [|discriminate].
        injection H as <- <-. now exists ws1.
    + split.
      * intros [ws H]. exists sec, ws1. split; [reflexivity|]. right.
        destruct valid, (is_empty_str v), (is_None v); simpl in H;
          try discriminate.
        destruct (get_config_value_type dfn sec (_k k)) as [typ|];
          [destruct (isinstance v typ)|];
          destruct (get_config_value_func dfn sec (_k k) v) as [e'|v'];
          simpl in H; try discriminate;
          injection H as _ <-; auto.
      * intros (sec' & ws & Hsec & H). injection Hsec as <-.
        rewrite Hver in H.
        destruct H as [H | (H & Hempty & Hnone & Hconv)]; [discriminate|].
        injection H as _ ->.
        rewrite Hempty, Hnone. simpl.
        destruct (get_config_value_type dfn sec (_k k)) as [typ|];
          [destruct (isinstance v typ)|];
          rewrite Hconv; simpl; eexists; reflexivity.
  - split.
    + intros [ws H]. destruct (is_None v); simpl in H; discriminate.
    + intros (sec & ws & Hsec & _). discriminate.
Qed.

(** ** Update of a dictionary that does not check *)

Section UpdateUnchecked.
Variable dfn : Definitions.

Lemma dict_get_In {V : Type} (d : pydict V) (k : key) (v : V) :
  NoDup (dict_keys d) -> In (k, v) d -> dict_get k d = Some v.
Proof.
  induction d as [|[k0 v0] d IH]; simpl; [tauto|].
  intros Hnd [Hin|Hin].
  - injection Hin as -> ->. now rewrite key_eqb_refl.
  - inversion Hnd as [|? ? Hout Hnd']; subst.
    destruct (key_eqb k0 k) eqn:E.
    + apply key_eqb_eq in E. subst. exfalso. apply Hout.
      unfold dict_keys. apply in_map_iff. now exists (k, v).
    + auto.
Qed.

Lemma stored_section (self : ConfigurationDict) (kv : key * value) :
  section (stored self kv) = section self.
Proof. unfold stored. now destruct (is_None (snd kv)). Qed.

Lemma stored_all_section (l : pydict value) (self : ConfigurationDict) :
  section (fold_left stored l self) = section self.
Proof.
  revert self. induction l as [|kv l IH]; intros self; simpl;
    [reflexivity|].
  now rewrite IH, stored_section.
Qed.

Lemma update_unchecked_from (E l : pydict value) (self : ConfigurationDict) :
  checked_section self = None ->
  (forall k v, In (k, v) l -> dict_get k E = Some v) ->
  for_each (dict_keys l)
    (fun self key =>
       v <- lift (getitem E key) ;;
       ConfigurationDict.__setitem__ dfn self key v)
    self
  = (bad_values (section self) l, inr (fold_left stored l self)).
Proof.
  revert self. induction l as [|[k v] l IH]; intros self Hsec Hin;
    [reflexivity|].
  cbn [dict_keys map fst for_each fold_left bad_values flat_map snd].
  assert (Hk : getitem E k = inr v).
  { simpl. unfold dict_getitem. rewrite (Hin k v); [reflexivity|now left]. }
  rewrite Hk. unfold lift at 1. rewrite bind_value. simpl fst. simpl snd.
  assert (Hset : ConfigurationDict.__setitem__ dfn self k v
                 = (if is_None v then [BadValue (section self) (_k k)]
                    else [], inr (stored self (k, v)))).
  { unfold ConfigurationDict.__setitem__, stored. rewrite Hsec. simpl.
    destruct (is_None v); reflexivity. }
  rewrite app_nil_l.
  assert (Hsec' : checked_section (stored self (k, v)) = None).
  { unfold checked_section in *. now rewrite stored_section. }
  eapply bind_returns with (a := stored self (k, v)).
  - rewrite <- Hset. destruct (ConfigurationDict.__setitem__ _ _ _ _).
    reflexivity.
  - fold (dict_keys l). rewrite (IH _ Hsec').
    + unfold bad_values. now rewrite stored_section.
    + intros k' v' H'. apply Hin. now right.
Qed.

(** Without checks, an update is the sequence of its assignments. *)
Lemma update_unchecked (E : pydict value) (self : ConfigurationDict) :
  checked_section self = None ->
  NoDup (dict_keys E) ->
  ConfigurationDict.update dfn self E
  = (bad_values (section self) E, inr (fold_left stored E self)).
Proof.
  intros Hsec Hnd. unfold ConfigurationDict.update.
  apply (update_unchecked_from E E self Hsec).
  intros k v. now apply dict_get_In.
Qed.

Lemma stored_all_get (l : pydict value) (self : ConfigurationDict)
    (k : key) :
  (forall k' v', In (k', v') l -> _k k' = _k k -> is_None v' = true) ->
  ConfigurationDict.__getitem__ (fold_left stored l self) k
  = ConfigurationDict.__getitem__ self k.
Proof.
  revert self. induction l as [|[k0 v0] l IH]; intros self Hl; simpl;
    [reflexivity|].
  rewrite IH by (intros k' v' H'; apply Hl; now right).
  unfold stored. simpl.
  destruct (is_None v0) eqn:Hnone; [reflexivity|].
  unfold ConfigurationDict.__getitem__, dict_getitem. simpl.
  rewrite dict_get_set_other; [reflexivity|].
  intros Heq. specialize (Hl k0 v0 (or_introl eq_refl) Heq). congruence.
Qed.

End UpdateUnchecked.

(** In an update of a dictionary that does not check, the last entry of a
    key wins, whatever its casing: when no later entry of the argument
    with a value other than [None] has the same lower-cased key, the
    dictionary reads the entry's value under the key afterwards.  The
    update returns, and warns only of the values [None]. *)
Theorem update_lets_the_last_entry_of_a_key_win
    (dfn : Definitions) (self : ConfigurationDict)
    (E1 E2 : pydict value) (k : key) (v : value) :
  checked_section self = None ->
  NoDup (dict_keys (E1 ++ (k, v) :: E2)) ->
  is_None v = false ->
  (forall k' v', In (k', v') E2 -> _k k' = _k k -> is_None v' = true) ->
  exists self',
    ConfigurationDict.update dfn self (E1 ++ (k, v) :: E2)
    = (bad_values (section self) (E1 ++ (k, v) :: E2), inr self')
    /\ ConfigurationDict.__getitem__ self' k = inr v
    /\ section self' = section self.
Proof.
  intros Hsec Hnd Hv Hlast.
  exists (fold_left stored (E1 ++ (k, v) :: E2) self).
  split; [now apply update_unchecked|]. split.
  - rewrite fold_left_app. simpl.
    rewrite stored_all_get by exact Hlast.
    unfold stored. simpl. rewrite Hv.
    unfold ConfigurationDict.__getitem__, dict_getitem. simpl.
    now rewrite dict_get_set_same.
  - apply stored_all_section.
Qed.

Lemma update_lets_the_last_entry_of_a_key_win_witness :
  exists self',
    ConfigurationDict.update Sample.dfn (ConfigurationDict.__init__ None)
      ([] ++ (KStr `"Flow Rate", VInt 1)
          :: [(KStr `"flow rate", VNone); (KStr `"a", VInt 2)])
    = (bad_values None
         ([] ++ (KStr `"Flow Rate", VInt 1)
             :: [(KStr `"flow rate", VNone); (KStr `"a", VInt 2)]),
       inr self')
    /\ ConfigurationDict.__getitem__ self' (KStr `"Flow Rate") = inr (VInt 1)
    /\ section self' = None.
Proof.
  apply (update_lets_the_last_entry_of_a_key_win Sample.dfn
           (ConfigurationDict.__init__ None) []
           [(KStr `"flow rate", VNone); (KStr `"a", VInt 2)]
           (KStr `"Flow Rate") (VInt 1)).
  - reflexivity.
  - repeat constructor; simpl; intuition discriminate.
  - reflexivity.
  - intros k' v' [H|[H|[]]] Hk; injection H as <- <-;
      [reflexivity | discriminate].
Defined.

(** ** [pop] *)


(** [self.pop(k)] and [self.pop(k, default)] on a well-formed dictionary.
    When the key is there, in any casing, its value is returned and the
    entry removed: the key is no longer contained, the length drops by
    one, the other keys read as before.  When it is not there, the
    default is returned and the dictionary is left as it is; without a
    default, [KeyError] is raised with the lower-cased key. *)
Theorem pop_returns_the_value_and_removes_the_entry
    (self : ConfigurationDict) (k : key) (default : option value) :
  well_formed self ->
  match ConfigurationDict.__getitem__ self k with
  | inr v =>
      exists self',
        ConfigurationDict.pop self k default = inr (self', v)
        /\ ConfigurationDict.__contains__ self' k = false
        /\ S (List.length (data self')) = List.length (data self)
        /\ forall k', _k k' <> _k k ->
             ConfigurationDict.__getitem__ self' k'
             = ConfigurationDict.__getitem__ self k'
  | inl _ =>
      ConfigurationDict.pop self k default
      = match default with
        | Some d => inr (self, d)
        | None => inl (KeyError (MissingKey (_k k)))
        end
  end.
Proof.
  intros [Hnd _].
  pose proof (dict_delitem_spec (data self) (_k k) Hnd) as Hdel.
  unfold ConfigurationDict.pop, ConfigurationDict.__getitem__,
    ConfigurationDict.__delitem__, ConfigurationDict.__contains__.
  rewrite !_k_idempotent. unfold dict_getitem.
  destruct (dict_get (_k k) (data self)) as [v|] eqn:E.
  - destruct (dict_delitem (_k k) (data self)) as [e|d'].
    + destruct Hdel as [_ Hdel]. unfold dict_contains in Hdel.
      rewrite E in Hdel. discriminate.
    + destruct Hdel as (_ & Hout & Hlen & Hother).
      eexists. split; [reflexivity|]. simpl. repeat split; trivial.
      intros k' Hne. now rewrite Hother.
  - destruct default; reflexivity.
Qed.

Lemma pop_returns_the_value_and_removes_the_entry_witness :
  well_formed (with_data setup_dict [(KStr `"channel width", VInt 20)])
  /\ exists self',
       ConfigurationDict.pop
         (with_data setup_dict [(KStr `"channel width", VInt 20)])
         (KStr `"Channel Width") None
       = inr (self', VInt 20)
       /\ ConfigurationDict.__contains__ self' (KStr `"Channel Width")
          = false.
Proof.
  assert (Hwf : well_formed
                  (with_data setup_dict [(KStr `"channel width", VInt 20)])).
  { split; simpl.
    - constructor; [simpl; tauto | constructor].
    - repeat constructor. }
  split; [exact Hwf|].
  destruct (pop_returns_the_value_and_removes_the_entry
              (with_data setup_dict [(KStr `"channel width", VInt 20)])
              (KStr `"Channel Width") None Hwf)
    as (self' & Hpop & Hout & _).
  exists self'. now split.
Defined.

(** ** What the validation of a key answers *)


Lemma dropwhile_nil (p : N -> bool) (s : str) :
  Str.dropwhile p s = [] <-> forallb p s = true.
Proof.
  induction s as [|c s IH]; simpl; [tauto|].
  destruct (p c); simpl; [exact IH | split; discriminate].
Qed.

Lemma dropwhile_head (p : N -> bool) (s : str) :
  match Str.dropwhile p s with
  | [] => True
  | c :: _ => p c = false
  end.
Proof.
  induction s as [|c s IH]; simpl; [trivial|].
  destruct (p c) eqn:E; [exact IH | exact E].
Qed.

Lemma strip_by_nil (p : N -> bool) (s : str) :
  Str.strip_by p s = [] <-> forallb p s = true.
Proof.
  unfold Str.strip_by. rewrite <- dropwhile_nil.
  split.
  - intros H. apply (f_equal (@rev N)) in H. rewrite rev_involutive in H.
    simpl in H. apply dropwhile_nil in H.
    pose proof (dropwhile_head p s) as Hhead.
    destruct (Str.dropwhile p s) as [|c r]; [reflexivity|].
    rewrite forallb_forall in H. rewrite H in Hhead; [discriminate|].
    apply in_rev. rewrite rev_involutive. now left.
  - intros ->. reflexivity.
Qed.

(** In the section "user" a key that the schema does not list is accepted
    exactly when it is a string with a character that is not white space;
    a blank string is rejected with the blank-key warning, and a key that
    is not a string with the not-a-string warning.  The validation of a
    key of this section never raises. *)
Theorem user_section_accepts_every_visible_string_key
    (dfn : Definitions) (k : key) :
  verify_section_key dfn (KStr `"user") k
  = if config_key_exists dfn (KStr `"user") k then ([], inr true)
    else match k with
         | KStr s =>
             if forallb Str.isspace s then ([UserKeyBlank], inr false)
             else ([], inr true)
         | KInt _ => ([UserKeyNotString k], inr false)
         end.
Proof.
  unfold verify_section_key, verify_section_key_wcount.
  destruct (config_key_exists dfn (KStr `"user") k); [reflexivity|].
  change (key_is (KStr `"user") "plotting") with false.
  change (key_is (KStr `"user") "analysis") with false.
  change (key_is (KStr `"user") "filtering") with false.
  change (key_is (KStr `"user") "user") with true.
  cbn [orb]. cbv iota.
  destruct k as [s|z]; [|reflexivity].
  destruct (forallb Str.isspace s) eqn:E.
  - apply (strip_by_nil Str.isspace) in E. unfold Str.strip. now rewrite E.
  - destruct (Str.strip s) as [|c r] eqn:E'; [|reflexivity].
    apply (strip_by_nil Str.isspace) in E'. congruence.
Qed.

(** ** Invariants of a [Configuration] *)

Lemma dict_set_Forall {V : Type} (P : V -> Prop) (d : pydict V) (k : key)
    (v : V) :
  Forall (fun kv => P (snd kv)) d -> P v ->
  Forall (fun kv => P (snd kv)) (dict_set k v d).
Proof.
  intros Hd Hv. induction d as [|[k0 v0] d IH]; simpl.
  - now repeat constructor.
  - inversion Hd; subst. destruct (key_eqb k0 k); constructor; auto.
Qed.

Lemma dict_get_Forall {V : Type} (P : V -> Prop) (d : pydict V) (k : key)
    (v : V) :
  Forall (fun kv => P (snd kv)) d -> dict_get k d = Some v -> P v.
Proof.
  intros Hd. induction d as [|[k0 v0] d IH]; simpl; [discriminate|].
  inversion Hd; subst. destruct (key_eqb k0 k); [|auto].
  intros H. now injection H as <-.
Qed.

Section SectionInvariant.
Variable dfn : Definitions.
Variable flags : bool -> Prop.
Variable P : ConfigurationDict -> Prop.
Hypothesis P_new :
  forall flag sec,
    flags flag ->
    P (ConfigurationDict.__init__ (if flag then None else Some sec)).
Hypothesis P_set :
  forall item item' k v ws,
    P item ->
    ConfigurationDict.__setitem__ dfn item k v = (ws, inr item') ->
    P item'.

Lemma sections_are_write (self : Configuration) (x : key)
    (item : ConfigurationDict) :
  sections_are flags P self -> P item ->
  sections_are flags P (with_cfg self (sm_setitem (_cfg self) x item)).
Proof.
  intros (Hflag & Hnd & Hnorm & Hall) Hitem.
  unfold sections_are, Configuration.keys, every_section. simpl.
  repeat split.
  - exact Hflag.
  - now apply dict_set_NoDup.
  - apply dict_set_normal; [apply _k_idempotent | exact Hnorm].
  - now apply dict_set_Forall.
Qed.

Lemma sections_are_read (self : Configuration) (x : key)
    (item : ConfigurationDict) :
  sections_are flags P self ->
  sm_getitem (_cfg self) x = inr item -> P item.
Proof.
  intros (_ & _ & _ & Hall). unfold sm_getitem, dict_getitem.
  destruct (dict_get (_k x) (sections (_cfg self))) as [it|] eqn:E;
    [|discriminate].
  intros H. injection H as <-.
  eapply (dict_get_Forall P); eauto.
Qed.

Lemma sections_are_new (self : Configuration) (x : key) :
  sections_are flags P self ->
  sections_are flags P
    (with_cfg self (sm_setitem (_cfg self) x
                      (Configuration.new_section self x))).
Proof.
  intros Hself. apply sections_are_write; [exact Hself|].
  apply P_new. apply Hself.
Qed.

Lemma sections_are_provision (self : Configuration) (sec : key) :
  sections_are flags P self ->
  sections_are flags P (Configuration.provision dfn self sec).
Proof.
  intros Hself. unfold Configuration.provision.
  destruct (negb (Configuration.__contains__ self sec)
            && (in_config_keys dfn sec || key_is sec "user"));
    [now apply sections_are_new | exact Hself].
Qed.

Lemma sections_are_getitem (self self' : Configuration) (sec : key)
    (item : ConfigurationDict) :
  sections_are flags P self ->
  Configuration.__getitem__ dfn self sec = inr (self', item) ->
  sections_are flags P self' /\ P item.
Proof.
  intros Hself. unfold Configuration.__getitem__.
  destruct (sm_getitem (_cfg (Configuration.provision dfn self sec)) sec)
    as [e|item0] eqn:Hsec; [discriminate|].
  intros H. injection H as <- <-.
  split; [now apply sections_are_provision|].
  eapply sections_are_read; [|exact Hsec]. now apply sections_are_provision.
Qed.

Lemma sections_are_assign (self self' : Configuration) (sec k : key)
    (v : value) (ws : list warning) :
  sections_are flags P self ->
  Configuration.assign dfn self sec k v = (ws, inr self') ->
  sections_are flags P self'.
Proof.
  intros Hself Hset. unfold Configuration.assign in Hset.
  apply bind_inv in Hset as (ws1 & [self1 item] & ws2 & Hget & Hset & _).
  apply lift_inv in Hget as [Hget _].
  apply bind_inv in Hset as (ws3 & item' & ws4 & Hitem & Hret & _).
  injection Hret as _ <-.
  destruct (sections_are_getitem _ _ _ _ Hself Hget) as [Hself1 Hitem1].
  apply sections_are_write; [exact Hself1|].
  eapply P_set; eauto.
Qed.

Lemma sections_are_init_default_filter_values (self self' : Configuration)
    (ws : list warning) :
  sections_are flags P self ->
  Configuration._init_default_filter_values dfn self = (ws, inr self') ->
  sections_are flags P self'.
Proof.
  intros Hself Hinit. unfold Configuration._init_default_filter_values in Hinit.
  repeat match type of Hinit with
         | bind (Configuration.assign _ _ _ _ _) _ = _ =>
             let ws1 := fresh "ws" in
             let s1 := fresh "self" in
             let ws2 := fresh "ws" in
             let Hset := fresh "Hset" in
             apply bind_inv in Hinit as (ws1 & s1 & ws2 & Hset & Hinit & _);
             apply sections_are_assign in Hset; [|assumption]
         end.
  revert Hinit. apply for_each_inv; [|assumption].
  clear - P_new. intros s item0 wsb s' Hs Hbody.
  apply bind_inv in Hbody as (wsg & [s1 item] & wsr & Hget & Hbody & _).
  apply lift_inv in Hget as [Hget _].
  apply (sections_are_getitem _ _ _ _ Hs) in Hget as [Hs1 _].
  destruct (negb (ConfigurationDict.__contains__ item (KStr item0)));
    [discriminate|].
  now injection Hbody as _ <-.
Qed.

Context {D2 D1 : Type} `{Mapping D2 D1} `{Mapping D1 value}.

Lemma sections_are_update (newcfg : D2)
    (self self' : Configuration) (ws : list warning) :
  sections_are flags P self ->
  Configuration.update dfn self newcfg = (ws, inr self') ->
  sections_are flags P self'.
Proof.
  intros Hself. unfold Configuration.update.
  apply for_each_inv; [|exact Hself].
  clear - P_new P_set. intros s x ws s' Hs Hturn.
  unfold Configuration.update_section in Hturn.
  set (s1 := if negb (sm_contains (_cfg s) x) then _ else s) in Hturn.
  assert (Hs1 : sections_are flags P s1).
  { unfold s1. destruct (negb (sm_contains (_cfg s) x));
      [now apply sections_are_new | exact Hs]. }
  apply bind_inv in Hturn as (ws1 & item & ws2 & Hitem & Hturn & _).
  apply lift_inv in Hitem as [Hitem _].
  apply bind_inv in Hturn as (ws3 & E & ws4 & _ & Hturn & _).
  apply bind_inv in Hturn as (ws5 & item2 & ws6 & Hupd & Hret & _).
  injection Hret as _ <-.
  apply sections_are_write; [exact Hs1|].
  assert (Hitem1 : P item) by (eapply sections_are_read; eauto).
  revert Hupd. unfold ConfigurationDict.update.
  apply for_each_inv; [|exact Hitem1].
  clear - P_set. intros it k wsk it' Hit Hbody.
  apply bind_inv in Hbody as (wsa & v & wsb & _ & Hset & _).
  eapply P_set; eauto.
Qed.

End SectionInvariant.

Section Construction.
Variable dfn : Definitions.
Variable flags : bool -> Prop.
Variable P : ConfigurationDict -> Prop.
Hypothesis P_new :
  forall flag sec,
    flags flag ->
    P (ConfigurationDict.__init__ (if flag then None else Some sec)).
Hypothesis P_set :
  forall item item' k v ws,
    P item ->
    ConfigurationDict.__setitem__ dfn item k v = (ws, inr item') ->
    P item'.
Context {D2 D1 : Type} `{Mapping D2 D1} `{Mapping D1 value}.

Lemma sections_are_init (files : list (list str)) (cfg : D2) (flag : bool)
    (self : Configuration) (ws : list warning) :
  flags flag ->
  Configuration.__init__ dfn files cfg flag = (ws, inr self) ->
  sections_are flags P self.
Proof.
  intros Hflag Hinit. unfold Configuration.__init__ in Hinit.
  apply bind_inv in Hinit as (ws1 & s1 & ws2 & Hdef & Hinit & _).
  apply bind_inv in Hinit as (ws3 & s2 & ws4 & Hupd & Hload & _).
  assert (H1 : sections_are flags P s1).
  { eapply sections_are_init_default_filter_values; eauto.
    repeat split; simpl; auto; constructor. }
  assert (H2 : sections_are flags P s2)
    by (eapply sections_are_update; eauto).
  revert Hload. unfold Configuration.load_files.
  apply for_each_inv; [|exact H2].
  clear - P_new P_set. intros s f ws s' Hs Hbody.
  apply bind_inv in Hbody as (wsa & newcfg & wsb & _ & Hupd & _).
  eapply sections_are_update; eauto.
Qed.

End Construction.

Lemma well_formed_init (flag : bool) (sec : key) :
  True ->
  well_formed (ConfigurationDict.__init__ (if flag then None else Some sec)).
Proof. intros _. split; constructor. Qed.

(** The constructor makes, and item access, assignment through a section,
    update and copy keep, a configuration whose section names are
    lower-cased and distinct and whose sections have lower-cased, distinct
    keys. *)
Theorem Configuration_stays_well_formed (dfn : Definitions) :
  (forall (D2 D1 : Type) (M2 : Mapping D2 D1) (M1 : Mapping D1 value)
          (files : list (list str)) (cfg : D2) (flag : bool) ws self,
      Configuration.__init__ dfn files cfg flag = (ws, inr self) ->
      well_formed_Configuration self)
  /\ forall self,
       well_formed_Configuration self ->
       (forall sec self' item,
           Configuration.__getitem__ dfn self sec = inr (self', item) ->
           well_formed_Configuration self' /\ well_formed item)
       /\ (forall sec k v ws self',
              Configuration.assign dfn self sec k v = (ws, inr self') ->
              well_formed_Configuration self')
       /\ (forall (D2 D1 : Type) (M2 : Mapping D2 D1)
                  (M1 : Mapping D1 value) (newcfg : D2) ws self',
              Configuration.update dfn self newcfg = (ws, inr self') ->
              well_formed_Configuration self')
       /\ (forall ws self',
              Configuration.copy dfn self = (ws, inr self') ->
              well_formed_Configuration self').
Proof.
  pose proof (fun item item' k v ws (Hwf : well_formed item) =>
                well_formed_setitem dfn item item' k v ws Hwf) as Hset.
  split; [|intros self Hself; split; [|split; [|split]]].
  - intros D2 D1 M2 M1 files cfg flag ws self Hinit.
    eapply (sections_are_init dfn (fun _ => True) well_formed); eauto.
    apply well_formed_init.
  - intros sec self' item Hget.
    eapply (sections_are_getitem dfn (fun _ => True) well_formed); eauto.
    apply well_formed_init.
  - intros sec k v ws self' Hassign.
    eapply (sections_are_assign dfn (fun _ => True) well_formed); eauto.
    apply well_formed_init.
  - intros D2 D1 M2 M1 newcfg ws self' Hupd.
    eapply (sections_are_update dfn (fun _ => True) well_formed); eauto.
    apply well_formed_init.
  - intros ws self' Hcopy. unfold Configuration.copy in Hcopy.
    eapply (sections_are_init dfn (fun _ => True) well_formed); eauto.
    apply well_formed_init.
Qed.

(** ** Configurations that do not check *)

Lemma unchecked_init (flag : bool) (sec : key) :
  flag = true ->
  section (ConfigurationDict.__init__ (if flag then None else Some sec))
  = None.
Proof. now intros ->. Qed.

Lemma unchecked_setitem (dfn : Definitions) (item item' : ConfigurationDict)
    (k : key) (v : value) (ws : list warning) :
  section item = None ->
  ConfigurationDict.__setitem__ dfn item k v = (ws, inr item') ->
  section item' = None.
Proof.
  intros Hsec H. apply cd_setitem_inv in H as [-> | [v' ->]]; exact Hsec.
Qed.

Lemma sm_contains_getitem (m : SectionMap) (sec : key) :
  sm_contains m sec = true -> exists item, sm_getitem m sec = inr item.
Proof.
  unfold sm_contains, sm_getitem, dict_contains, dict_getitem.
  destruct (dict_get (_k sec) (sections m)) as [item|]; [|discriminate].
  now exists item.
Qed.

Lemma provision_getitem (dfn : Definitions) (self : Configuration)
    (sec : key) :
  Configuration.__contains__ self sec = true
  \/ in_config_keys dfn sec || key_is sec "user" = true ->
  exists item,
    sm_getitem (_cfg (Configuration.provision dfn self sec)) sec = inr item.
Proof.
  intros Hsec. unfold Configuration.provision.
  destruct (Configuration.__contains__ self sec) eqn:E.
  - simpl. now apply sm_contains_getitem.
  - destruct Hsec as [Hsec|Hsec]; [discriminate|]. rewrite Hsec. simpl.
    rewrite sm_getitem_setitem, key_eqb_refl. eauto.
Qed.

(** A configuration made with [disable_checks=True] does not check, and
    item access, assignment through a section and update keep it so: no
    section carries a section name.  An assignment through a section that
    is there, or that the schema names, of any value but [None] then
    returns without a warning and stores the value as it is. *)
Theorem Configuration_without_checks_stores_values_as_they_are
    (dfn : Definitions) :
  (forall (D2 D1 : Type) (M2 : Mapping D2 D1) (M1 : Mapping D1 value)
          (files : list (list str)) (cfg : D2) ws self,
      Configuration.__init__ dfn files cfg true = (ws, inr self) ->
      unchecked self)
  /\ forall self,
       unchecked self ->
       (forall sec self' item,
           Configuration.__getitem__ dfn self sec = inr (self', item) ->
           unchecked self' /\ section item = None)
       /\ (forall (D2 D1 : Type) (M2 : Mapping D2 D1)
                  (M1 : Mapping D1 value) (newcfg : D2) ws self',
              Configuration.update dfn self newcfg = (ws, inr self') ->
              unchecked self')
       /\ (forall sec k v,
              is_None v = false ->
              Configuration.__contains__ self sec = true
              \/ in_config_keys dfn sec || key_is sec "user" = true ->
              exists self' item,
                Configuration.assign dfn self sec k v = ([], inr self')
                /\ unchecked self'
                /\ sm_getitem (_cfg self') sec = inr item
                /\ ConfigurationDict.__getitem__ item k = inr v).
Proof.
  pose proof (unchecked_setitem dfn) as Hset.
  split; [|intros self Hself; split; [|split]].
  - intros D2 D1 M2 M1 files cfg ws self Hinit.
    eapply (sections_are_init dfn (fun flag => flag = true)
              (fun item => section item = None)); eauto.
    apply unchecked_init.
  - intros sec self' item Hget.
    eapply (sections_are_getitem dfn (fun flag => flag = true)
              (fun item => section item = None)); eauto.
    apply unchecked_init.
  - intros D2 D1 M2 M1 newcfg ws self' Hupd.
    eapply (sections_are_update dfn (fun flag => flag = true)
              (fun item => section item = None)); eauto.
    apply unchecked_init.
  - intros sec k v Hv Hsec.
    destruct (provision_getitem dfn self sec Hsec) as [item Hitem].
    assert (Hget : Configuration.__getitem__ dfn self sec
                   = inr (Configuration.provision dfn self sec, item)).
    { unfold Configuration.__getitem__. now rewrite Hitem. }
    destruct (sections_are_getitem dfn (fun flag => flag = true)
                (fun item => section item = None) unchecked_init
                _ _ _ _ Hself Hget) as [Hself1 Hnone].
    assert (Hchecked : checked_section item = None)
      by (unfold checked_section; now rewrite Hnone).
    exists (with_cfg (Configuration.provision dfn self sec)
              (sm_setitem (_cfg (Configuration.provision dfn self sec)) sec
                 (with_data item (dict_set (_k k) v (data item))))).
    exists (with_data item (dict_set (_k k) v (data item))).
    repeat split.
    + unfold Configuration.assign. rewrite Hget. unfold lift.
      rewrite bind_value. cbn [fst snd app].
      rewrite (cd_setitem_unchecked dfn item k v Hchecked Hv).
      reflexivity.
    + apply Hself1.
    + apply (sections_are_write (fun flag => flag = true)
               (fun item => section item = None)); [exact Hself1|].
      exact Hnone.
    + apply (sections_are_write (fun flag => flag = true)
               (fun item => section item = None)); [exact Hself1|].
      exact Hnone.
    + apply (sections_are_write (fun flag => flag = true)
               (fun item => section item = None)); [exact Hself1|].
      exact Hnone.
    + simpl. now rewrite sm_getitem_setitem, key_eqb_refl.
    + unfold ConfigurationDict.__getitem__, dict_getitem. simpl.
      now rewrite dict_get_set_same.
Qed.

(** ** The sections after an update *)

Section UpdateSections.
Variable dfn : Definitions.
Context {D2 D1 : Type} `{Mapping D2 D1} `{Mapping D1 value}.

Lemma update_section_keys (newcfg : D2) (s s' : Configuration) (sec : key)
    (ws : list warning) :
  Configuration.update_section dfn newcfg s sec = (ws, inr s') ->
  Configuration.keys s'
  = if Configuration.__contains__ s sec then Configuration.keys s
    else Configuration.keys s ++ [_k sec].
Proof.
  unfold Configuration.update_section, Configuration.__contains__.
  intros Hturn.
  set (s1 := if negb (sm_contains (_cfg s) sec) then _ else s) in Hturn.
  apply bind_inv in Hturn as (ws1 & item & ws2 & Hitem & Hturn & _).
  apply lift_inv in Hitem as [Hitem _].
  apply bind_inv in Hturn as (ws3 & E & ws4 & _ & Hturn & _).
  apply bind_inv in Hturn as (ws5 & item2 & ws6 & Hupd & Hret & _).
  injection Hret as _ <-.
  unfold Configuration.keys. simpl. rewrite dict_keys_set.
  assert (Hin : dict_contains (_k sec) (sections (_cfg s1)) = true).
  { unfold sm_getitem, dict_getitem in Hitem. unfold dict_contains.
    destruct (dict_get (_k sec) (sections (_cfg s1))); [reflexivity|].
    discriminate. }
  rewrite Hin. unfold s1, sm_contains.
  destruct (dict_contains (_k sec) (sections (_cfg s))) eqn:Hc; simpl;
    [reflexivity|].
  rewrite dict_keys_set. now rewrite Hc.
Qed.

Lemma update_keys (newcfg : D2) (secs : list key)
    (self self' : Configuration) (ws : list warning) :
  for_each secs (Configuration.update_section dfn newcfg) self
  = (ws, inr self') ->
  exists new,
    Configuration.keys self' = Configuration.keys self ++ new
    /\ (forall k, In k new ->
          ~ In k (Configuration.keys self)
          /\ exists sec, In sec secs /\ k = _k sec)
    /\ (forall sec, In sec secs ->
          Configuration.__contains__ self' sec = true).
Proof.
  intros Hloop.
  refine (for_each_rel (Configuration.update_section dfn newcfg)
            (fun secs self self' =>
               exists new,
                 Configuration.keys self' = Configuration.keys self ++ new
                 /\ (forall k, In k new ->
                       ~ In k (Configuration.keys self)
                       /\ exists sec, In sec secs /\ k = _k sec)
                 /\ (forall sec, In sec secs ->
                       Configuration.__contains__ self' sec = true))
            _ _ secs self ws self' Hloop); clear.
  - intros s. exists []. rewrite app_nil_r.
    split; [reflexivity | split; intros ? []].
  - intros x xs s s1 s2 ws Hstep (new & Hkeys & Hnew & Hall).
    apply update_section_keys in Hstep.
    assert (Hx : In (_k x) (Configuration.keys s1)).
    { rewrite Hstep.
      destruct (Configuration.__contains__ s x) eqn:E.
      - now apply dict_contains_In in E.
      - apply in_or_app. right. now left. }
    exists ((if Configuration.__contains__ s x then [] else [_k x]) ++ new).
    split; [|split].
    + rewrite Hkeys, Hstep.
      destruct (Configuration.__contains__ s x); simpl;
        [reflexivity | now rewrite <- app_assoc].
    + intros k Hk. apply in_app_or in Hk as [Hk|Hk].
      * destruct (Configuration.__contains__ s x) eqn:E; [destruct Hk|].
        destruct Hk as [<-|[]]. split.
        -- intros Hin. apply dict_contains_In in Hin.
           unfold Configuration.__contains__, sm_contains in E. congruence.
        -- exists x. split; [now left | reflexivity].
      * destruct (Hnew k Hk) as [Hout (sec & Hsec & ->)]. split.
        -- intros Hin. apply Hout. rewrite Hstep.
           destruct (Configuration.__contains__ s x); [exact Hin|].
           apply in_or_app. now left.
        -- exists sec. split; [now right | reflexivity].
    + intros sec [<-|Hsec]; [|now apply Hall].
      apply dict_contains_In. unfold Configuration.keys in *.
      rewrite Hkeys. apply in_or_app. now left.
Qed.

End UpdateSections.

(** When an update returns, the sections that were there are still there,
    in their order; the new ones follow them, each named, up to case, by
    the argument; and every section that the argument names is contained
    afterwards.  The number of sections only grows. *)
Theorem update_appends_the_sections_it_names
    (dfn : Definitions) (D2 D1 : Type) (M2 : Mapping D2 D1)
    (M1 : Mapping D1 value) (newcfg : D2) (self self' : Configuration)
    (ws : list warning) :
  Configuration.update dfn self newcfg = (ws, inr self') ->
  exists new,
    Configuration.keys self' = Configuration.keys self ++ new
    /\ Configuration.__len__ self'
       = (Configuration.__len__ self + List.length new)%nat
    /\ (forall k, In k new ->
          ~ In k (Configuration.keys self)
          /\ exists sec, In sec (keys newcfg) /\ k = _k sec)
    /\ (forall sec, In sec (keys newcfg) ->
          Configuration.__contains__ self' sec = true).
Proof.
  intros Hupd. apply update_keys in Hupd as (new & Hkeys & Hnew & Hall).
  exists new. repeat split; trivial; try apply Hnew; trivial.
  unfold Configuration.__len__.
  rewrite <- (length_map fst (sections (_cfg self'))).
  rewrite <- (length_map fst (sections (_cfg self))).
  unfold Configuration.keys, dict_keys in Hkeys.
  now rewrite Hkeys, length_app.
Qed.

Lemma update_appends_the_sections_it_names_witness :
  exists new,
    Configuration.keys
      (with_cfg empty_Configuration
         {| sections :=
              [(KStr `"setup",
                ConfigurationDict.__init__ (Some (KStr `"Setup")))] |})
    = Configuration.keys empty_Configuration ++ new
    /\ new = [KStr `"setup"].
Proof.
  assert (Hupd : Configuration.update Sample.dfn empty_Configuration
                   [(KStr `"Setup", @nil (key * value))]
                 = ([], inr (with_cfg empty_Configuration
                               {| sections :=
                                    [(KStr `"setup",
                                      ConfigurationDict.__init__
                                        (Some (KStr `"Setup")))] |})))
    by (vm_compute; reflexivity).
  destruct (update_appends_the_sections_it_names Sample.dfn
              (pydict (pydict value)) (pydict value) _ _ _ _ _ _ Hupd)
    as (new & Hkeys & _).
  exists new. split; [exact Hkeys | exact (eq_sym Hkeys)].
Defined.

(** ** Reading a section *)

(** [self.get(k, other)] never raises and never changes the configuration:
    it returns the section when [k] is contained and [other] when it is
    not, also for a name that [self[k]] would make a section for.
    [self[sec]], when it returns, leaves a configuration that contains
    [sec] and that a second [self[sec]] reads without a change; a section
    that was there is returned as it is, and one that was not is made
    empty and goes last. *)
Theorem reading_a_section_makes_it_at_most_once
    (dfn : Definitions) (self : Configuration) (sec : key) :
  (forall (A : Type) (other : A),
      exists r,
        Configuration.get dfn self sec other = inr (self, r)
        /\ match r with
           | inl item =>
               Configuration.__contains__ self sec = true
               /\ Configuration.__getitem__ dfn self sec = inr (self, item)
           | inr o => Configuration.__contains__ self sec = false /\ o = other
           end)
  /\ forall self1 item,
       Configuration.__getitem__ dfn self sec = inr (self1, item) ->
       Configuration.__getitem__ dfn self1 sec = inr (self1, item)
       /\ Configuration.__contains__ self1 sec = true
       /\ if Configuration.__contains__ self sec then self1 = self
          else item = Configuration.new_section self sec
               /\ Configuration.keys self1
                  = Configuration.keys self ++ [_k sec].
Proof.
  split.
  - intros A other. unfold Configuration.get, Configuration.__getitem__,
      Configuration.provision.
    destruct (Configuration.__contains__ self sec) eqn:E; simpl.
    + destruct (sm_contains_getitem (_cfg self) sec E) as [item Hitem].
      rewrite Hitem. exists (inl item). repeat split.
    + exists (inr other). repeat split.
  - intros self1 item. unfold Configuration.__getitem__.
    destruct (sm_getitem (_cfg (Configuration.provision dfn self sec)) sec)
      as [e|item0] eqn:Hitem; [discriminate|].
    intros Hget. injection Hget as <- <-.
    assert (Hin : Configuration.__contains__
                    (Configuration.provision dfn self sec) sec = true).
    { unfold Configuration.__contains__, sm_contains, dict_contains.
      unfold sm_getitem, dict_getitem in Hitem.
      destruct (dict_get _ _); [reflexivity | discriminate]. }
    assert (Hsame : Configuration.provision dfn
                      (Configuration.provision dfn self sec) sec
                    = Configuration.provision dfn self sec).
    { unfold Configuration.provision at 1. now rewrite Hin. }
    rewrite Hsame, Hitem. split; [reflexivity|]. split; [exact Hin|].
    unfold Configuration.provision in *.
    destruct (Configuration.__contains__ self sec) eqn:E; simpl in *;
      [reflexivity|].
    destruct (in_config_keys dfn sec || key_is sec "user").
    + simpl in Hitem. rewrite sm_getitem_setitem, key_eqb_refl in Hitem.
      injection Hitem as <-. split; [reflexivity|].
      unfold Configuration.keys. simpl. rewrite dict_keys_set.
      unfold Configuration.__contains__, sm_contains in E. now rewrite E.
    + congruence.
Qed.

(** ** Reading values *)

Lemma floats_spec (values : list str) :
  match floats values with
  | inr l => forallb is_float l = true
  | inl e => e = ValueError
  end.
Proof.
  induction values as [|v r IH]; simpl; [reflexivity|].
  destruct (Num.of_str v); [|reflexivity].
  destruct (floats r); [exact IH | exact IH].
Qed.

(** [keyval_str2typ] on a string value.  It returns nothing exactly when
    the stripped key or the stripped value is empty.  Otherwise the key it
    returns is the stripped, lower-cased key, and the value is a truth
    value, a float, a string or a list of floats, never an integer and
    never [None].  It raises only [ValueError], and only for a value in
    square brackets. *)
Theorem keyval_str2typ_reads_no_integer
    (dfn : Definitions) (var val : str) :
  match keyval_str2typ dfn var (VStr val) with
  | inr (Some (k, v)) =>
      k = Str.lower (Str.strip var) /\ Str.strip var <> []
      /\ Str.strip val <> [] /\ text_value v
  | inr None => Str.strip var = [] \/ Str.strip val = []
  | inl e =>
      e = ValueError
      /\ Str.strip var <> []
      /\ Str.startswith `"[" (Str.strip val) = true
      /\ Str.endswith `"]" (Str.strip val) = true
  end.
Proof.
  unfold keyval_str2typ.
  destruct (Str.strip var) as [|c k] eqn:Hk; [simpl; now left|].
  destruct (Str.strip val) as [|d v] eqn:Hv; [simpl; now right|].
  set (var' := Str.lower (c :: k)). set (val' := d :: v).
  assert (Hval : val' <> []) by discriminate.
  assert (Hvar : c :: k <> []) by discriminate.
  change (negb (List.length var' =? 0)%nat && negb (List.length val' =? 0)%nat)
    with true.
  cbv iota.
  destruct (Str.startswith `"[" val' && Str.endswith `"]" val') eqn:Hb.
  - apply andb_prop in Hb.
    destruct (List.length (Str.strip_chars `"[]," val') =? 0)%nat;
      [now repeat split|].
    pose proof (floats_spec (Str.split 44 (Str.strip_chars `"[]," val')))
      as Hf.
    destruct Hb as [Hb1 Hb2].
    destruct (floats _) as [e|l];
      [repeat split; trivial; discriminate | now repeat split].
  - destruct (existsb (Str.eqb (Str.lower val')) [`"true"; `"y"]);
      [now repeat split|].
    destruct (existsb (Str.eqb (Str.lower val')) [`"false"; `"n"]);
      [now repeat split|].
    destruct (is_quote (hd_error val') && is_quote (hd_error (rev val')));
      [now repeat split|].
    destruct (scalar_feature_exists dfn val'); [now repeat split|].
    destruct (Num.of_str (Str.replace 44 46 val')); now repeat split.
Qed.

(** ** Reading a file *)

Lemma split_hd (sep : N) (l : str) :
  ~ In sep l -> hd [] (Str.split sep l) = l.
Proof.
  induction l as [|x l IH]; simpl; [reflexivity|].
  intros Hout. destruct (x =? sep)%N eqn:E.
  - apply N.eqb_eq in E. tauto.
  - assert (Hl : hd [] (Str.split sep l) = l) by tauto.
    destruct (Str.split sep l) as [|w ws]; simpl in *; now subst.
Qed.

Lemma split_hd_app (sep : N) (l c : str) :
  ~ In sep l -> hd [] (Str.split sep (l ++ sep :: c)) = l.
Proof.
  induction l as [|x l IH]; simpl.
  - now rewrite N.eqb_refl.
  - intros Hout. destruct (x =? sep)%N eqn:E.
    + apply N.eqb_eq in E. tauto.
    + assert (Hl : hd [] (Str.split sep (l ++ sep :: c)) = l) by tauto.
      destruct (Str.split sep (l ++ sep :: c)) as [|w ws]; simpl in *;
        now subst.
Qed.

(** In a line of a file, the hash sign and what follows it are skipped:
    the line is read as the text before the first hash sign.  A line with
    only white space before the hash sign changes nothing. *)
Theorem text_after_a_hash_sign_is_skipped
    (dfn : Definitions) (st : loader) (l c : str) :
  ~ In 35%N l ->
  load_line dfn st (l ++ 35%N :: c) = load_line dfn st l
  /\ (forallb Str.isspace l = true ->
      load_line dfn st (l ++ 35%N :: c) = ret st).
Proof.
  intros Hout. destruct st as [cfg sec]. unfold load_line.
  rewrite (split_hd_app 35 l c Hout), (split_hd 35 l Hout).
  split; [reflexivity|].
  intros Hblank. apply (strip_by_nil Str.isspace) in Hblank.
  unfold Str.strip. now rewrite Hblank.
Qed.

Lemma text_after_a_hash_sign_is_skipped_witness :
  load_line Sample.dfn ({| sections := [] |}, None)
    (`"[setup] " ++ 35%N :: `" the set-up")
  = load_line Sample.dfn ({| sections := [] |}, None) `"[setup] "
  /\ load_line Sample.dfn ({| sections := [] |}, None) `"[setup] "
     = ret ({| sections := [(KStr `"setup",
                             ConfigurationDict.__init__ None)] |},
            Some `"setup").
Proof.
  split; [|reflexivity].
  apply (text_after_a_hash_sign_is_skipped Sample.dfn
           ({| sections := [] |}, None) `"[setup] " `" the set-up").
  simpl. intuition discriminate.
Defined.

Lemma for_each_inv_warnings {A S : Type} (body : S -> A -> M S)
    (P : S -> Prop) (Q : warning -> Prop) :
  (forall s x ws r,
      P s -> body s x = (ws, r) ->
      Forall Q ws /\ forall s', r = inr s' -> P s') ->
  forall xs s ws r,
    P s -> for_each xs body s = (ws, r) ->
    Forall Q ws /\ forall s', r = inr s' -> P s'.
Proof.
  intros Hstep. induction xs as [|x xs IH]; intros s ws r Hs Hloop.
  - injection Hloop as <- <-. split; [constructor|].
    intros s' H. now injection H as <-.
  - cbn [for_each] in Hloop.
    destruct (body s x) as [ws1 [e|s1]] eqn:Hbody.
    + simpl in Hloop. injection Hloop as <- <-.
      destruct (Hstep _ _ _ _ Hs Hbody) as [Hws _]. split; [exact Hws|].
      discriminate.
    + destruct (Hstep _ _ _ _ Hs Hbody) as [Hws1 Hs1].
      destruct (for_each xs body s1) as [ws2 r2] eqn:Hrest.
      simpl in Hloop. rewrite Hrest in Hloop. injection Hloop as <- <-.
      destruct (IH s1 ws2 r2 (Hs1 s1 eq_refl) Hrest) as [Hws2 Hr2].
      split; [|exact Hr2]. apply Forall_app. now split.
Qed.

Section Loading.
Variable dfn : Definitions.

Lemma loaded_write (cfg : SectionMap) (x : key) (item : ConfigurationDict) :
  loaded cfg -> loaded_section item -> loaded (sm_setitem cfg x item).
Proof.
  intros (Hnd & Hnorm & Hall) Hitem. unfold loaded. simpl. repeat split.
  - now apply dict_set_NoDup.
  - apply dict_set_normal; [apply _k_idempotent | exact Hnorm].
  - now apply (dict_set_Forall loaded_section).
Qed.

Lemma loaded_read (cfg : SectionMap) (x : key) (item : ConfigurationDict) :
  loaded cfg -> sm_getitem cfg x = inr item -> loaded_section item.
Proof.
  intros (_ & _ & Hall). unfold sm_getitem, dict_getitem.
  destruct (dict_get (_k x) (sections cfg)) as [it|] eqn:E; [|discriminate].
  intros H. injection H as <-.
  eapply (dict_get_Forall loaded_section); eauto.
Qed.

Lemma loaded_section_setitem (item : ConfigurationDict) (k : key)
    (v : value) :
  loaded_section item ->
  str_nonempty v = true ->
  exists item',
    ConfigurationDict.__setitem__ dfn item k v
    = (if is_None v then [BadValue None (_k k)] else [], inr item')
    /\ loaded_section item'.
Proof.
  intros (Hsec & Hwf & Hvals) Hv.
  unfold ConfigurationDict.__setitem__, checked_section.
  rewrite Hsec. destruct (is_None v) eqn:Hnone; simpl.
  - exists item. split; [reflexivity|].
    exact (conj Hsec (conj Hwf Hvals)).
  - eexists. split; [reflexivity|]. split; [exact Hsec|].
    split; [now apply well_formed_set|]. simpl.
    apply (dict_set_Forall
             (fun v => is_None v = false /\ is_empty_str v = false));
      [exact Hvals|].
    split; [exact Hnone|]. destruct v as [| | | |[|c s]|]; trivial.
    discriminate.
Qed.

Lemma load_line_loaded (st : loader) (line : str) (ws : list warning)
    (r : exn + loader) :
  loaded (fst st) ->
  load_line dfn st line = (ws, r) ->
  Forall (fun w => exists k, w = BadValue None k) ws
  /\ forall st', r = inr st' -> loaded (fst st').
Proof.
  destruct st as [cfg sec]. intros Hcfg. simpl in Hcfg. unfold load_line.
  cbv zeta. set (text := Str.strip (hd [] (Str.split 35 line))).
  assert (Hret : forall (st0 : loader),
             loaded (fst st0) ->
             ret st0 = (ws, r) ->
             Forall (fun w => exists k, w = BadValue None k) ws
             /\ forall st', r = inr st' -> loaded (fst st')).
  { intros st0 Hst0 H. injection H as <- <-. split; [constructor|].
    intros st' H. now injection H as <-. }
  assert (Hraise : forall (e : exn) (ws0 : list warning),
             (ws0, @inl exn loader e) = (ws, r) -> ws0 = [] ->
             Forall (fun w => exists k, w = BadValue None k) ws
             /\ forall st', r = inr st' -> loaded (fst st')).
  { intros e ws0 H ->. injection H as <- <-. split; [constructor|].
    discriminate. }
  destruct (negb (List.length text =? 0)%nat); [|now apply Hret].
  destruct (Str.startswith `"[" text && Str.endswith `"]" text).
  { apply Hret. simpl.
    destruct (negb (sm_contains cfg (KStr (Str.lower (Str.slice 1 1 text)))));
      [|exact Hcfg].
    apply loaded_write; [exact Hcfg|].
    repeat split; constructor. }
  destruct (Str.count 61 text =? 0)%nat; [now apply Hret|].
  destruct (Str.split1 61 text) as [|var [|val [|x rest]]];
    try (intros H; now apply (Hraise ValueError [])).
  set (val' := Str.strip _).
  destruct (List.length val' =? 0)%nat; [now apply Hret|].
  destruct sec as [sec|];
    [|intros H; now apply (Hraise UnboundLocalError [])].
  set (read := if config_key_exists dfn (KStr sec) _ then _ else _).
  assert (Hread : exists res : exn + str * value, read = ([], res)).
  { unfold read.
    destruct (config_key_exists dfn (KStr sec) _).
    - destruct (get_config_value_func dfn _ _ _) as [e|v]; simpl; eauto.
    - destruct (keyval_str2typ dfn _ _) as [e|[[k v]|]]; simpl; eauto. }
  destruct Hread as [[e|[k v]] ->]; simpl;
    [intros H; now apply (Hraise e [])|].
  destruct (negb (List.length k =? 0)%nat && str_nonempty v) eqn:Hok;
    [|now apply Hret].
  apply andb_prop in Hok as [_ Hv].
  destruct (sm_getitem cfg (KStr sec)) as [e|item] eqn:Hitem; simpl;
    [intros H; now apply (Hraise e [])|].
  destruct (loaded_section_setitem item (KStr k) v
              (loaded_read _ _ _ Hcfg Hitem) Hv) as (item' & Hset & Hitem').
  rewrite Hset. simpl. intros H. injection H as <- <-. split.
  - rewrite app_nil_r. destruct (is_None v); repeat constructor. eauto.
  - intros st' H. injection H as <-. simpl. now apply loaded_write.
Qed.

End Loading.

(** Whatever the lines of the file, [load_from_file] warns only of values
    that are [None], and the section map that it returns, when it returns,
    has lower-cased, distinct section names; its sections do not check,
    have lower-cased, distinct keys, and hold neither [None] nor the empty
    string. *)
Theorem load_from_file_returns_sections_that_do_not_check
    (dfn : Definitions) (code : list str) :
  Forall (fun w => exists k, w = BadValue None k)
    (warnings (load_from_file dfn code))
  /\ match snd (load_from_file dfn code) with
     | inr m => loaded m
     | inl _ => True
     end.
Proof.
  unfold load_from_file, warnings.
  destruct (for_each code (load_line dfn) ({| sections := [] |}, None))
    as [ws r] eqn:Hloop.
  apply (for_each_inv_warnings (load_line dfn)
           (fun st => loaded (fst st))
           (fun w => exists k, w = BadValue None k)) in Hloop.
  - destruct Hloop as [Hws Hr]. destruct r as [e|st]; simpl.
    + now split.
    + rewrite app_nil_r. split; [exact Hws|]. now apply Hr.
  - intros s x ws0 r0 Hs Hbody. eapply load_line_loaded; eauto.
  - repeat split; constructor.
Qed.

(** ** Integers in the text format *)

Lemma size_nat_bound (p : positive) :
  (Npos p < 2 ^ N.of_nat (Pos.size_nat p))%N.
Proof.
  induction p as [p IH|p IH|]; cbn [Pos.size_nat].
  - rewrite Nat2N.inj_succ, N.pow_succ_r'.
    change (N.pos p~1) with (2 * N.pos p + 1)%N. lia.
  - rewrite Nat2N.inj_succ, N.pow_succ_r'.
    change (N.pos p~0) with (2 * N.pos p)%N. lia.
  - reflexivity.
Qed.

Lemma decimal_fuel (n : N) : (n < 10 ^ N.of_nat (S (N.size_nat n)))%N.
Proof.
  rewrite Nat2N.inj_succ, N.pow_succ_r'.
  assert (H : (n < 2 ^ N.of_nat (N.size_nat n))%N).
  { destruct n as [|p]; [simpl; lia | apply size_nat_bound]. }
  assert (H' : (2 ^ N.of_nat (N.size_nat n)
                <= 10 ^ N.of_nat (N.size_nat n))%N)
    by (apply N.pow_le_mono_l; lia).
  lia.
Qed.

Lemma is_digit_mod (n : N) : Num.is_digit (48 + n mod 10) = true.
Proof.
  unfold Num.is_digit, Str.between.
  assert (H : (n mod 10 < 10)%N) by (apply N.mod_lt; lia).
  revert H. generalize (n mod 10)%N. intros r H.
  apply andb_true_intro. split; apply N.leb_le; lia.
Qed.

Lemma digits_aux_spec (fuel : nat) :
  forall (n : N) (acc : str),
    (n < 10 ^ N.of_nat (S fuel))%N ->
    exists ds,
      Num.digits_aux (S fuel) n acc = ds ++ acc
      /\ ds <> []
      /\ Forall (fun c => Num.is_digit c = true) ds
      /\ forall a,
           fold_left Num.push ds a
           = ((fst a * 10 ^ N.of_nat (List.length ds) + n)%N,
              (snd a + List.length ds)%nat).
Proof.
  induction fuel as [|fuel IH]; intros n acc Hn.
  - exists [(48 + n mod 10)%N].
    change (10 ^ N.of_nat 1)%N with 10%N in Hn.
    rewrite (N.mod_small n 10 Hn).
    split; [|split; [discriminate|split]].
    + cbn [Num.digits_aux]. rewrite (N.mod_small n 10 Hn).
      now destruct (n / 10 =? 0)%N.
    + constructor; [|constructor].
      rewrite <- (N.mod_small n 10 Hn). apply is_digit_mod.
    + intros [a c]. unfold Num.push. cbn [fold_left fst snd List.length].
      change (N.of_nat 1) with 1%N. rewrite N.pow_1_r. f_equal; lia.
  - cbn [Num.digits_aux].
    destruct (n / 10 =? 0)%N eqn:E.
    + exists [(48 + n mod 10)%N].
      apply N.eqb_eq in E.
      assert (Hsmall : (n < 10)%N).
      { destruct (N.lt_ge_cases n 10) as [H|H]; [exact H|].
        assert (1 <= n / 10)%N
          by (apply N.div_le_lower_bound; lia).
        lia. }
      rewrite (N.mod_small n 10 Hsmall).
      split; [reflexivity|split; [discriminate|split]].
      * constructor; [|constructor].
        rewrite <- (N.mod_small n 10 Hsmall). apply is_digit_mod.
      * intros [a c]. unfold Num.push. cbn [fold_left fst snd List.length].
        change (N.of_nat 1) with 1%N. rewrite N.pow_1_r. f_equal; lia.
    + assert (Hdiv : (n / 10 < 10 ^ N.of_nat (S fuel))%N).
      { apply N.Div0.div_lt_upper_bound.
        rewrite (Nat2N.inj_succ (S fuel)), N.pow_succ_r' in Hn. exact Hn. }
      destruct (IH (n / 10)%N ((48 + n mod 10)%N :: acc) Hdiv)
        as (ds & Hds & Hne & Hdigits & Hval).
      exists (ds ++ [(48 + n mod 10)%N]).
      split; [|split; [|split]].
      * cbn [Num.digits_aux] in Hds. rewrite Hds.
        now rewrite <- app_assoc.
      * destruct ds; discriminate.
      * apply Forall_app. split; [exact Hdigits|].
        constructor; [apply is_digit_mod | constructor].
      * intros a. rewrite fold_left_app, Hval. unfold Num.push.
        cbn [fold_left fst snd]. rewrite length_app. cbn [List.length].
        rewrite Nat2N.inj_add, N.pow_add_r. change (N.of_nat 1) with 1%N.
        rewrite N.pow_1_r.
        assert (Hdm : n = (10 * (n / 10) + n mod 10)%N)
          by (apply N.div_mod; discriminate).
        revert Hdm. generalize (n / 10)%N (n mod 10)%N. intros q r Hdm.
        f_equal; [|lia].
        replace (48 + r - 48)%N with r by lia.
        rewrite Hdm. lia.
Qed.

Lemma digitpart_rest_digits (ds : str) :
  Forall (fun c => Num.is_digit c = true) ds ->
  forall a, Num.digitpart_rest ds a = (fold_left Num.push ds a, []).
Proof.
  induction ds as [|c ds IH]; intros Hds a; [reflexivity|].
  inversion Hds as [|? ? Hc Hds']; subst. cbn [Num.digitpart_rest fold_left].
  rewrite Hc. now apply IH.
Qed.

Lemma decimal_spec (n : N) :
  exists c ds,
    Num.decimal n = c :: ds
    /\ Forall (fun c => Num.is_digit c = true) (c :: ds)
    /\ Num.number (c :: ds) = Some ((n, O), []).
Proof.
  destruct (digits_aux_spec (N.size_nat n) n [] (decimal_fuel n))
    as (ds & Hds & Hne & Hdigits & Hval).
  rewrite app_nil_r in Hds. destruct ds as [|c ds]; [congruence|].
  exists c, ds. split; [exact Hds|]. split; [exact Hdigits|].
  inversion Hdigits as [|? ? Hc Hrest]; subst.
  unfold Num.number, Num.digitpart. rewrite Hc.
  rewrite (digitpart_rest_digits ds Hrest).
  specialize (Hval (0%N, O)). cbn [fold_left] in Hval.
  rewrite Hval. cbn [fst]. now rewrite N.mul_0_l, N.add_0_l.
Qed.

Lemma digit_range (c : N) : Num.is_digit c = true -> (48 <= c <= 57)%N.
Proof.
  unfold Num.is_digit, Str.between. intros H.
  apply andb_prop in H as [H1 H2].
  apply N.leb_le in H1. apply N.leb_le in H2. now split.
Qed.

Lemma plain_char (c : N) :
  (45 <= c <= 57)%N ->
  Str.isspace c = false
  /\ Str.lower_cp c = c
  /\ (if (c =? 44)%N then 46%N else c) = c
  /\ (c =? quote)%N || (c =? dquote)%N = false
  /\ (91 =? c)%N = false.
Proof.
  intros Hc. unfold Str.isspace, Str.lower_cp, Str.between, quote, dquote.
  repeat split;
    repeat (case_step; simpl; try (exfalso; lia)); reflexivity.
Qed.

Lemma of_decimal_integer (z : Z) :
  Num.of_decimal (z <? 0)%Z (Z.abs_N z) 0 = Num.of_Z z.
Proof.
  destruct z as [|p|p]; [reflexivity| |];
    unfold Num.of_decimal, Num.of_Z, binary_normalize; simpl;
    now rewrite Pos.mul_1_r.
Qed.

Lemma dropwhile_none (p : N -> bool) (s : str) :
  Forall (fun c => p c = false) s -> Str.dropwhile p s = s.
Proof.
  intros H. destruct s as [|c s]; [reflexivity|].
  inversion H as [|? ? Hc _]; subst. simpl. now rewrite Hc.
Qed.

Lemma strip_by_none (p : N -> bool) (s : str) :
  Forall (fun c => p c = false) s -> Str.strip_by p s = s.
Proof.
  intros H. unfold Str.strip_by. rewrite (dropwhile_none p s H).
  rewrite dropwhile_none; [apply rev_involutive|].
  now apply Forall_rev.
Qed.

Lemma Str_eqb_head (c d : N) (s t : str) :
  c <> d -> Str.eqb (c :: s) (d :: t) = false.
Proof.
  intros Hne. destruct (Str.eqb (c :: s) (d :: t)) eqn:E; [|reflexivity].
  apply Str_eqb_eq in E. congruence.
Qed.

(** The text of an integer: a minus sign for a negative one, then digits
    that [float] reads as the nearest float. *)
Lemma format_int_spec (z : Z) :
  exists c s,
    Num.format_int z = c :: s
    /\ Forall (fun c => (45 <= c <= 57)%N) (c :: s)
    /\ Num.of_str (c :: s) = Some (Num.of_Z z).
Proof.
  assert (Hplain : forall ds,
             Forall (fun c => Num.is_digit c = true) ds ->
             Forall (fun c => (45 <= c <= 57)%N) ds).
  { intros ds. apply Forall_impl. intros c Hc. apply digit_range in Hc. lia. }
  assert (Hstrip : forall s,
             Forall (fun c => (45 <= c <= 57)%N) s -> Str.strip s = s).
  { intros s Hs. apply strip_by_none. revert Hs. apply Forall_impl.
    intros c Hc. now apply plain_char. }
  assert (Hread : forall s neg c ds n,
             Num.take_sign (Str.strip s) = (neg, c :: ds) ->
             Forall (fun c => Num.is_digit c = true) (c :: ds) ->
             Num.number (c :: ds) = Some ((n, O), []) ->
             Num.of_str s = Some (Num.of_decimal neg n 0)).
  { intros s neg c ds n Htake Hds Hnum. unfold Num.of_str.
    rewrite Htake. cbv zeta. cbn [Num.ascii_lower map].
    inversion Hds as [|? ? Hc _]; subst. apply digit_range in Hc.
    assert (Hlow : (if Str.between 65 90 c then (c + 32)%N else c) = c).
    { unfold Str.between.
      repeat (case_step; simpl; try (exfalso; lia)); reflexivity. }
    rewrite Hlow.
    change (`"inf") with [105%N; 110%N; 102%N].
    change (`"nan") with [110%N; 97%N; 110%N].
    change (`"infinity")
      with [105%N; 110%N; 102%N; 105%N; 110%N; 105%N; 116%N; 121%N].
    rewrite !Str_eqb_head by lia. cbn [orb].
    rewrite Hnum. reflexivity. }
  unfold Num.format_int. destruct (z <? 0)%Z eqn:Hneg.
  - destruct (decimal_spec (Z.abs_N z)) as (c & ds & Hdec & Hdigits & Hnum).
    rewrite Hdec. change (`"-" ++ c :: ds) with (45%N :: c :: ds).
    exists 45%N, (c :: ds).
    assert (Hall : Forall (fun c => (45 <= c <= 57)%N) (45%N :: c :: ds))
      by (constructor; [lia | now apply Hplain]).
    split; [reflexivity|]. split; [exact Hall|].
    rewrite (Hread (45%N :: c :: ds) true c ds (Z.abs_N z));
      [|now rewrite (Hstrip _ Hall) | exact Hdigits | exact Hnum].
    rewrite <- of_decimal_integer. now rewrite Hneg.
  - destruct (decimal_spec (Z.to_N z)) as (c & ds & Hdec & Hdigits & Hnum).
    rewrite Hdec. exists c, ds.
    assert (Hall : Forall (fun c => (45 <= c <= 57)%N) (c :: ds))
      by now apply Hplain.
    split; [reflexivity|]. split; [exact Hall|].
    assert (Hsign : Num.take_sign (c :: ds) = (false, c :: ds)).
    { inversion Hdigits as [|? ? Hc _]; subst. apply digit_range in Hc.
      unfold Num.take_sign.
      destruct c as [|p]; [lia|].
      do 6 (destruct p as [p|p|]; try lia; try reflexivity). }
    rewrite (Hread (c :: ds) false c ds (Z.to_N z));
      [|now rewrite (Hstrip _ Hall) | exact Hdigits | exact Hnum].
    rewrite <- of_decimal_integer, Hneg.
    apply Z.ltb_ge in Hneg. f_equal. f_equal.
    destruct z; simpl; try reflexivity. lia.
Qed.

(** The text format keeps truth values and loses integers: what
    [keyval_typ2str] writes for a truth value, [keyval_str2typ] reads back
    as that truth value; what it writes for an integer is read back as
    the float nearest to the integer, unless the text of the integer is
    the name of a scalar feature.  The integer has at most 4300 digits:
    the interpreter refuses to convert a longer one to text. *)
Theorem integers_are_read_back_as_floats
    (dfn : Definitions) (var : str) (z : Z) :
  Str.strip var <> [] ->
  (Z.abs z < 10 ^ 4300)%Z ->
  scalar_feature_exists dfn (Num.format_int z) = false ->
  keyval_str2typ dfn var (VStr (snd (keyval_typ2str var (VInt z))))
  = inr (Some (Str.lower (Str.strip var), VFloat (Num.of_Z z)))
  /\ forall b,
       keyval_str2typ dfn var (VStr (snd (keyval_typ2str var (VBool b))))
       = inr (Some (Str.lower (Str.strip var), VBool b)).
Proof.
  intros Hvar _ Hfeat.
  assert (Hlen : negb (List.length (Str.lower (Str.strip var)) =? 0)%nat
                 = true).
  { destruct (Str.strip var); [congruence | reflexivity]. }
  split.
  - destruct (format_int_spec z) as (c & s & Hfmt & Hall & Hof).
    cbn [keyval_typ2str snd format_plain]. rewrite Hfmt in *.
    assert (Hchars : forall x, In x (c :: s) -> (45 <= x <= 57)%N)
      by now apply Forall_forall.
    assert (Hc : (45 <= c <= 57)%N) by (apply Hchars; now left).
    destruct (plain_char c Hc) as (_ & _ & _ & Hquote & Hbracket).
    assert (Hstrip : Str.strip (c :: s) = c :: s).
    { apply strip_by_none. revert Hall. apply Forall_impl.
      intros x Hx. now apply plain_char. }
    assert (Hlower : Str.lower (c :: s) = c :: s).
    { unfold Str.lower. rewrite <- (map_id (c :: s)) at 2.
      apply map_ext_in. intros x Hx. now apply plain_char, Hchars. }
    assert (Hreplace : Str.replace 44 46 (c :: s) = c :: s).
    { unfold Str.replace. rewrite <- (map_id (c :: s)) at 2.
      apply map_ext_in. intros x Hx. now apply plain_char, Hchars. }
    unfold keyval_str2typ. rewrite Hstrip, Hlen, Hlower, Hreplace, Hof, Hfeat.
    change (`"[") with [91%N]. cbn [Str.startswith List.length Nat.eqb negb].
    rewrite Hbracket. cbn [andb existsb hd_error is_quote].
    change (`"true") with [116%N; 114%N; 117%N; 101%N].
    change (`"y") with [121%N].
    change (`"false") with [102%N; 97%N; 108%N; 115%N; 101%N].
    change (`"n") with [110%N].
    rewrite !Str_eqb_head by lia. rewrite Hquote. reflexivity.
  - intros b. unfold keyval_str2typ. rewrite Hlen.
    destruct b; reflexivity.
Qed.

Lemma integers_are_read_back_as_floats_witness :
  keyval_str2typ Sample.dfn `" Limit Events "
    (VStr (snd (keyval_typ2str `" Limit Events " (VInt 20))))
  = inr (Some (Str.lower (Str.strip `" Limit Events "),
               VFloat (Num.of_Z 20)))
  /\ Str.lower (Str.strip `" Limit Events ") = `"limit events"
  /\ Num.of_Z 20 = S754_finite false 5629499534213120 (-48).
Proof.
  split; [|split; reflexivity].
  apply (integers_are_read_back_as_floats Sample.dfn `" Limit Events " 20).
  - discriminate.
  - vm_compute. reflexivity.
  - reflexivity.
Defined.

(** ** The constructor of a dictionary with entries *)

Lemma dict_set_fresh {V : Type} (d : pydict V) (k : key) (v : V) :
  ~ In k (dict_keys d) -> dict_set k v d = d ++ [(k, v)].
Proof.
  induction d as [|[k0 v0] d IH]; simpl; [reflexivity|].
  intros Hout. destruct (key_eqb k0 k) eqn:E.
  - apply key_eqb_eq in E. tauto.
  - rewrite IH; tauto.
Qed.

Section ConvertKeys.
Variable dfn : Definitions.

Lemma convert_keys_from (self : ConfigurationDict) (p : pydict value) :
  checked_section self = None ->
  forall q,
    NoDup (dict_keys (p ++ q)) ->
    normal_keys (p ++ q) ->
    Forall (fun kv => is_None (snd kv) = false) p ->
    for_each (dict_keys p)
      (fun self k =>
         v <- lift (ConfigurationDict.__getitem__ self k) ;;
         self <- lift (ConfigurationDict.__delitem__ self k) ;;
         ConfigurationDict.__setitem__ dfn self k v)
      (with_data self (p ++ q))
    = ([], inr (with_data self (q ++ p))).
Proof.
  intros Hsec. induction p as [|[k v] p IH]; intros q Hnd Hnorm Hvals.
  - simpl. now rewrite app_nil_r.
  - cbn [dict_keys map fst for_each].
    inversion Hnd as [|? ? Hout Hnd']; subst.
    inversion Hnorm as [|? ? Hk Hnorm']; subst. simpl in Hk.
    inversion Hvals as [|? ? Hv Hvals']; subst. simpl in Hv.
    assert (Hget : ConfigurationDict.__getitem__
                     (with_data self (((k, v) :: p) ++ q)) k = inr v).
    { unfold ConfigurationDict.__getitem__, dict_getitem. simpl.
      now rewrite Hk, key_eqb_refl. }
    assert (Hdel : ConfigurationDict.__delitem__
                     (with_data self (((k, v) :: p) ++ q)) k
                   = inr (with_data self (p ++ q))).
    { unfold ConfigurationDict.__delitem__, dict_delitem, dict_contains.
      simpl. now rewrite Hk, key_eqb_refl. }
    assert (Hset : ConfigurationDict.__setitem__ dfn
                     (with_data self (p ++ q)) k v
                   = ([], inr (with_data self (p ++ (q ++ [(k, v)]))))).
    { rewrite cd_setitem_unchecked; [|exact Hsec|exact Hv].
      unfold with_data. simpl. rewrite Hk.
      rewrite dict_set_fresh by exact Hout. now rewrite app_assoc. }
    rewrite Hget. change (lift (inr v)) with (ret v). rewrite bind_ret.
    rewrite Hdel.
    change (lift (inr (with_data self (p ++ q))))
      with (ret (with_data self (p ++ q))).
    rewrite bind_ret, Hset.
    change (@pair (list warning) (exn + ConfigurationDict) []
              (inr (with_data self (p ++ q ++ [(k, v)]))))
      with (ret (with_data self (p ++ q ++ [(k, v)]))).
    rewrite bind_ret.
    fold (dict_keys p). rewrite IH.
    + now rewrite <- app_assoc.
    + unfold dict_keys in *. rewrite app_assoc, map_app.
      apply NoDup_app; [exact Hnd' | repeat constructor; simpl; tauto|].
      intros x Hx [<-|[]]. contradiction.
    + unfold normal_keys in *. rewrite app_assoc.
      apply Forall_app. split; [exact Hnorm'|]. now repeat constructor.
    + exact Hvals'.
Qed.

Lemma stored_all_kept (l : pydict value) (self : ConfigurationDict) :
  well_formed self ->
  Forall (fun kv => is_None (snd kv) = false) (data self) ->
  well_formed (fold_left stored l self)
  /\ Forall (fun kv => is_None (snd kv) = false)
       (data (fold_left stored l self)).
Proof.
  revert self. induction l as [|[k v] l IH]; intros self Hwf Hvals;
    [now split|].
  cbn [fold_left]. apply IH; unfold stored; simpl;
    destruct (is_None v) eqn:Hv; trivial.
  - now apply well_formed_set.
  - simpl.
    now apply (dict_set_Forall (fun v => is_None v = false)).
Qed.

End ConvertKeys.

(** [ConfigurationDict(None, E)], a dictionary without a section made of
    the entries of [E]: it holds the entries of [E] whose value is not
    [None], in their order, under lower-cased keys, a later entry taking
    the place of an earlier one with the same lower-cased key; one
    bad-value warning is emitted for each value [None].  The pass over
    the keys that ends the constructor, [_convert_keys], leaves such a
    dictionary as it is, also in the order of its entries. *)
Theorem constructor_without_section_stores_the_entries
    (dfn : Definitions) (E : pydict value) :
  NoDup (dict_keys E) ->
  ConfigurationDict.__init__with dfn None E
  = (bad_values None E,
     inr (fold_left stored E (ConfigurationDict.__init__ None)))
  /\ well_formed (fold_left stored E (ConfigurationDict.__init__ None))
  /\ ConfigurationDict._convert_keys dfn
       (fold_left stored E (ConfigurationDict.__init__ None))
     = ([], inr (fold_left stored E (ConfigurationDict.__init__ None))).
Proof.
  intros Hnd.
  set (self := fold_left stored E (ConfigurationDict.__init__ None)).
  assert (Hsec : checked_section self = None).
  { unfold checked_section, self. now rewrite stored_all_section. }
  destruct (stored_all_kept E (ConfigurationDict.__init__ None))
    as [Hwf Hvals]; [split; constructor | constructor |].
  fold self in Hwf, Hvals.
  assert (Hconv : ConfigurationDict._convert_keys dfn self = ([], inr self)).
  { unfold ConfigurationDict._convert_keys.
    pose proof (convert_keys_from dfn self (data self) Hsec []) as H.
    rewrite app_nil_r in H. simpl in H.
    replace (with_data self (data self)) with self in H
      by now destruct self.
    apply H; [apply Hwf | apply Hwf | exact Hvals]. }
  split; [|split; [exact Hwf | exact Hconv]].
  unfold ConfigurationDict.__init__with.
  rewrite (update_unchecked dfn E (ConfigurationDict.__init__ None)
             eq_refl Hnd).
  fold self. rewrite bind_value, Hconv. simpl. now rewrite app_nil_r.
Qed.

Lemma constructor_without_section_stores_the_entries_witness :
  ConfigurationDict.__init__with Sample.dfn None
    [(KStr `"Flow Rate", VInt 1); (KStr `"b", VNone);
     (KStr `"flow rate", VInt 2)]
  = ([BadValue None (KStr `"b")],
     inr {| section := None; data := [(KStr `"flow rate", VInt 2)] |}).
Proof.
  refine (proj1 (constructor_without_section_stores_the_entries Sample.dfn
                   [(KStr `"Flow Rate", VInt 1); (KStr `"b", VNone);
                    (KStr `"flow rate", VInt 2)] _)).
  repeat constructor; simpl; intuition discriminate.
Defined.

(** ** What reading a file raises *)

Lemma for_each_inv_result {A S : Type} (body : S -> A -> M S)
    (P : S -> Prop) (Q : exn -> Prop) :
  (forall s x ws r,
      P s -> body s x = (ws, r) ->
      match r with
      | inl e => Q e
      | inr s' => P s'
      end) ->
  forall xs s ws r,
    P s -> for_each xs body s = (ws, r) ->
    match r with
    | inl e => Q e
    | inr s' => P s'
    end.
Proof.
  intros Hstep. induction xs as [|x xs IH]; intros s ws r Hs Hloop.
  - injection Hloop as <- <-. exact Hs.
  - cbn [for_each] in Hloop.
    destruct (body s x) as [ws1 [e|s1]] eqn:Hbody.
    + simpl in Hloop. injection Hloop as <- <-.
      apply (Hstep _ _ _ _ Hs Hbody).
    + pose proof (Hstep _ _ _ _ Hs Hbody) as Hs1.
      destruct (for_each xs body s1) as [ws2 r2] eqn:Hrest.
      simpl in Hloop. rewrite Hrest in Hloop. injection Hloop as <- <-.
      apply (IH s1 ws2 r2 Hs1 Hrest).
Qed.

Lemma keyval_str2typ_raises (dfn : Definitions) (var : str) (val : value)
    (e : exn) :
  keyval_str2typ dfn var val = inl e -> e = ValueError.
Proof.
  unfold keyval_str2typ. destruct val as [| | | |val|]; try discriminate.
  destruct (negb _ && negb _); [|discriminate].
  destruct (Str.startswith `"[" (Str.strip val)
            && Str.endswith `"]" (Str.strip val)).
  - destruct (List.length _ =? 0)%nat; [discriminate|].
    pose proof (floats_spec
                  (Str.split 44 (Str.strip_chars `"[]," (Str.strip val))))
      as Hf.
    destruct (floats _) as [e'|l]; [|discriminate].
    intros H. injection H as <-. exact Hf.
  - repeat match goal with
           | |- context [if ?c then _ else _] => destruct c
           end; try discriminate.
    destruct (Num.of_str _); discriminate.
Qed.

Lemma sm_contains_setitem (cfg : SectionMap) (x : key)
    (item : ConfigurationDict) :
  sm_contains (sm_setitem cfg x item) x = true.
Proof.
  unfold sm_contains, sm_setitem, dict_contains. simpl.
  now rewrite dict_get_set_same.
Qed.

Section LoadingRaises.
Variable dfn : Definitions.

Lemma load_line_raises (st : loader) (line : str) (ws : list warning)
    (r : exn + loader) :
  loaded (fst st) -> headed st ->
  load_line dfn st line = (ws, r) ->
  match r with
  | inl e => read_error dfn e
  | inr st' => headed st'
  end.
Proof.
  destruct st as [cfg sec]. intros Hcfg Hsec. simpl in Hcfg.
  unfold load_line. cbv zeta.
  set (text := Str.strip (hd [] (Str.split 35 line))).
  assert (Hret : forall (st0 : loader),
             headed st0 ->
             ret st0 = (ws, r) ->
             match r with
             | inl e => read_error dfn e
             | inr st' => headed st'
             end).
  { intros st0 Hst0 H. injection H as <- <-. exact Hst0. }
  assert (Hraise : forall (e : exn) (ws0 : list warning),
             read_error dfn e ->
             (ws0, @inl exn loader e) = (ws, r) ->
             match r with
             | inl e => read_error dfn e
             | inr st' => headed st'
             end).
  { intros e ws0 He H. injection H as <- <-. exact He. }
  destruct (negb (List.length text =? 0)%nat); [|now apply Hret].
  destruct (Str.startswith `"[" text && Str.endswith `"]" text).
  { apply Hret. intros s Hs. injection Hs as <-. simpl.
    destruct (sm_contains cfg (KStr (Str.lower (Str.slice 1 1 text))))
      eqn:E; simpl; [exact E | apply sm_contains_setitem]. }
  destruct (Str.count 61 text =? 0)%nat; [now apply Hret|].
  assert (Hvalue : read_error dfn ValueError) by (right; right; now left).
  destruct (Str.split1 61 text) as [|var [|val [|x rest]]];
    try (now apply (Hraise ValueError [])).
  set (val' := Str.strip _).
  destruct (List.length val' =? 0)%nat; [now apply Hret|].
  destruct sec as [sec|];
    [|apply (Hraise UnboundLocalError []); now left].
  set (var' := Str.lower (Str.strip var)).
  destruct (config_key_exists dfn (KStr sec) (KStr var')) eqn:Hknown.
  - destruct (get_config_value_func dfn (KStr sec) (KStr var')
                (VStr val')) as [e|v] eqn:Hconv; simpl.
    + apply (Hraise e []). right; right; right.
      now exists (KStr sec), (KStr var'), (VStr val').
    + destruct (negb (List.length var' =? 0)%nat && str_nonempty v)
        eqn:Hok; [|now apply Hret].
      apply andb_prop in Hok as [_ Hv].
      destruct (sm_contains_getitem cfg (KStr sec) (Hsec sec eq_refl))
        as [item Hitem].
      rewrite Hitem. simpl.
      destruct (loaded_section_setitem dfn item (KStr var') v
                  (loaded_read _ _ _ Hcfg Hitem) Hv)
        as (item' & Hset & _).
      rewrite Hset. simpl. intros H. injection H as <- <-.
      intros s Hs. injection Hs as <-. apply sm_contains_setitem.
  - destruct (keyval_str2typ dfn var' (VStr val')) as [e|[[k v]|]] eqn:Hread;
      simpl.
    + apply keyval_str2typ_raises in Hread. subst e.
      now apply (Hraise ValueError []).
    + destruct (negb (List.length k =? 0)%nat && str_nonempty v)
        eqn:Hok; [|now apply Hret].
      apply andb_prop in Hok as [_ Hv].
      destruct (sm_contains_getitem cfg (KStr sec) (Hsec sec eq_refl))
        as [item Hitem].
      rewrite Hitem. simpl.
      destruct (loaded_section_setitem dfn item (KStr k) v
                  (loaded_read _ _ _ Hcfg Hitem) Hv)
        as (item' & Hset & _).
      rewrite Hset. simpl. intros H. injection H as <- <-.
      intros s Hs. injection Hs as <-. apply sm_contains_setitem.
    + apply (Hraise TypeError []). right. now left.
Qed.

End LoadingRaises.

(** Whatever the lines of the file, an exception that [load_from_file]
    raises is [UnboundLocalError], [TypeError], [ValueError], or the
    exception of a coercion function of the schema, called for a key that
    the schema knows.  The lookup of the section of a key line and the
    assignment to it raise nothing of their own. *)
Theorem load_from_file_raises_four_kinds_of_exceptions
    (dfn : Definitions) (code : list str) :
  match snd (load_from_file dfn code) with
  | inl e =>
      e = UnboundLocalError \/ e = TypeError \/ e = ValueError
      \/ raised_by_coercion dfn e
  | inr _ => True
  end.
Proof.
  unfold load_from_file.
  destruct (for_each code (load_line dfn) ({| sections := [] |}, None))
    as [ws r] eqn:Hloop.
  apply (for_each_inv_result (load_line dfn)
           (fun st => loaded (fst st) /\ headed st) (read_error dfn))
    in Hloop.
  - destruct r as [e|st]; simpl; [exact Hloop | trivial].
  - intros s x ws0 r0 [Hs1 Hs2] Hbody.
    pose proof (load_line_raises dfn s x ws0 r0 Hs1 Hs2 Hbody) as Hr.
    destruct r0 as [e|s']; [exact Hr|]. split; [|exact Hr].
    now apply (load_line_loaded dfn s x ws0 (inr s') Hs1 Hbody).
  - split; [repeat split; constructor | discriminate].
Qed.

(** ** What an assignment changes *)

(** When an assignment returns, the dictionary has the same section, its
    keys are in the same order, with the lower-cased key of the assignment
    appended when it was not there and a value was stored, and every key
    that differs from it after lower-casing reads as before. *)
Theorem setitem_changes_one_key
    (dfn : Definitions) (self self' : ConfigurationDict) (k : key)
    (v : value) (ws : list warning) :
  ConfigurationDict.__setitem__ dfn self k v = (ws, inr self') ->
  section self' = section self
  /\ (dict_keys (data self') = dict_keys (data self)
      \/ (ConfigurationDict.__contains__ self k = false
          /\ dict_keys (data self') = dict_keys (data self) ++ [_k k]))
  /\ (ConfigurationDict.__contains__ self k = true ->
      ConfigurationDict.__contains__ self' k = true)
  /\ forall k', _k k' <> _k k ->
       ConfigurationDict.__getitem__ self' k'
       = ConfigurationDict.__getitem__ self k'.
Proof.
  intros H. apply cd_setitem_inv in H as [-> | [v' ->]].
  - repeat split; auto.
  - unfold ConfigurationDict.__contains__, ConfigurationDict.__getitem__,
      dict_getitem. simpl. split; [reflexivity|]. split; [|split].
    + rewrite dict_keys_set.
      destruct (dict_contains (_k k) (data self)); [now left | now right].
    + intros Hin. now apply dict_contains_set.
    + intros k' Hne. rewrite dict_get_set_other; [reflexivity|congruence].
Qed.

Lemma setitem_changes_one_key_witness :
  exists ws self',
    ConfigurationDict.__setitem__ Sample.dfn setup_dict
      (KStr `"Channel Width") (VInt 20)
    = (ws, inr self')
    /\ dict_keys (data self') = [KStr `"channel width"]
    /\ section self' = section setup_dict.
Proof.
  eexists. eexists. split; [vm_compute; reflexivity|].
  split; [reflexivity|].
  refine (proj1 (setitem_changes_one_key Sample.dfn setup_dict _
                   (KStr `"Channel Width") (VInt 20) _ _)).
  vm_compute. reflexivity.
Defined.

(** ** Floats in the text format *)

Lemma digits_aux_S (fuel : nat) (n : N) (acc : str) :
  Num.digits_aux (S fuel) n acc
  = if (n / 10 =? 0)%N then (48 + n mod 10)%N :: acc
    else Num.digits_aux fuel (n / 10) ((48 + n mod 10)%N :: acc).
Proof. reflexivity. Qed.

Lemma digits_aux_length (fuel : nat) :
  forall (n : N) (acc : str) (k : nat),
    (n < 10 ^ N.of_nat (S k))%N ->
    (List.length (Num.digits_aux (S fuel) n acc)
     <= S k + List.length acc)%nat.
Proof.
  induction fuel as [|fuel IH]; intros n acc k Hn.
  - cbn [Num.digits_aux]. destruct (n / 10 =? 0)%N; simpl; lia.
  - rewrite digits_aux_S. destruct (n / 10 =? 0)%N eqn:E; [simpl; lia|].
    apply N.eqb_neq in E.
    destruct k as [|k].
    + change (10 ^ N.of_nat 1)%N with 10%N in Hn.
      exfalso. apply E. now apply N.div_small.
    + assert (Hdiv : (n / 10 < 10 ^ N.of_nat (S k))%N).
      { apply N.Div0.div_lt_upper_bound.
        rewrite (Nat2N.inj_succ (S k)), N.pow_succ_r' in Hn. exact Hn. }
      specialize (IH (n / 10)%N ((48 + n mod 10)%N :: acc) k Hdiv).
      cbn [List.length] in IH. lia.
Qed.

Lemma decimal_digits (n : N) :
  exists c ds,
    Num.decimal n = c :: ds
    /\ Forall (fun c => Num.is_digit c = true) (c :: ds)
    /\ (forall a,
          fold_left Num.push (c :: ds) a
          = ((fst a * 10 ^ N.of_nat (List.length (c :: ds)) + n)%N,
             (snd a + List.length (c :: ds))%nat))
    /\ forall k, (n < 10 ^ N.of_nat (S k))%N ->
                 (List.length (c :: ds) <= S k)%nat.
Proof.
  destruct (digits_aux_spec (N.size_nat n) n [] (decimal_fuel n))
    as (ds & Hds & Hne & Hdigits & Hval).
  rewrite app_nil_r in Hds. destruct ds as [|c ds]; [congruence|].
  exists c, ds. repeat split; trivial.
  intros k Hk. rewrite <- Hds.
  pose proof (digits_aux_length (N.size_nat n) n [] k Hk) as H.
  cbn [List.length] in H. lia.
Qed.

Lemma digitpart_rest_prefix (ds : str) (c : N) (r : str) :
  Forall (fun c => Num.is_digit c = true) ds ->
  Num.is_digit c = false -> c <> 95%N ->
  forall a,
    Num.digitpart_rest (ds ++ c :: r) a = (fold_left Num.push ds a, c :: r).
Proof.
  intros Hds Hc Hu. induction ds as [|d ds IH]; intros a.
  - cbn [app Num.digitpart_rest fold_left]. rewrite Hc.
    apply N.eqb_neq in Hu. now rewrite Hu.
  - inversion Hds as [|? ? Hd Hds']; subst.
    cbn [app Num.digitpart_rest fold_left]. rewrite Hd. now apply IH.
Qed.

Lemma fold_push_zeros (k : nat) :
  forall a,
    fold_left Num.push (repeat 48%N k) a
    = ((fst a * 10 ^ N.of_nat k)%N, (snd a + k)%nat).
Proof.
  induction k as [|k IH]; intros [a c].
  - cbn [repeat fold_left fst snd]. change (N.of_nat 0) with 0%N.
    rewrite N.pow_0_r. f_equal; lia.
  - cbn [repeat fold_left]. rewrite IH. unfold Num.push. cbn [fst snd].
    rewrite Nat2N.inj_succ, N.pow_succ_r'. f_equal; lia.
Qed.

(** The digits before the point, the point, and twelve digits after it. *)
Lemma number_fixed (i f : N) :
  (f < 10 ^ 12)%N ->
  exists c s,
    Num.decimal i ++ Num.fraction 12 f = c :: s
    /\ Num.is_digit c = true
    /\ Forall (fun c => (45 <= c <= 57)%N) (c :: s)
    /\ Num.number (c :: s) = Some ((i * 10 ^ 12 + f)%N, 12%nat, []).
Proof.
  intros Hf.
  destruct (decimal_digits i) as (ci & di & Hi & Hdi & Hvi & _).
  destruct (decimal_digits f) as (cf & df & Hf' & Hdf & Hvf & Hlf).
  specialize (Hlf 11%nat Hf).
  set (k := (12 - List.length (cf :: df))%nat).
  assert (Hk : (k + List.length (cf :: df) = 12)%nat) by (unfold k; lia).
  assert (Hfrac : Num.fraction 12 f
                  = 46%N :: repeat 48%N k ++ cf :: df).
  { unfold Num.fraction, Num.zfill. now rewrite Hf'. }
  rewrite Hi, Hfrac. exists ci, (di ++ 46%N :: repeat 48%N k ++ cf :: df).
  inversion Hdi as [|? ? Hci Hdi']; subst.
  assert (Hzeros : Forall (fun c => Num.is_digit c = true)
                     (repeat 48%N k ++ cf :: df)).
  { apply Forall_app. split; [|exact Hdf].
    apply Forall_forall. intros x Hx. apply repeat_spec in Hx. now subst. }
  split; [reflexivity|]. split; [exact Hci|]. split.
  - assert (Hplain : forall l,
               Forall (fun c => Num.is_digit c = true) l ->
               Forall (fun c => (45 <= c <= 57)%N) l).
    { intros l. apply Forall_impl. intros x Hx.
      apply digit_range in Hx. lia. }
    change (ci :: di ++ 46%N :: repeat 48%N k ++ cf :: df)
      with ((ci :: di) ++ 46%N :: repeat 48%N k ++ cf :: df).
    apply Forall_app. split; [now apply Hplain|].
    constructor; [lia | now apply Hplain].
  - unfold Num.number, Num.digitpart. rewrite Hci.
    rewrite (digitpart_rest_prefix di 46 _ Hdi') by (reflexivity || lia).
    change (fold_left Num.push di (Num.push (0%N, O) ci))
      with (fold_left Num.push (ci :: di) (0%N, O)).
    rewrite Hvi. cbn [fst snd].
    destruct (repeat 48%N k ++ cf :: df) as [|z zs] eqn:Hz.
    { destruct (repeat 48%N k); discriminate. }
    inversion Hzeros as [|? ? Hzd Hzs]; subst. rewrite Hzd.
    rewrite (digitpart_rest_digits zs Hzs).
    change (fold_left Num.push zs (Num.push (0 * 10 ^ _ + i, O)%N z))
      with (fold_left Num.push (z :: zs)
              ((0 * 10 ^ N.of_nat (List.length (ci :: di)) + i)%N, O)).
    rewrite <- Hz, fold_left_app, fold_push_zeros, Hvf. cbn [fst snd].
    f_equal. f_equal. f_equal.
    + rewrite N.mul_0_l, N.add_0_l, <- N.mul_assoc, <- N.pow_add_r.
      rewrite <- Nat2N.inj_add, Hk. reflexivity.
    + simpl. exact Hk.
Qed.

Lemma round_half_even_nonneg (m e : Z) :
  (0 <= m)%Z -> (0 <= Num.round_half_even m e)%Z.
Proof.
  intros Hm. unfold Num.round_half_even. destruct e as [|p|p].
  - simpl. lia.
  - apply Z.mul_nonneg_nonneg; [exact Hm|]. apply Z.pow_nonneg. lia.
  - assert (Hd : (0 < Z.pow_pos 2 p)%Z)
      by (rewrite Z.pow_pos_fold; apply Z.pow_pos_nonneg; lia).
    assert (Hq : (0 <= m / Z.pow_pos 2 p)%Z)
      by (apply Z.div_pos; lia).
    cbv zeta.
    destruct (2 * (m mod Z.pow_pos 2 p) ?= Z.pow_pos 2 p)%Z;
      [destruct (Z.even _)| |]; lia.
Qed.

(** [float] of a text that is a sign and a number without exponent. *)
Lemma of_str_digits (t : str) (neg : bool) (c : N) (body : str) (n : N)
    (k : nat) :
  Num.take_sign (Str.strip t) = (neg, c :: body) ->
  Num.is_digit c = true ->
  Num.number (c :: body) = Some ((n, k), []) ->
  Num.of_str t = Some (Num.of_decimal neg n (0 - Z.of_nat k)).
Proof.
  intros Htake Hc Hnum. unfold Num.of_str.
  rewrite Htake. cbv zeta. cbn [Num.ascii_lower map].
  apply digit_range in Hc.
  assert (Hlow : (if Str.between 65 90 c then (c + 32)%N else c) = c).
  { unfold Str.between.
    repeat (case_step; simpl; try (exfalso; lia)); reflexivity. }
  rewrite Hlow.
  change (`"inf") with [105%N; 110%N; 102%N].
  change (`"nan") with [110%N; 97%N; 110%N].
  change (`"infinity")
    with [105%N; 110%N; 102%N; 105%N; 110%N; 105%N; 116%N; 121%N].
  rewrite !Str_eqb_head by lia. cbn [orb].
  rewrite Hnum. reflexivity.
Qed.

Lemma take_sign_digit (c : N) (s : str) :
  Num.is_digit c = true -> Num.take_sign (c :: s) = (false, c :: s).
Proof.
  intros Hc. apply digit_range in Hc. unfold Num.take_sign.
  destruct c as [|p]; [lia|].
  do 6 (destruct p as [p|p|]; try lia; try reflexivity).
Qed.

(** What [keyval_str2typ] asks of a text before it reads it as a number. *)
Lemma keyval_str2typ_number (dfn : Definitions) (var t : str)
    (x : Num.float) :
  Str.strip var <> [] ->
  t <> [] ->
  Str.strip t = t ->
  Str.startswith `"[" t = false ->
  existsb (Str.eqb (Str.lower t)) [`"true"; `"y"] = false ->
  existsb (Str.eqb (Str.lower t)) [`"false"; `"n"] = false ->
  is_quote (hd_error t) = false ->
  scalar_feature_exists dfn t = false ->
  Num.of_str (Str.replace 44 46 t) = Some x ->
  keyval_str2typ dfn var (VStr t)
  = inr (Some (Str.lower (Str.strip var), VFloat x)).
Proof.
  intros Hvar Ht Hstrip Hbracket Htrue Hfalse Hquote Hfeat Hof.
  unfold keyval_str2typ.
  rewrite Hstrip, Hbracket, Htrue, Hfalse, Hquote, Hfeat, Hof.
  destruct (Str.strip var) as [|c k]; [congruence|].
  destruct t; [congruence | reflexivity].
Qed.

(** A text of digits, points and minus signs passes these tests. *)
Lemma plain_text (c : N) (s : str) :
  Forall (fun c => (45 <= c <= 57)%N) (c :: s) ->
  Str.strip (c :: s) = c :: s
  /\ Str.startswith `"[" (c :: s) = false
  /\ existsb (Str.eqb (Str.lower (c :: s))) [`"true"; `"y"] = false
  /\ existsb (Str.eqb (Str.lower (c :: s))) [`"false"; `"n"] = false
  /\ is_quote (hd_error (c :: s)) = false
  /\ Str.replace 44 46 (c :: s) = c :: s.
Proof.
  intros Hall.
  assert (Hchars : forall x, In x (c :: s) -> (45 <= x <= 57)%N)
    by now apply Forall_forall.
  assert (Hc : (45 <= c <= 57)%N) by (apply Hchars; now left).
  destruct (plain_char c Hc) as (_ & _ & _ & Hquote & Hbracket).
  assert (Hlower : Str.lower (c :: s) = c :: s).
  { unfold Str.lower. rewrite <- (map_id (c :: s)) at 2.
    apply map_ext_in. intros x Hx. now apply plain_char, Hchars. }
  split; [|split; [|split; [|split; [|split]]]].
  - apply strip_by_none. revert Hall. apply Forall_impl.
    intros x Hx. now apply plain_char.
  - change (`"[") with [91%N]. cbn [Str.startswith]. now rewrite Hbracket.
  - rewrite Hlower. cbn [existsb].
    change (`"true") with [116%N; 114%N; 117%N; 101%N].
    change (`"y") with [121%N].
    now rewrite !Str_eqb_head by lia.
  - rewrite Hlower. cbn [existsb].
    change (`"false") with [102%N; 97%N; 108%N; 115%N; 101%N].
    change (`"n") with [110%N].
    now rewrite !Str_eqb_head by lia.
  - exact Hquote.
  - unfold Str.replace. rewrite <- (map_id (c :: s)) at 2.
    apply map_ext_in. intros x Hx. now apply plain_char, Hchars.
Qed.

(** The text of a finite float that is not zero. *)
Lemma format_fixed_finite (s : bool) (m : positive) (e : Z) :
  exists c t,
    Num.format_fixed 12 (S754_finite s m e) = c :: t
    /\ Forall (fun c => (45 <= c <= 57)%N) (c :: t)
    /\ Num.of_str (c :: t) = Some (reread (S754_finite s m e)).
Proof.
  unfold Num.format_fixed, reread. cbv zeta.
  change (Z.of_nat 12) with 12%Z.
  set (n := Num.round_half_even (Z.pos m * 10 ^ 12) e).
  assert (Hn : (0 <= n)%Z) by (apply round_half_even_nonneg; lia).
  change (10 ^ 12)%Z with 1000000000000%Z in *.
  assert (Hdm : (n = 1000000000000 * (n / 1000000000000)
                     + n mod 1000000000000)%Z)
    by (apply Z.div_mod; lia).
  assert (Hr : (0 <= n mod 1000000000000 < 1000000000000)%Z)
    by (apply Z.mod_pos_bound; lia).
  assert (Hq : (0 <= n / 1000000000000)%Z) by (apply Z.div_pos; lia).
  revert Hdm Hr Hq.
  generalize (n / 1000000000000)%Z (n mod 1000000000000)%Z.
  intros q r Hdm Hr Hq.
  assert (Hf : (Z.to_N r < 10 ^ 12)%N).
  { change (10 ^ 12)%N with 1000000000000%N. lia. }
  destruct (number_fixed (Z.to_N q) (Z.to_N r) Hf)
    as (c & t & Htext & Hc & Hall & Hnum).
  assert (Hvalue : (Z.to_N q * 10 ^ 12 + Z.to_N r)%N = Z.to_N n).
  { change (10 ^ 12)%N with 1000000000000%N. lia. }
  rewrite Hvalue in Hnum. rewrite Htext.
  destruct (plain_text c t Hall) as (Hstrip & _).
  destruct s.
  - change (Num.sign_str true ++ c :: t) with (45%N :: c :: t).
    exists 45%N, (c :: t).
    assert (Hall' : Forall (fun c => (45 <= c <= 57)%N) (45%N :: c :: t))
      by (constructor; [lia | exact Hall]).
    split; [reflexivity|]. split; [exact Hall'|].
    destruct (plain_text 45 (c :: t) Hall') as (Hstrip' & _).
    apply (of_str_digits (45%N :: c :: t) true c t (Z.to_N n) 12);
      [now rewrite Hstrip' | exact Hc | exact Hnum].
  - change (Num.sign_str false ++ c :: t) with (c :: t).
    exists c, t. split; [reflexivity|]. split; [exact Hall|].
    apply (of_str_digits (c :: t) false c t (Z.to_N n) 12);
      [|exact Hc | exact Hnum].
    rewrite Hstrip. now apply take_sign_digit.
Qed.

(** The text of any float passes the tests of [keyval_str2typ] and is read
    as [reread]. *)
Lemma format_fixed_text (x : Num.float) :
  Num.format_fixed 12 x <> []
  /\ Str.strip (Num.format_fixed 12 x) = Num.format_fixed 12 x
  /\ Str.startswith `"[" (Num.format_fixed 12 x) = false
  /\ existsb (Str.eqb (Str.lower (Num.format_fixed 12 x))) [`"true"; `"y"]
     = false
  /\ existsb (Str.eqb (Str.lower (Num.format_fixed 12 x))) [`"false"; `"n"]
     = false
  /\ is_quote (hd_error (Num.format_fixed 12 x)) = false
  /\ Num.of_str (Str.replace 44 46 (Num.format_fixed 12 x))
     = Some (reread x).
Proof.
  destruct x as [s|s| |s m e].
  - destruct s; repeat split; try discriminate; vm_compute; reflexivity.
  - destruct s; repeat split; try discriminate; vm_compute; reflexivity.
  - repeat split; try discriminate; vm_compute; reflexivity.
  - destruct (format_fixed_finite s m e) as (c & t & Htext & Hall & Hof).
    rewrite Htext.
    destruct (plain_text c t Hall) as (H1 & H2 & H3 & H4 & H5 & H6).
    rewrite H6. repeat split; trivial. discriminate.
Qed.

(** *** Lists of floats *)

Lemma split_one (sep : N) (i : str) :
  ~ In sep i -> Str.split sep i = [i].
Proof.
  induction i as [|c i IH]; simpl; [reflexivity|].
  intros Hout. destruct (c =? sep)%N eqn:E.
  - apply N.eqb_eq in E. tauto.
  - rewrite IH by tauto. reflexivity.
Qed.

Lemma split_app_sep (sep : N) (i rest : str) :
  ~ In sep i ->
  Str.split sep (i ++ sep :: rest) = i :: Str.split sep rest.
Proof.
  induction i as [|c i IH]; simpl.
  - now rewrite N.eqb_refl.
  - intros Hout. destruct (c =? sep)%N eqn:E.
    + apply N.eqb_eq in E. tauto.
    + rewrite IH by tauto. reflexivity.
Qed.

Lemma split_join (i : str) (r : list str) :
  Forall (fun t => ~ In 44%N t) (i :: r) ->
  Str.split 44 (Str.join [44%N; 32%N] (i :: r)) = i :: map (cons 32%N) r.
Proof.
  revert i. induction r as [|j r IH]; intros i Hall.
  - inversion Hall; subst. simpl. now apply split_one.
  - inversion Hall as [|? ? Hi Hrest]; subst.
    change (Str.join [44%N; 32%N] (i :: j :: r))
      with (i ++ 44%N :: 32%N :: Str.join [44%N; 32%N] (j :: r)).
    rewrite split_app_sep by exact Hi.
    change (Str.split 44 (32%N :: Str.join [44%N; 32%N] (j :: r)))
      with (match Str.split 44 (Str.join [44%N; 32%N] (j :: r)) with
            | [] => [[32%N]]
            | w :: ws => (32%N :: w) :: ws
            end).
    now rewrite (IH j Hrest).
Qed.

Lemma join_last (sep : str) (r : list str) (z : str) :
  exists pre, Str.join sep (r ++ [z]) = pre ++ z.
Proof.
  induction r as [|a r [pre IH]].
  - now exists [].
  - exists (a ++ sep ++ pre).
    change ((a :: r) ++ [z]) with (a :: (r ++ [z])).
    destruct (r ++ [z]) as [|b l] eqn:E; [destruct r; discriminate|].
    change (Str.join sep (a :: b :: l))
      with (a ++ sep ++ Str.join sep (b :: l)).
    now rewrite IH, <- !app_assoc.
Qed.

Lemma strip_by_ends (p : N -> bool) (a z : N) (mid : str) :
  p a = false -> p z = false ->
  Str.strip_by p (a :: mid ++ [z]) = a :: mid ++ [z].
Proof.
  intros Ha Hz. unfold Str.strip_by. cbn [Str.dropwhile]. rewrite Ha.
  change (a :: mid ++ [z]) with ((a :: mid) ++ [z]).
  rewrite rev_app_distr. cbn [rev app Str.dropwhile]. rewrite Hz.
  cbn [rev]. rewrite !rev_app_distr, rev_involutive. reflexivity.
Qed.

Lemma strip_by_inside (p : N -> bool) (a z : N) (inner : str) :
  p a = true -> p z = true ->
  match inner with
  | [] => True
  | c :: _ => p c = false
  end ->
  match rev inner with
  | [] => True
  | c :: _ => p c = false
  end ->
  Str.strip_by p (a :: inner ++ [z]) = inner.
Proof.
  intros Ha Hz Hhead Hlast. unfold Str.strip_by.
  cbn [Str.dropwhile]. rewrite Ha.
  destruct inner as [|c inner].
  - simpl. now rewrite Hz.
  - cbn [app Str.dropwhile]. rewrite Hhead.
    change (c :: inner ++ [z]) with ((c :: inner) ++ [z]).
    rewrite rev_app_distr. cbn [rev app Str.dropwhile]. rewrite Hz.
    destruct (rev inner ++ [c]) as [|d l] eqn:E.
    + destruct (rev inner); discriminate.
    + cbn [rev] in Hlast. rewrite E in Hlast.
      cbn [Str.dropwhile]. rewrite Hlast.
      rewrite <- E, rev_app_distr, rev_involutive. reflexivity.
Qed.

(** The text of a float as an item of a list. *)
Lemma format_fixed_item (x : Num.float) :
  Num.format_fixed 12 x <> []
  /\ Forall (fun c => Str.mem c `"[]," = false) (Num.format_fixed 12 x)
  /\ Num.of_str (Num.format_fixed 12 x) = Some (reread x).
Proof.
  destruct x as [s|s| |s m e].
  - destruct s; repeat split; try discriminate;
      repeat constructor.
  - destruct s; repeat split; try discriminate;
      repeat constructor.
  - repeat split; try discriminate; repeat constructor.
  - destruct (format_fixed_finite s m e) as (c & t & Htext & Hall & Hof).
    rewrite Htext. repeat split; [discriminate| |exact Hof].
    revert Hall. apply Forall_impl. intros d Hd.
    change (`"[],") with [91%N; 93%N; 44%N]. unfold Str.mem. cbn [existsb].
    repeat (case_step; simpl; try (exfalso; lia)); reflexivity.
Qed.

Lemma of_str_space (t : str) : Num.of_str (32%N :: t) = Num.of_str t.
Proof. reflexivity. Qed.

Lemma floats_of_texts (l : list Num.float) (pre : str -> str) :
  (forall t, Num.of_str (pre t) = Num.of_str t) ->
  floats (map (fun x => pre (Num.format_fixed 12 x)) l)
  = inr (map (fun x => VFloat (reread x)) l).
Proof.
  intros Hpre. induction l as [|x l IH]; [reflexivity|].
  cbn [map floats]. rewrite Hpre.
  destruct (format_fixed_item x) as (_ & _ & ->). now rewrite IH.
Qed.

Lemma no_comma (t : str) :
  Forall (fun c => Str.mem c `"[]," = false) t -> ~ In 44%N t.
Proof.
  intros H Hin. rewrite Forall_forall in H. specialize (H _ Hin).
  discriminate.
Qed.

Lemma float_list_text (dfn : Definitions) (var : str)
    (l : list Num.float) :
  Str.strip var <> [] ->
  keyval_str2typ dfn var
    (VStr (`"[" ++ Str.join `", " (map (Num.format_fixed 12) l) ++ `"]"))
  = inr (Some (Str.lower (Str.strip var),
               VList (map (fun x => VFloat (reread x)) l))).
Proof.
  intros Hvar.
  assert (Hlen : negb (List.length (Str.lower (Str.strip var)) =? 0)%nat
                 = true).
  { destruct (Str.strip var); [congruence | reflexivity]. }
  destruct l as [|x r].
  { unfold keyval_str2typ. rewrite Hlen. reflexivity. }
  change (`"[") with [91%N]. change (`"]") with [93%N].
  change (`", ") with [44%N; 32%N].
  set (inner := Str.join [44%N; 32%N] (map (Num.format_fixed 12) (x :: r))).
  change ([91%N] ++ inner ++ [93%N]) with (91%N :: inner ++ [93%N]).
  set (p := fun c => Str.mem c `"[],").
  assert (Hitems : Forall (fun t => t <> []
                                    /\ Forall (fun c => p c = false) t)
                     (map (Num.format_fixed 12) (x :: r))).
  { apply Forall_forall. intros t Ht. apply in_map_iff in Ht as (y & <- & _).
    destruct (format_fixed_item y) as (H1 & H2 & _). now split. }
  assert (Hhead : match inner with
                  | [] => False
                  | c :: _ => p c = false
                  end).
  { unfold inner. cbn [map] in *.
    inversion Hitems as [|? ? [Hne Hchars] _]; subst.
    destruct (Num.format_fixed 12 x) as [|c t]; [congruence|].
    inversion Hchars; subst.
    destruct (map (Num.format_fixed 12) r); simpl; assumption. }
  assert (Hlast : match rev inner with
                  | [] => True
                  | c :: _ => p c = false
                  end).
  { assert (Hne : map (Num.format_fixed 12) (x :: r) <> [])
      by discriminate.
    destruct (exists_last Hne) as (r' & z & Hz).
    unfold inner. rewrite Hz in *.
    destruct (join_last [44%N; 32%N] r' z) as [pre ->].
    rewrite rev_app_distr.
    apply Forall_app in Hitems as [_ Hz'].
    inversion Hz' as [|? ? [Hzne Hzchars] _]; subst.
    apply Forall_rev in Hzchars.
    destruct (rev z) as [|d t] eqn:E.
    - exfalso. apply Hzne. rewrite <- (rev_involutive z), E. reflexivity.
    - simpl. now inversion Hzchars. }
  assert (Hstrip : Str.strip (91%N :: inner ++ [93%N])
                   = 91%N :: inner ++ [93%N])
    by (apply strip_by_ends; reflexivity).
  assert (Hinside : Str.strip_chars `"[]," (91%N :: inner ++ [93%N])
                    = inner).
  { apply (strip_by_inside p); try reflexivity; [|exact Hlast].
    destruct inner; [exact I | exact Hhead]. }
  assert (Hend : Str.endswith [93%N] (91%N :: inner ++ [93%N]) = true)
    by apply (endswith_app (91%N :: inner) [93%N]).
  assert (Hsplit : Str.split 44 inner
                   = Num.format_fixed 12 x
                     :: map (cons 32%N) (map (Num.format_fixed 12) r)).
  { unfold inner. cbn [map]. apply split_join.
    revert Hitems. cbn [map]. apply Forall_impl.
    intros t [_ Ht]. now apply no_comma. }
  unfold keyval_str2typ.
  change (`"[") with [91%N]. change (`"]") with [93%N].
  rewrite Hstrip, Hlen, Hinside, Hend, Hsplit.
  cbn [Str.startswith List.length Nat.eqb negb andb N.eqb Pos.eqb].
  destruct inner as [|c t]; [destruct Hhead|].
  cbn [List.length Nat.eqb floats].
  destruct (format_fixed_item x) as (_ & _ & ->).
  rewrite map_map.
  pose proof (floats_of_texts r (cons 32%N) of_str_space) as Hf.
  match goal with
  | |- context [floats ?texts] =>
      replace (floats texts)
        with (@inr exn _ (map (fun x => VFloat (reread x)) r))
        by (symmetry; exact Hf)
  end.
  reflexivity.
Qed.

(** A float is written with twelve digits after the point, and what is
    read back is the float nearest to the number written: the float
    itself when it is a zero, an infinity or not a number, and else the
    float nearest to its value rounded to twelve digits after the point.
    A list of floats is read back as the list of these, whatever the
    schema. *)
Theorem floats_are_read_back_rounded_to_twelve_digits
    (dfn : Definitions) (var : str) :
  Str.strip var <> [] ->
  (forall x,
      scalar_feature_exists dfn (Num.format_fixed 12 x) = false ->
      keyval_str2typ dfn var (VStr (snd (keyval_typ2str var (VFloat x))))
      = inr (Some (Str.lower (Str.strip var), VFloat (reread x))))
  /\ (forall l,
         keyval_str2typ dfn var
           (VStr (snd (keyval_typ2str var (VList (map VFloat l)))))
         = inr (Some (Str.lower (Str.strip var),
                      VList (map (fun x => VFloat (reread x)) l))))
  /\ (forall s, reread (S754_zero s) = S754_zero s)
  /\ (forall s, reread (S754_infinity s) = S754_infinity s)
  /\ reread S754_nan = S754_nan.
Proof.
  intros Hvar. split; [|split; [|repeat split]].
  - intros x Hfeat. cbn [keyval_typ2str snd].
    destruct (format_fixed_text x) as (H0 & H1 & H2 & H3 & H4 & H5 & H6).
    now apply keyval_str2typ_number.
  - intros l. cbn [keyval_typ2str snd]. rewrite map_map.
    cbn [keyval_typ2str snd]. now apply float_list_text.
Qed.

Lemma floats_are_read_back_rounded_to_twelve_digits_witness :
  keyval_str2typ Sample.dfn `"x"
    (VStr (snd (keyval_typ2str `"x" (VList (map VFloat [float_016])))))
  = inr (Some (Str.lower (Str.strip `"x"),
               VList (map (fun x => VFloat (reread x)) [float_016])))
  /\ reread float_016 = float_016.
Proof.
  split; [|vm_compute; reflexivity].
  refine (proj1 (proj2 (floats_are_read_back_rounded_to_twelve_digits
                          Sample.dfn `"x" _)) [float_016]).
  discriminate.
Defined.

(** ** Writing a configuration and reading it back *)

Lemma readlines_from_line (l : str) :
  ~ In 10%N l ->
  forall cur rest,
    readlines_from cur (l ++ 10%N :: rest)
    = (rev cur ++ l ++ [10%N]) :: readlines_from [] rest.
Proof.
  induction l as [|c l IH]; intros Hout cur rest.
  - cbn [app readlines_from]. now rewrite N.eqb_refl.
  - cbn [app readlines_from].
    destruct (c =? 10)%N eqn:E.
    + apply N.eqb_eq in E. subst. exfalso. apply Hout. now left.
    + rewrite IH by (intros H; apply Hout; now right).
      cbn [rev]. now rewrite <- app_assoc.
Qed.

Lemma readlines_lines (out : list str) :
  Forall (fun l => ~ In 10%N l) out ->
  readlines (flat_map (fun l => l ++ [10%N]) out)
  = map (fun l => l ++ [10%N]) out.
Proof.
  unfold readlines. induction out as [|l out IH]; intros Hall;
    [reflexivity|].
  inversion Hall as [|? ? Hl Hout]; subst.
  cbn [flat_map map]. rewrite <- app_assoc. cbn [app].
  rewrite readlines_from_line by exact Hl. cbn [rev app].
  now rewrite IH.
Qed.

Lemma dropwhile_all (p : N -> bool) (pre rest : str) :
  Forall (fun c => p c = true) pre ->
  Str.dropwhile p (pre ++ rest) = Str.dropwhile p rest.
Proof.
  induction pre as [|c pre IH]; intros H; [reflexivity|].
  inversion H as [|? ? Hc Hpre]; subst. cbn [app Str.dropwhile].
  rewrite Hc. now apply IH.
Qed.

Lemma strip_by_middle (p : N -> bool) (pre s post : str) :
  Forall (fun c => p c = true) pre ->
  Forall (fun c => p c = true) post ->
  ends p s ->
  Str.strip_by p (pre ++ s ++ post) = s.
Proof.
  intros Hpre Hpost [Hhead Hlast]. unfold Str.strip_by.
  rewrite dropwhile_all by exact Hpre.
  destruct s as [|c s]; [destruct Hhead|].
  cbn [app Str.dropwhile]. rewrite Hhead.
  change (c :: s ++ post) with ((c :: s) ++ post).
  rewrite rev_app_distr.
  rewrite dropwhile_all by now apply Forall_rev.
  destruct (rev (c :: s)) as [|d t] eqn:E; [destruct Hlast|].
  cbn [Str.dropwhile]. rewrite Hlast.
  rewrite <- E. apply rev_involutive.
Qed.

Lemma ends_weaken (p q : N -> bool) (s : str) :
  (forall c, q c = false -> p c = false) -> ends q s -> ends p s.
Proof.
  intros Hpq [Hhead Hlast]. split.
  - destruct s; [exact Hhead | now apply Hpq].
  - destruct (rev s); [exact Hlast | now apply Hpq].
Qed.

Lemma ends_Forall (p : N -> bool) (s : str) :
  s <> [] -> Forall (fun c => p c = false) s -> ends p s.
Proof.
  intros Hne Hall. split.
  - destruct s; [congruence | now inversion Hall].
  - apply Forall_rev in Hall. destruct (rev s) eqn:E.
    + apply Hne. rewrite <- (rev_involutive s), E. reflexivity.
    + now inversion Hall.
Qed.

Lemma ends_brackets (p : N -> bool) (a z : N) (mid : str) :
  p a = false -> p z = false -> ends p (a :: mid ++ [z]).
Proof.
  intros Ha Hz. split; [exact Ha|].
  change (a :: mid ++ [z]) with ((a :: mid) ++ [z]).
  rewrite rev_app_distr. exact Hz.
Qed.

Lemma count_In (c : N) (s : str) :
  In c s -> (Str.count c s =? 0)%nat = false.
Proof.
  intros Hin. unfold Str.count.
  assert (H : In c (filter (N.eqb c) s)).
  { apply filter_In. split; [exact Hin | apply N.eqb_refl]. }
  destruct (filter (N.eqb c) s); [destruct H | reflexivity].
Qed.

Lemma split1_app_sep (sep : N) (i rest : str) :
  ~ In sep i -> Str.split1 sep (i ++ sep :: rest) = [i; rest].
Proof.
  induction i as [|c i IH]; simpl.
  - now rewrite N.eqb_refl.
  - intros Hout. destruct (c =? sep)%N eqn:E.
    + apply N.eqb_eq in E. tauto.
    + rewrite IH by tauto. reflexivity.
Qed.

Lemma ends_app (p : N -> bool) (a mid b : str) :
  ends p a -> ends p b -> ends p (a ++ mid ++ b).
Proof.
  intros [Ha _] [_ Hb]. split.
  - destruct a; [destruct Ha | exact Ha].
  - rewrite !rev_app_distr.
    destruct (rev b); [destruct Hb | exact Hb].
Qed.

Lemma edge_space (c : N) : edge c = false -> Str.isspace c = false.
Proof.
  unfold edge. intros H. apply orb_false_elim in H as [H _].
  now apply orb_false_elim in H as [H _].
Qed.

Lemma edge_quote (c : N) :
  edge c = false -> Str.mem c [quote; 32%N] = false.
Proof.
  unfold edge, Str.mem. cbn [existsb]. intros H.
  apply orb_false_elim in H as [H Hd].
  apply orb_false_elim in H as [Hs Hq]. rewrite Hq.
  destruct (c =? 32)%N eqn:E; [|reflexivity].
  apply N.eqb_eq in E. subst. discriminate.
Qed.

Lemma edge_dquote (c : N) :
  edge c = false -> Str.mem c [dquote; 32%N] = false.
Proof.
  unfold edge, Str.mem. cbn [existsb]. intros H.
  apply orb_false_elim in H as [H Hd].
  apply orb_false_elim in H as [Hs Hq]. rewrite Hd.
  destruct (c =? 32)%N eqn:E; [|reflexivity].
  apply N.eqb_eq in E. subst. discriminate.
Qed.

Section ReadBack.
Variable dfn : Definitions.

(** An empty line changes nothing. *)
Lemma load_line_empty (cfg : SectionMap) (sec : option str) :
  load_line dfn (cfg, sec) ([] ++ [10%N]) = ret (cfg, sec).
Proof. reflexivity. Qed.

(** A header line makes the section, when it is not there, and names it
    for the lines that follow. *)
Lemma load_line_header (cfg : SectionMap) (sec : option str) (name : str) :
  clean_name name ->
  load_line dfn (cfg, sec) ((`"[" ++ name ++ `"]") ++ [10%N])
  = ret (if negb (sm_contains cfg (KStr name))
         then sm_setitem cfg (KStr name) (ConfigurationDict.__init__ None)
         else cfg, Some name).
Proof.
  intros [Hlower Hchars].
  change (`"[" ++ name ++ `"]") with (91%N :: name ++ [93%N]).
  assert (Hhash : ~ In 35%N ((91%N :: name ++ [93%N]) ++ [10%N])).
  { intros Hin. apply in_app_or in Hin as [[H|Hin]|[H|[]]];
      try discriminate.
    apply in_app_or in Hin as [Hin|[H|[]]]; try discriminate.
    rewrite Forall_forall in Hchars. now apply (Hchars _ Hin). }
  assert (Hstrip : Str.strip ((91%N :: name ++ [93%N]) ++ [10%N])
                   = 91%N :: name ++ [93%N]).
  { apply (strip_by_middle Str.isspace [] (91%N :: name ++ [93%N])
             [10%N]).
    - constructor.
    - repeat constructor.
    - now apply ends_brackets. }
  assert (Hslice : Str.slice 1 1 (91%N :: name ++ [93%N]) = name).
  { unfold Str.slice. cbn [skipn List.length]. rewrite length_app.
    cbn [List.length].
    replace (S (List.length name + 1) - 1 - 1)%nat
      with (List.length name + 0)%nat by lia.
    rewrite firstn_app_2. cbn [firstn]. apply app_nil_r. }
  assert (Hend : Str.endswith [93%N] (91%N :: name ++ [93%N]) = true)
    by apply (endswith_app (91%N :: name) [93%N]).
  unfold load_line. cbv zeta.
  rewrite (split_hd 35 _ Hhash), Hstrip, Hslice, Hlower.
  change (`"[") with [91%N]. change (`"]") with [93%N].
  rewrite Hend. reflexivity.
Qed.

(** A line with a key and the text of a value stores what
    [keyval_str2typ] makes of the text. *)
Lemma load_line_item (cfg : SectionMap) (sec var text : str) (v : value)
    (item : ConfigurationDict) :
  clean_key var ->
  Forall in_line text ->
  ends edge text ->
  config_key_exists dfn (KStr sec) (KStr var) = false ->
  keyval_str2typ dfn var (VStr text) = inr (Some (var, v)) ->
  str_nonempty v = true ->
  is_None v = false ->
  sm_getitem cfg (KStr sec) = inr item ->
  section item = None ->
  load_line dfn (cfg, Some sec) ((var ++ `" = " ++ text) ++ [10%N])
  = ret (sm_setitem cfg (KStr sec)
           (with_data item (dict_set (KStr var) v (data item))),
         Some sec).
Proof.
  intros (Hlower & Hchars & Hends & Hopen) Htext Hedge Hunknown Hread
    Hnonempty Hnone Hitem Hsection.
  change (`" = ") with [32%N; 61%N; 32%N].
  assert (Hvarlen : negb (List.length var =? 0)%nat = true).
  { destruct var; [destruct Hends as [[] _] | reflexivity]. }
  set (body := var ++ [32%N; 61%N; 32%N] ++ text).
  assert (Hvar : forall c, In c var -> in_line c /\ c <> 61%N)
    by now apply Forall_forall.
  assert (Htxt : forall c, In c text -> in_line c)
    by now apply Forall_forall.
  assert (Hhash : ~ In 35%N (body ++ [10%N])).
  { unfold body. intros Hin.
    apply in_app_or in Hin as [Hin|[H|[]]]; [|discriminate].
    apply in_app_or in Hin as [Hin|Hin].
    - destruct (Hvar _ Hin) as [(_ & _ & H) _]. now apply H.
    - apply in_app_or in Hin as [[H|[H|[H|[]]]]|Hin]; try discriminate.
      destruct (Htxt _ Hin) as (_ & _ & H). now apply H. }
  assert (Hspace : ends Str.isspace text).
  { revert Hedge. apply ends_weaken. apply edge_space. }
  assert (Hstrip : Str.strip (body ++ [10%N]) = body).
  { apply (strip_by_middle Str.isspace [] body [10%N]).
    - constructor.
    - repeat constructor.
    - unfold body. now apply ends_app. }
  assert (Hbodylen : negb (List.length body =? 0)%nat = true).
  { unfold body. destruct var; [discriminate | reflexivity]. }
  assert (Hstart : Str.startswith [91%N] body = false).
  { unfold body. destruct var as [|c var']; [discriminate|].
    cbn [app Str.startswith].
    destruct (91 =? c)%N eqn:E; [|reflexivity].
    apply N.eqb_eq in E. subst c. now elim Hopen. }
  assert (Hcount : (Str.count 61 body =? 0)%nat = false).
  { apply count_In. unfold body. apply in_or_app. right.
    right. now left. }
  assert (Hsplit : Str.split1 61 body = [var ++ [32%N]; 32%N :: text]).
  { unfold body.
    change (var ++ [32%N; 61%N; 32%N] ++ text)
      with (var ++ [32%N] ++ 61%N :: 32%N :: text).
    rewrite app_assoc. apply split1_app_sep.
    intros Hin. apply in_app_or in Hin as [Hin|[H|[]]]; [|discriminate].
    destruct (Hvar _ Hin) as [_ H]. now apply H. }
  assert (Hkey : Str.lower (Str.strip (var ++ [32%N])) = var).
  { rewrite <- Hlower at 2. f_equal.
    rewrite <- (app_nil_l (var ++ [32%N])).
    apply (strip_by_middle Str.isspace [] var [32%N]);
      [constructor | repeat constructor | exact Hends]. }
  assert (Hval : Str.strip
                   (Str.strip_chars [dquote; 32%N]
                      (Str.strip_chars [quote; 32%N] (32%N :: text)))
                 = text).
  { assert (H1 : Str.strip_chars [quote; 32%N] (32%N :: text) = text).
    { rewrite <- (app_nil_r text) at 1.
      apply (strip_by_middle _ [32%N] text []);
        [repeat constructor | constructor |].
      revert Hedge. apply ends_weaken. apply edge_quote. }
    assert (H2 : Str.strip_chars [dquote; 32%N] text = text).
    { rewrite <- (app_nil_r text) at 1.
      apply (strip_by_middle _ [] text []);
        [constructor | constructor |].
      revert Hedge. apply ends_weaken. apply edge_dquote. }
    rewrite H1, H2. rewrite <- (app_nil_r text) at 1.
    now apply (strip_by_middle Str.isspace [] text []). }
  assert (Htextlen : (List.length text =? 0)%nat = false).
  { destruct text; [destruct Hedge as [[] _] | reflexivity]. }
  assert (Hset : ConfigurationDict.__setitem__ dfn item (KStr var) v
                 = ([], inr (with_data item
                               (dict_set (KStr var) v (data item))))).
  { rewrite cd_setitem_unchecked;
      [|unfold checked_section; now rewrite Hsection | exact Hnone].
    simpl _k. now rewrite Hlower. }
  unfold load_line. cbv zeta.
  rewrite (split_hd 35 _ Hhash), Hstrip.
  change (`"[") with [91%N]. rewrite Hstart. cbn [andb].
  rewrite Hbodylen, Hcount, Hsplit, Hkey, Hval, Htextlen.
  rewrite Hunknown, Hread.
  unfold lift. cbn [bind ret app].
  rewrite Hvarlen, Hnonempty, Hitem.
  unfold lift. cbn [bind ret app]. rewrite Hset. reflexivity.
Qed.


Lemma join_Forall (P : N -> Prop) (sep : str) (parts : list str) :
  Forall P sep -> Forall (Forall P) parts -> Forall P (Str.join sep parts).
Proof.
  intros Hsep. induction parts as [|t parts IH]; intros Hparts;
    [constructor|].
  inversion Hparts as [|? ? Ht Hrest]; subst.
  destruct parts as [|u parts]; [exact Ht|].
  change (Str.join sep (t :: u :: parts))
    with (t ++ sep ++ Str.join sep (u :: parts)).
  apply Forall_app. split; [exact Ht|].
  apply Forall_app. split; [exact Hsep | now apply IH].
Qed.

Lemma floats_only (l : list value) :
  forallb is_float l = true -> exists xs, l = map VFloat xs.
Proof.
  induction l as [|v l IH]; intros H; [now exists []|].
  cbn [forallb] in H. apply andb_prop in H as [Hv Hl].
  destruct (IH Hl) as [xs ->].
  destruct v; try discriminate. now exists (x :: xs).
Qed.

Lemma plain_in_line (c : N) : (45 <= c <= 57)%N -> in_line c.
Proof. unfold in_line. lia. Qed.

Lemma plain_edge (c : N) : (45 <= c <= 57)%N -> edge c = false.
Proof.
  intros Hc. unfold edge.
  destruct (plain_char c Hc) as (Hspace & _ & _ & Hquote & _).
  rewrite Hspace. exact Hquote.
Qed.

Lemma plain_chars (c : N) (s : str) :
  Forall (fun c => (45 <= c <= 57)%N) (c :: s) ->
  Forall in_line (c :: s) /\ ends edge (c :: s).
Proof.
  intros Hall. split.
  - revert Hall. apply Forall_impl. apply plain_in_line.
  - apply ends_Forall; [discriminate|].
    revert Hall. apply Forall_impl. apply plain_edge.
Qed.

Lemma format_fixed_chars (x : Num.float) :
  Forall in_line (Num.format_fixed 12 x)
  /\ ends edge (Num.format_fixed 12 x).
Proof.
  destruct x as [s|s| |s m e].
  - destruct s; split;
      repeat (constructor || discriminate).
  - destruct s; split;
      repeat (constructor || discriminate).
  - split; repeat (constructor || discriminate).
  - destruct (format_fixed_finite s m e) as (c & t & -> & Hall & _).
    now apply plain_chars.
Qed.

(** The text of a value that is [written]: it fits in a line, and
    [keyval_str2typ] reads it as [read_back] tells. *)
Lemma written_text (var : str) (v : value) :
  written dfn v ->
  Str.strip var <> [] ->
  Forall in_line (snd (keyval_typ2str var v))
  /\ ends edge (snd (keyval_typ2str var v))
  /\ keyval_str2typ dfn var (VStr (snd (keyval_typ2str var v)))
     = inr (Some (Str.lower (Str.strip var), read_back v))
  /\ str_nonempty (read_back v) = true
  /\ is_None (read_back v) = false.
Proof.
  intros Hv Hvar.
  assert (Hlen : negb (List.length (Str.lower (Str.strip var)) =? 0)%nat
                 = true).
  { destruct (Str.strip var); [congruence | reflexivity]. }
  destruct v as [|b|z|x|s|l]; cbn [written] in Hv;
    [destruct Hv | | destruct Hv as [_ Hfeat] | | destruct Hv | ].
  - cbn [keyval_typ2str snd format_plain read_back].
    split; [|split; [|split; [|split]]]; try reflexivity.
    + destruct b; repeat (constructor || discriminate).
    + destruct b; split; reflexivity.
    + unfold keyval_str2typ. rewrite Hlen. destruct b; reflexivity.
  - cbn [keyval_typ2str snd format_plain read_back].
    destruct (format_int_spec z) as (c & s & Hfmt & Hall & Hof).
    rewrite Hfmt in *.
    destruct (plain_chars c s Hall) as [Hline Hedge].
    destruct (plain_text c s Hall) as (H1 & H2 & H3 & H4 & H5 & H6).
    split; [exact Hline|]. split; [exact Hedge|].
    split; [|split; reflexivity].
    apply keyval_str2typ_number; trivial; [discriminate|].
    now rewrite H6.
  - cbn [keyval_typ2str snd read_back].
    destruct (format_fixed_chars x) as [Hline Hedge].
    destruct (format_fixed_text x) as (H0 & H1 & H2 & H3 & H4 & H5 & H6).
    split; [exact Hline|]. split; [exact Hedge|].
    split; [|split; reflexivity].
    now apply keyval_str2typ_number.
  - destruct (floats_only l Hv) as [xs ->].
    cbn [keyval_typ2str snd read_back]. rewrite !map_map.
    cbn [keyval_typ2str snd].
    change (`"[") with [91%N]. change (`"]") with [93%N].
    change (`", ") with [44%N; 32%N].
    split; [|split; [|split; [|split; reflexivity]]].
    + change ([91%N] ++ Str.join [44%N; 32%N]
                          (map (fun x => Num.format_fixed 12 x) xs)
              ++ [93%N])
        with (91%N :: Str.join [44%N; 32%N]
                        (map (fun x => Num.format_fixed 12 x) xs)
              ++ [93%N]).
      constructor; [repeat split; discriminate|].
      apply Forall_app. split.
      * apply join_Forall; [repeat (constructor || discriminate)|].
        apply Forall_forall. intros t Ht.
        apply in_map_iff in Ht as (x & <- & _).
        apply format_fixed_chars.
      * repeat (constructor || discriminate).
    + now apply ends_brackets.
    + now apply (float_list_text dfn var xs).
Qed.


Lemma dict_get_last {V : Type} (pre : pydict V) (k : key) (v : V) :
  ~ In k (dict_keys pre) -> dict_get k (pre ++ [(k, v)]) = Some v.
Proof.
  induction pre as [|[k0 v0] pre IH]; simpl.
  - now rewrite key_eqb_refl.
  - intros Hout. destruct (key_eqb k0 k) eqn:E.
    + apply key_eqb_eq in E. tauto.
    + apply IH. tauto.
Qed.

Lemma dict_set_last {V : Type} (pre : pydict V) (k : key) (v v' : V) :
  ~ In k (dict_keys pre) ->
  dict_set k v' (pre ++ [(k, v)]) = pre ++ [(k, v')].
Proof.
  induction pre as [|[k0 v0] pre IH]; simpl.
  - now rewrite key_eqb_refl.
  - intros Hout. destruct (key_eqb k0 k) eqn:E.
    + apply key_eqb_eq in E. tauto.
    + rewrite IH; tauto.
Qed.

Lemma for_each_ret_app {A S : Type} (body : S -> A -> M S)
    (xs ys : list A) :
  forall s s1,
    for_each xs body s = ([], inr s1) ->
    for_each (xs ++ ys) body s = for_each ys body s1.
Proof.
  induction xs as [|x xs IH]; intros s s1 H.
  - injection H as <-. reflexivity.
  - cbn [app for_each] in *.
    apply bind_inv in H as (ws1 & a & ws2 & Hx & Hxs & Hws).
    symmetry in Hws. apply app_eq_nil in Hws as [-> ->].
    rewrite Hx. change (@pair (list warning) (exn + S) [] (inr a))
      with (ret a).
    rewrite bind_ret. now apply IH.
Qed.

Lemma keyval_typ2str_var (var : str) (v : value) :
  keyval_typ2str var v = (Str.strip var, snd (keyval_typ2str var v)).
Proof. destruct v; reflexivity. Qed.

Lemma clean_key_strip (var : str) : clean_key var -> Str.strip var = var.
Proof.
  intros (_ & _ & Hends & _).
  rewrite <- (app_nil_r var) at 1.
  now apply (strip_by_middle Str.isspace [] var []).
Qed.

(** The lines of the entries of a section, read into the last section of
    the section map. *)
Lemma load_entries (pre : pydict ConfigurationDict) (sec : str)
    (es : list (key * value)) :
  Str.lower sec = sec ->
  ~ In (KStr sec) (dict_keys pre) ->
  Forall (writable_entry dfn sec) es ->
  forall d,
    NoDup (dict_keys (d ++ es)) ->
    for_each (map (fun l => l ++ [10%N]) (map entry_line es))
      (load_line dfn)
      ({| sections := pre ++ [(KStr sec, {| section := None;
                                            data := d |})] |},
       Some sec)
    = ([], inr ({| sections :=
                     pre ++ [(KStr sec,
                              {| section := None;
                                 data := d ++ map read_back_entry es |})]
                |},
                Some sec)).
Proof.
  intros Hsec Hfresh. induction es as [|[k v] es IH]; intros Hes d Hnd.
  - cbn [map for_each]. now rewrite app_nil_r.
  - inversion Hes as [|? ? (var & Hk & Hclean & Hunknown & Hv) Hes'];
      subst. cbn [fst snd] in *. subst k.
    pose proof (clean_key_strip var Hclean) as Hstrip.
    assert (Hvar : Str.strip var <> []).
    { rewrite Hstrip. destruct Hclean as (_ & _ & [Hhead _] & _).
      destruct var; [destruct Hhead | discriminate]. }
    destruct (written_text var v Hv Hvar)
      as (Hline & Hedge & Hread & Hnonempty & Hnone).
    assert (Hlower : Str.lower var = var) by apply Hclean.
    rewrite Hstrip, Hlower in Hread.
    assert (Hentry : entry_line (KStr var, v)
                     = var ++ `" = " ++ snd (keyval_typ2str var v)).
    { unfold entry_line. cbn [fst snd].
      rewrite keyval_typ2str_var, Hstrip. reflexivity. }
    cbn [map for_each]. rewrite Hentry.
    set (cfg := {| sections := pre ++ [(KStr sec, _)] |}).
    assert (Hitem : sm_getitem cfg (KStr sec)
                    = inr {| section := None; data := d |}).
    { unfold sm_getitem, dict_getitem, cfg. simpl _k. rewrite Hsec.
      cbn [sections]. now rewrite dict_get_last. }
    rewrite (load_line_item cfg sec var _ (read_back v) _
               Hclean Hline Hedge Hunknown Hread Hnonempty Hnone Hitem
               eq_refl).
    rewrite bind_ret.
    assert (Hout : ~ In (KStr var) (dict_keys d)).
    { unfold dict_keys in Hnd. rewrite map_app in Hnd.
      apply NoDup_remove_2 in Hnd. intros Hin. apply Hnd.
      apply in_or_app. now left. }
    assert (Hnext : sm_setitem cfg (KStr sec)
                      (with_data {| section := None; data := d |}
                         (dict_set (KStr var) (read_back v) d))
                    = {| sections :=
                           pre ++ [(KStr sec,
                                    {| section := None;
                                       data := d ++ [(KStr var,
                                                      read_back v)] |})]
                      |}).
    { unfold sm_setitem, cfg, with_data. simpl _k. rewrite Hsec.
      cbn [sections section data].
      rewrite dict_set_last by exact Hfresh.
      now rewrite dict_set_fresh by exact Hout. }
    cbn [data]. rewrite Hnext.
    rewrite (IH Hes' (d ++ [(KStr var, read_back v)])).
    + unfold read_back_entry at 2. cbn [map fst snd].
      now rewrite <- app_assoc.
    + unfold dict_keys in *. rewrite <- app_assoc. cbn [app].
      rewrite !map_app in *. cbn [map fst] in *. exact Hnd.
Qed.

(** The lines of a section, read after the sections [pre]. *)
Lemma load_section (pre : pydict ConfigurationDict) (name : str)
    (es : list (key * value)) (sec0 : option str) :
  clean_name name ->
  ~ In (KStr name) (dict_keys pre) ->
  Forall (writable_entry dfn name) es ->
  NoDup (dict_keys es) ->
  for_each (map (fun l => l ++ [10%N]) (section_text (KStr name) es))
    (load_line dfn) ({| sections := pre |}, sec0)
  = ([], inr ({| sections :=
                   pre ++ [(KStr name,
                            {| section := None;
                               data := map read_back_entry es |})] |},
              Some name)).
Proof.
  intros Hname Hfresh Hes Hnd. unfold section_text.
  cbn [Configuration.format_key map for_each].
  rewrite (load_line_header {| sections := pre |} sec0 name Hname).
  rewrite bind_ret.
  assert (Hout : sm_contains {| sections := pre |} (KStr name) = false).
  { unfold sm_contains. simpl _k. destruct Hname as [-> _].
    cbn [sections].
    destruct (dict_contains (KStr name) pre) eqn:E; [|reflexivity].
    apply dict_contains_In in E. contradiction. }
  rewrite Hout. cbn [negb].
  assert (Hnew : sm_setitem {| sections := pre |} (KStr name)
                   (ConfigurationDict.__init__ None)
                 = {| sections :=
                        pre ++ [(KStr name,
                                 {| section := None; data := [] |})] |}).
  { unfold sm_setitem. simpl _k. destruct Hname as [-> _].
    cbn [sections]. now rewrite dict_set_fresh by exact Hfresh. }
  rewrite Hnew, map_app.
  rewrite (for_each_ret_app (load_line dfn) _ _ _ _
             (load_entries pre name es (proj1 Hname) Hfresh Hes [] Hnd)).
  cbn [map for_each app]. rewrite load_line_empty.
  now rewrite bind_ret.
Qed.

(** The lines of the sections [secs], read after the sections [pre]. *)
Lemma load_sections (secs : list (key * list (key * value))) :
  forall (pre : pydict ConfigurationDict) (sec0 : option str),
    Forall (fun kv =>
              exists name,
                fst kv = KStr name
                /\ clean_name name
                /\ Forall (writable_entry dfn name) (snd kv)
                /\ NoDup (dict_keys (snd kv)))
      secs ->
    NoDup (dict_keys pre ++ map fst secs) ->
    exists sec1,
      for_each (map (fun l => l ++ [10%N])
                  (flat_map (fun kv => section_text (fst kv) (snd kv))
                     secs))
        (load_line dfn) ({| sections := pre |}, sec0)
      = ([], inr ({| sections :=
                       pre ++ map (fun kv =>
                                     (fst kv,
                                      {| section := None;
                                         data := map read_back_entry
                                                   (snd kv) |}))
                                secs |},
                  sec1)).
Proof.
  induction secs as [|[n es] secs IH]; intros pre sec0 Hsecs Hnd.
  - exists sec0. cbn [flat_map map for_each]. now rewrite app_nil_r.
  - inversion Hsecs as [|? ? (name & Hn & Hname & Hes & Hkeys) Hsecs'];
      subst. cbn [fst snd] in *. subst n.
    change (flat_map (fun kv => section_text (fst kv) (snd kv))
              ((KStr name, es) :: secs))
      with (section_text (KStr name) es
            ++ flat_map (fun kv => section_text (fst kv) (snd kv)) secs).
    rewrite map_app.
    assert (Hfresh : ~ In (KStr name) (dict_keys pre)).
    { cbn [map fst] in Hnd. apply NoDup_remove_2 in Hnd.
      intros Hin. apply Hnd. apply in_or_app. now left. }
    rewrite (for_each_ret_app (load_line dfn) _ _ _ _
               (load_section pre name es sec0 Hname Hfresh Hes Hkeys)).
    destruct (IH (pre ++ [(KStr name,
                           {| section := None;
                              data := map read_back_entry es |})])
                (Some name) Hsecs') as [sec1 Hrest].
    + unfold dict_keys in *. rewrite map_app. cbn [map fst].
      rewrite <- app_assoc. exact Hnd.
    + exists sec1. etransitivity; [exact Hrest|]. cbn [map fst snd].
      now rewrite <- app_assoc.
Qed.


Lemma sort_strings (l : list key) :
  Forall (fun k => is_str k = true) l ->
  exists r, sort l = inr r /\ Permutation r l.
Proof.
  intros Hall. pose proof (sort_spec l) as H.
  destruct (sort l) as [e|r].
  - destruct H as [_ (s & z & _ & Hz)].
    rewrite Forall_forall in Hall. specialize (Hall _ Hz). discriminate.
  - exists r. split; [reflexivity | apply H].
Qed.

Lemma writable_entry_str (name : str) (d : pydict value) :
  Forall (writable_entry dfn name) d ->
  Forall (fun k => is_str k = true) (dict_keys d).
Proof.
  intros H. unfold dict_keys. apply Forall_map. revert H.
  apply Forall_impl. intros kv (var & -> & _). reflexivity.
Qed.

(** The lines that [tostring] writes for the keys of a section. *)
Lemma item_lines_entries (name : str) (item : ConfigurationDict)
    (ikeys : list key) :
  well_formed item ->
  writable_section dfn name item ->
  (forall k, In k ikeys -> In k (dict_keys (data item))) ->
  Configuration.item_lines item ikeys
  = inr (map entry_line
           (map (fun k => (k, ConfigurationDict.get item k)) ikeys)).
Proof.
  intros [Hnd Hnorm] Hw. induction ikeys as [|k r IH]; intros Hin;
    [reflexivity|].
  cbn [Configuration.item_lines map].
  assert (Hk : In k (dict_keys (data item))) by (apply Hin; now left).
  assert (Hkn : _k k = k).
  { unfold dict_keys in Hk. apply in_map_iff in Hk as ([k0 v0] & <- & Hk0).
    unfold normal_keys in Hnorm. rewrite Forall_forall in Hnorm.
    apply (Hnorm _ Hk0). }
  assert (Hstr : is_str k = true).
  { pose proof (writable_entry_str name (data item) Hw) as Hs.
    rewrite Forall_forall in Hs. now apply Hs. }
  unfold ConfigurationDict.__getitem__, ConfigurationDict.get, dict_getitem.
  rewrite Hkn.
  destruct (dict_get k (data item)) as [v|] eqn:E.
  - destruct k as [s|z]; [|discriminate].
    rewrite IH by (intros k' Hk'; apply Hin; now right).
    unfold entry_line at 2. cbn [fst snd].
    now destruct (keyval_typ2str s v).
  - apply dict_get_None in E. contradiction.
Qed.

(** The entries of a section in the order in which they are written. *)
Lemma sorted_entries_spec (name : str) (item : ConfigurationDict) :
  well_formed item ->
  writable_section dfn name item ->
  exists ikeys,
    sort (dict_keys (data item)) = inr ikeys
    /\ Configuration.item_lines item ikeys
       = inr (map entry_line (sorted_entries item))
    /\ Permutation (sorted_entries item) (data item).
Proof.
  intros Hwf Hw.
  destruct (sort_strings _ (writable_entry_str name _ Hw))
    as (ikeys & Hsort & Hperm).
  exists ikeys. split; [exact Hsort|].
  assert (Hin : forall k, In k ikeys -> In k (dict_keys (data item)))
    by (intros k Hk; eapply Permutation_in; eauto).
  assert (Hentries : sorted_entries item
                     = map (fun k => (k, ConfigurationDict.get item k))
                         ikeys).
  { unfold sorted_entries, ConfigurationDict.items. rewrite Hsort.
    rewrite lookup_all_entries; [reflexivity | exact Hin | apply Hwf]. }
  rewrite Hentries. split.
  - now apply (item_lines_entries name).
  - rewrite <- (entries_of_keys item Hwf) at 1. now apply Permutation_map.
Qed.

Lemma sorted_entries_writable (name : str) (item : ConfigurationDict) :
  well_formed item ->
  writable_section dfn name item ->
  Forall (writable_entry dfn name) (sorted_entries item)
  /\ NoDup (dict_keys (sorted_entries item)).
Proof.
  intros Hwf Hw.
  destruct (sorted_entries_spec name item Hwf Hw) as (_ & _ & _ & Hperm).
  split.
  - eapply Permutation_Forall; [symmetry; exact Hperm | exact Hw].
  - eapply Permutation_NoDup; [|apply Hwf].
    unfold dict_keys. apply Permutation_map. now symmetry.
Qed.


Lemma section_of (self : Configuration) (n : key) :
  well_formed_Configuration self ->
  In n (Configuration.keys self) ->
  exists item,
    In (n, item) (sections (_cfg self))
    /\ sm_getitem (_cfg self) n = inr item
    /\ Configuration.__contains__ self n = true.
Proof.
  intros (_ & Hnd & Hnorm & _) Hn.
  unfold Configuration.keys, dict_keys in Hn.
  apply in_map_iff in Hn as ([n0 item] & Hn0 & Hin). cbn [fst] in Hn0.
  subst n0. exists item.
  assert (Hk : _k n = n).
  { unfold normal_keys in Hnorm. rewrite Forall_forall in Hnorm.
    apply (Hnorm _ Hin). }
  assert (Hget : dict_get n (sections (_cfg self)) = Some item)
    by now apply dict_get_In.
  split; [exact Hin|].
  unfold sm_getitem, Configuration.__contains__, sm_contains,
    dict_getitem, dict_contains.
  now rewrite Hk, Hget.
Qed.

Lemma writable_section_of (self : Configuration) (n : key)
    (item : ConfigurationDict) :
  well_formed_Configuration self ->
  writable dfn self ->
  In (n, item) (sections (_cfg self)) ->
  well_formed item
  /\ exists name,
       n = KStr name /\ clean_name name /\ writable_section dfn name item.
Proof.
  intros (_ & _ & _ & Hall) Hw Hin.
  unfold every_section in Hall. unfold writable in Hw.
  rewrite Forall_forall in Hall, Hw.
  split; [apply (Hall _ Hin) | apply (Hw _ Hin)].
Qed.

(** The lines that [tostring] writes for the sections [ns]. *)
Lemma sections_lines_spec (self : Configuration) (ns : list key) :
  well_formed_Configuration self ->
  writable dfn self ->
  (forall n, In n ns -> In n (Configuration.keys self)) ->
  Configuration.sections_lines dfn self ns
  = inr (self,
         flat_map (fun n =>
                     section_text n
                       (sorted_entries
                          (match sm_getitem (_cfg self) n with
                           | inr item => item
                           | inl _ => ConfigurationDict.__init__ None
                           end)))
           ns).
Proof.
  intros Hwf Hw. induction ns as [|n ns IH]; intros Hin; [reflexivity|].
  destruct (section_of self n Hwf (Hin n (or_introl eq_refl)))
    as (item & Hitem & Hget & Hcontains).
  destruct (writable_section_of self n item Hwf Hw Hitem)
    as (Hwfi & name & -> & Hname & Hwi).
  destruct (sorted_entries_spec name item Hwfi Hwi)
    as (ikeys & Hsort & Hlines & _).
  cbn [Configuration.sections_lines flat_map].
  unfold Configuration.__getitem__, Configuration.provision.
  rewrite Hcontains. cbn [negb andb]. rewrite Hget, Hsort, Hlines.
  rewrite IH by (intros n' Hn'; apply Hin; now right).
  unfold section_text at 2. cbn [app].
  now rewrite <- app_assoc.
Qed.

Lemma flat_map_map {A B C : Type} (f : A -> B) (g : B -> list C)
    (l : list A) :
  flat_map g (map f l) = flat_map (fun x => g (f x)) l.
Proof.
  induction l as [|x l IH]; [reflexivity|]. cbn [map flat_map].
  now rewrite IH.
Qed.

(** The sections in the order in which they are written. *)
Lemma sorted_sections_spec (self : Configuration) :
  well_formed_Configuration self ->
  writable dfn self ->
  exists names,
    sort (Configuration.keys self) = inr names
    /\ Permutation names (Configuration.keys self)
    /\ sorted_sections self
       = map (fun n => (n, match sm_getitem (_cfg self) n with
                           | inr item => item
                           | inl _ => ConfigurationDict.__init__ None
                           end))
           names.
Proof.
  intros Hwf Hw.
  assert (Hstr : Forall (fun k => is_str k = true)
                   (Configuration.keys self)).
  { unfold Configuration.keys, dict_keys. apply Forall_map.
    revert Hw. apply Forall_impl. intros kv (name & -> & _). reflexivity. }
  destruct (sort_strings _ Hstr) as (names & Hsort & Hperm).
  exists names. split; [exact Hsort|]. split; [exact Hperm|].
  unfold sorted_sections. now rewrite Hsort.
Qed.

(** What [tostring] returns. *)
Lemma tostring_written_lines (self : Configuration) :
  well_formed_Configuration self ->
  writable dfn self ->
  Configuration.tostring dfn self None
  = inr (self, flat_map (fun l => l ++ [10%N]) (written_lines self)).
Proof.
  intros Hwf Hw.
  destruct (sorted_sections_spec self Hwf Hw)
    as (names & Hsort & Hperm & Hsections).
  unfold Configuration.tostring. rewrite Hsort.
  rewrite sections_lines_spec; trivial.
  - unfold written_lines. rewrite Hsections, flat_map_map. reflexivity.
  - intros n Hn. eapply Permutation_in; eauto.
Qed.

(** The sections in the order in which they are written: their names,
    their entries. *)
Lemma sorted_sections_writable (self : Configuration) :
  well_formed_Configuration self ->
  writable dfn self ->
  NoDup (map fst (sorted_sections self))
  /\ Forall (fun kv =>
               In kv (sections (_cfg self))
               /\ exists name,
                    fst kv = KStr name
                    /\ clean_name name
                    /\ Forall (writable_entry dfn name)
                         (sorted_entries (snd kv))
                    /\ NoDup (dict_keys (sorted_entries (snd kv))))
       (sorted_sections self).
Proof.
  intros Hwf Hw.
  destruct (sorted_sections_spec self Hwf Hw)
    as (names & Hsort & Hperm & Hsections).
  rewrite Hsections. split.
  - rewrite map_map. cbn [fst]. rewrite map_id.
    eapply Permutation_NoDup; [symmetry; exact Hperm | apply Hwf].
  - apply Forall_map. apply Forall_forall. intros n Hn.
    destruct (section_of self n Hwf (Permutation_in _ Hperm Hn))
      as (item & Hitem & Hget & _).
    rewrite Hget. cbn [fst snd].
    destruct (writable_section_of self n item Hwf Hw Hitem)
      as (Hwfi & name & -> & Hname & Hwi).
    split; [exact Hitem|]. exists name.
    destruct (sorted_entries_writable name item Hwfi Hwi).
    split; [reflexivity|]. split; [exact Hname|]. now split.
Qed.

(** No line that is written holds a line feed. *)
Lemma written_lines_in_line (self : Configuration) :
  well_formed_Configuration self ->
  writable dfn self ->
  Forall (fun l => ~ In 10%N l) (written_lines self).
Proof.
  intros Hwf Hw.
  destruct (sorted_sections_writable self Hwf Hw) as [_ Hall].
  unfold written_lines. apply Forall_flat_map.
  revert Hall. apply Forall_impl.
  intros [n item] (_ & name & Hn & [_ Hname] & Hes & _).
  cbn [fst snd] in *. subst n. unfold section_text.
  cbn [Configuration.format_key].
  assert (Hfeed : forall l, Forall in_line l -> ~ In 10%N l).
  { intros l Hl Hin. rewrite Forall_forall in Hl.
    destruct (Hl _ Hin) as [H _]. now apply H. }
  constructor.
  - apply Hfeed. change (`"[" ++ name ++ `"]") with (91%N :: name ++ [93%N]).
    constructor; [repeat split; discriminate|].
    apply Forall_app. split; [exact Hname|].
    repeat (constructor || discriminate).
  - apply Forall_app. split; [|repeat constructor; intros []].
    apply Forall_map. revert Hes. apply Forall_impl.
    intros [k v] (var & Hk & Hclean & _ & Hv). cbn [fst snd] in *. subst k.
    pose proof (clean_key_strip var Hclean) as Hstrip.
    assert (Hvar : Str.strip var <> []).
    { rewrite Hstrip. destruct Hclean as (_ & _ & [Hhead _] & _).
      destruct var; [destruct Hhead | discriminate]. }
    destruct (written_text var v Hv Hvar) as (Hline & _).
    unfold entry_line. cbn [fst snd].
    rewrite keyval_typ2str_var, Hstrip.
    apply Hfeed. apply Forall_app. split.
    + destruct Hclean as (_ & Hchars & _). revert Hchars.
      apply Forall_impl. now intros c [Hc _].
    + change (`" = ") with [32%N; 61%N; 32%N].
      apply Forall_app. split; [|exact Hline].
      repeat (constructor || discriminate).
Qed.

End ReadBack.

(** A configuration that is written as text and read back.  Its section
    names and its keys are clean strings, the schema does not know the
    keys, and the values are truth values, numbers and lists of floats.
    Then [tostring] returns a text and leaves the configuration as it is,
    and [load_from_file] reads the lines of the text, without a warning,
    as the configuration read back: the same sections in the order of
    their names, each without a section name and with the same keys in
    their order, and with each value as its text is read, a truth value as
    itself, an integer as a float, a float rounded to twelve digits. *)
Theorem a_written_configuration_is_read_back
    (dfn : Definitions) (self : Configuration) :
  well_formed_Configuration self ->
  writable dfn self ->
  exists text,
    Configuration.tostring dfn self None = inr (self, text)
    /\ load_from_file dfn (readlines text)
       = ([], inr (read_back_Configuration self))
    /\ Permutation (dict_keys (sections (read_back_Configuration self)))
         (Configuration.keys self)
    /\ forall n item,
         sm_getitem (_cfg self) n = inr item ->
         sm_getitem (read_back_Configuration self) n
         = inr (read_back_section item)
         /\ Permutation (data (read_back_section item))
              (map read_back_entry (data item)).
Proof.
  intros Hwf Hw.
  exists (flat_map (fun l => l ++ [10%N]) (written_lines self)).
  destruct (sorted_sections_spec dfn self Hwf Hw)
    as (names & Hsort & Hperm & Hsections).
  destruct (sorted_sections_writable dfn self Hwf Hw) as [Hnd Hall].
  assert (Hkeys : dict_keys (sections (read_back_Configuration self))
                  = names).
  { unfold read_back_Configuration, dict_keys. cbn [sections].
    rewrite Hsections, !map_map. cbn [fst]. apply map_id. }
  split; [exact (tostring_written_lines dfn self Hwf Hw)|].
  split; [|split].
  - rewrite (readlines_lines _ (written_lines_in_line dfn self Hwf Hw)).
    unfold load_from_file.
    destruct (load_sections dfn
                (map (fun kv => (fst kv, sorted_entries (snd kv)))
                   (sorted_sections self))
                [] None) as [sec1 Hload].
    + apply Forall_map. revert Hall. apply Forall_impl.
      intros kv (_ & name & H). now exists name.
    + cbn [dict_keys map app]. rewrite map_map. cbn [fst]. exact Hnd.
    + rewrite flat_map_map in Hload. cbn [fst snd] in Hload.
      unfold written_lines.
      eapply eq_trans;
        [eapply bind_returns; [exact Hload | reflexivity]|].
      cbn [app fst]. rewrite map_map. reflexivity.
  - rewrite Hkeys. exact Hperm.
  - intros n item Hget.
    assert (Hk : In (_k n) (Configuration.keys self)).
    { unfold sm_getitem, dict_getitem in Hget. apply dict_contains_In.
      unfold dict_contains.
      destruct (dict_get (_k n) (sections (_cfg self))); [reflexivity|].
      discriminate. }
    destruct (section_of self (_k n) Hwf Hk) as (item' & Hin & Hget' & _).
    assert (Hsame : item' = item).
    { unfold sm_getitem in Hget, Hget'. rewrite _k_idempotent in Hget'.
      congruence. }
    subst item'.
    destruct (writable_section_of dfn self (_k n) item Hwf Hw Hin)
      as (Hwfi & name & _ & _ & Hwi).
    split.
    + unfold sm_getitem, dict_getitem.
      rewrite (dict_get_In (sections (read_back_Configuration self))
                 (_k n) (read_back_section item)); [reflexivity| |].
      * rewrite Hkeys.
        eapply Permutation_NoDup; [symmetry; exact Hperm | apply Hwf].
      * unfold read_back_Configuration. cbn [sections].
        rewrite Hsections, map_map. cbn [fst snd].
        apply in_map_iff. exists (_k n). split.
        -- unfold sm_getitem at 1. rewrite _k_idempotent.
           unfold sm_getitem in Hget. now rewrite Hget.
        -- eapply Permutation_in; [symmetry; exact Hperm | exact Hk].
    + unfold read_back_section. cbn [data]. apply Permutation_map.
      now destruct (sorted_entries_spec dfn name item Hwfi Hwi)
        as (_ & _ & _ & H).
Qed.

Lemma a_written_configuration_is_read_back_witness :
  exists text,
    Configuration.tostring Sample.dfn shape_out None
    = inr (shape_out, text)
    /\ load_from_file Sample.dfn (readlines text)
       = ([], inr {| sections :=
                       [(KStr `"shape-out",
                         {| section := None;
                            data := [(KStr `"alpha", VFloat float_016);
                                     (KStr `"dark", VBool true);
                                     (KStr `"zoom", VFloat (Num.of_Z 20))]
                         |})] |}).
Proof.
  assert (Hwf : well_formed_Configuration shape_out).
  { repeat split; repeat constructor; simpl; intuition discriminate. }
  assert (Hw : writable Sample.dfn shape_out).
  { constructor; [|constructor]. exists `"shape-out".
    split; [reflexivity|]. split.
    - split; [reflexivity|]. repeat (constructor || discriminate).
    - repeat constructor.
      + exists `"zoom". split; [reflexivity|]. split; [|split].
        * repeat split; try reflexivity; try discriminate.
          repeat (constructor || discriminate).
        * reflexivity.
        * split; [vm_compute; reflexivity | reflexivity].
      + exists `"alpha". split; [reflexivity|]. split; [|split].
        * repeat split; try reflexivity; try discriminate.
          repeat (constructor || discriminate).
        * reflexivity.
        * reflexivity.
      + exists `"dark". split; [reflexivity|]. split; [|split].
        * repeat split; try reflexivity; try discriminate.
          repeat (constructor || discriminate).
        * reflexivity.
        * exact I. }
  destruct (a_written_configuration_is_read_back Sample.dfn shape_out
              Hwf Hw) as (text & Htext & Hload & _).
  exists text. split; [exact Htext|].
  rewrite Hload. vm_compute. reflexivity.
Defined.
